(** * lua-mosquitto-v5: the property codec, the status translator and the
      callback bridge of [lua-mosquitto.c], as a shallow embedding.

    The C functions are translated one by one and keep their names.  The Lua
    stack, the Lua registry and the libmosquitto property list are explicit
    values; a Lua error (a [longjmp] out of the C function) and an undefined
    C operation are explicit outcomes. *)

From Stdlib Require Import ZArith QArith Lia.
From stdpp Require Import base option list gmap strings.

Open Scope Z_scope.

(** ** Lua values *)

(** A [lua_Number] is a double in every Lua version the binding builds with;
    the finite doubles are rationals, and the only operation the binding
    applies to one is the C conversion to [int].  A Lua string is a byte
    string that may contain NUL bytes.  A table is listed in the order
    [lua_next] traverses it. *)
#[warnings="-register-all"]
Inductive lua_value :=
  | LNil
  | LBoolean (b : bool)
  | LNumber (n : Q)
  | LString (s : string)
  | LTable (t : list (lua_value * lua_value))
  | LFunction (f : nat)
  | LUserdata (u : nat).

(** [lua_type] tags, as in lua.h. *)
Definition LUA_TNIL : Z := 0.
Definition LUA_TBOOLEAN : Z := 1.
Definition LUA_TLIGHTUSERDATA : Z := 2.
Definition LUA_TNUMBER : Z := 3.
Definition LUA_TSTRING : Z := 4.
Definition LUA_TTABLE : Z := 5.
Definition LUA_TFUNCTION : Z := 6.
Definition LUA_TUSERDATA : Z := 7.

Definition lua_type (v : lua_value) : Z :=
  match v with
  | LNil => LUA_TNIL
  | LBoolean _ => LUA_TBOOLEAN
  | LNumber _ => LUA_TNUMBER
  | LString _ => LUA_TSTRING
  | LTable _ => LUA_TTABLE
  | LFunction _ => LUA_TFUNCTION
  | LUserdata _ => LUA_TUSERDATA
  end.

(** [lua_isstring]: a string, or a number (always convertible to one). *)
Definition lua_isstring (v : lua_value) : bool :=
  match v with
  | LString _ | LNumber _ => true
  | _ => false
  end.

Definition lua_isfunction (v : lua_value) : bool :=
  match v with
  | LFunction _ => true
  | _ => false
  end.

Definition lua_istable (v : lua_value) : bool :=
  match v with
  | LTable _ => true
  | _ => false
  end.

(** What a binding hands back to Lua: the values it returned, or the error
    it raised with [luaL_error] / [luaL_argerror]. *)
Inductive lua_return :=
  | Return (vals : list lua_value)
  | Error (msg : string).

(** ** C strings and C integers *)

Definition NUL : Ascii.ascii := Ascii.zero.

(** The bytes a [const char *] into a Lua string denotes to a function that
    reads up to the terminator: the prefix before the first NUL. *)
Fixpoint c_str (s : string) : string :=
  match s with
  | EmptyString => EmptyString
  | String c s' => if Ascii.eqb c NUL then EmptyString else String c (c_str s')
  end.

Definition strlen (s : string) : Z := Z.of_nat (String.length (c_str s)).

(** The first [n] bytes behind a pointer, for functions given a length. *)
Fixpoint take_bytes (n : nat) (s : string) : string :=
  match n, s with
  | S n', String c s' => String c (take_bytes n' s')
  | _, _ => EmptyString
  end.

Definition INT_MIN : Z := - 2 ^ 31.
Definition INT_MAX : Z := 2 ^ 31 - 1.
Definition UINT8_MAX : Z := 255.
Definition UINT16_MAX : Z := 65535.
Definition UINT32_MAX : Z := 4294967295.

(** Conversion of a [double] to [int] (C11 6.3.1.4): the fractional part is
    discarded; when the integral part is not representable the behaviour is
    undefined, here [None]. *)
Definition double_to_int (n : Q) : option Z :=
  let t := Z.quot (Qnum n) (Z.pos (Qden n)) in
  if (INT_MIN <=? t) && (t <=? INT_MAX) then Some t else None.

(** Conversion of an [int] to [unsigned int] in a mixed comparison. *)
Definition int_to_unsigned (v : Z) : Z := v mod 2 ^ 32.

(** ** libmosquitto result codes (mosquitto.h, [enum mosq_err_t]) *)

Definition MOSQ_ERR_SUCCESS : Z := 0.
Definition MOSQ_ERR_NOMEM : Z := 1.
Definition MOSQ_ERR_PROTOCOL : Z := 2.
Definition MOSQ_ERR_INVAL : Z := 3.
Definition MOSQ_ERR_NO_CONN : Z := 4.
Definition MOSQ_ERR_CONN_REFUSED : Z := 5.
Definition MOSQ_ERR_NOT_FOUND : Z := 6.
Definition MOSQ_ERR_CONN_LOST : Z := 7.
Definition MOSQ_ERR_TLS : Z := 8.
Definition MOSQ_ERR_PAYLOAD_SIZE : Z := 9.
Definition MOSQ_ERR_NOT_SUPPORTED : Z := 10.
Definition MOSQ_ERR_AUTH : Z := 11.
Definition MOSQ_ERR_ACL_DENIED : Z := 12.
Definition MOSQ_ERR_UNKNOWN : Z := 13.
Definition MOSQ_ERR_ERRNO : Z := 14.
Definition MOSQ_ERR_EAI : Z := 15.
Definition MOSQ_ERR_PROXY : Z := 16.
Definition MOSQ_ERR_MALFORMED_UTF8 : Z := 18.
Definition MOSQ_ERR_DUPLICATE_PROPERTY : Z := 22.

(** ** Status translator *)

(** The C library around the translator: [mosquitto_strerror], [strerror]
    and the current value of [errno]. *)
Record libc := {
  mosquitto_strerror : Z -> string;
  strerror : Z -> string;
  errno : Z
}.

(** [mosq__pstatus] (lua-mosquitto.c:96).  The [switch] has no [default]:
    a code outside the nine labels leaves it and reaches [return 0]. *)
Definition mosq__pstatus (C : libc) (mosq_errno : Z) : lua_return :=
  if mosq_errno =? MOSQ_ERR_SUCCESS then
    Return [LBoolean true]
  else if (mosq_errno =? MOSQ_ERR_INVAL) || (mosq_errno =? MOSQ_ERR_NOMEM)
          || (mosq_errno =? MOSQ_ERR_PROTOCOL)
          || (mosq_errno =? MOSQ_ERR_NOT_SUPPORTED) then
    Error (mosquitto_strerror C mosq_errno)
  else if (mosq_errno =? MOSQ_ERR_NO_CONN) || (mosq_errno =? MOSQ_ERR_CONN_LOST)
          || (mosq_errno =? MOSQ_ERR_PAYLOAD_SIZE) then
    Return [LNil; LNumber (inject_Z mosq_errno);
            LString (mosquitto_strerror C mosq_errno)]
  else if mosq_errno =? MOSQ_ERR_ERRNO then
    Return [LNil; LNumber (inject_Z (errno C)); LString (strerror C (errno C))]
  else
    Return [].

(** A C library for evaluating the translator on concrete codes. *)
Definition libc_sample : libc :=
  {| mosquitto_strerror := fun _ => "mosquitto error";
     strerror := fun _ => "os error";
     errno := 0 |}.

(** The three shapes of the status contract. *)
Definition is_success_shape (r : lua_return) : Prop :=
  r = Return [LBoolean true].

Definition is_recoverable_shape (r : lua_return) : Prop :=
  exists code msg, r = Return [LNil; LNumber (inject_Z code); LString msg].

Definition is_hard_failure (r : lua_return) : Prop :=
  exists msg, r = Error msg.

(** The codes the [switch] of [mosq__pstatus] has a label for. *)
Definition pstatus_labels : list Z :=
  [MOSQ_ERR_SUCCESS; MOSQ_ERR_INVAL; MOSQ_ERR_NOMEM; MOSQ_ERR_PROTOCOL;
   MOSQ_ERR_NOT_SUPPORTED; MOSQ_ERR_NO_CONN; MOSQ_ERR_CONN_LOST;
   MOSQ_ERR_PAYLOAD_SIZE; MOSQ_ERR_ERRNO].

(** ** MQTT v5 properties *)

(** Property identifiers, wire types and command kinds (mqtt_protocol.h). *)
Definition MQTT_PROP_PAYLOAD_FORMAT_INDICATOR : Z := 1.
Definition MQTT_PROP_MESSAGE_EXPIRY_INTERVAL : Z := 2.
Definition MQTT_PROP_CONTENT_TYPE : Z := 3.
Definition MQTT_PROP_RESPONSE_TOPIC : Z := 8.
Definition MQTT_PROP_CORRELATION_DATA : Z := 9.
Definition MQTT_PROP_SUBSCRIPTION_IDENTIFIER : Z := 11.
Definition MQTT_PROP_SESSION_EXPIRY_INTERVAL : Z := 17.
Definition MQTT_PROP_ASSIGNED_CLIENT_IDENTIFIER : Z := 18.
Definition MQTT_PROP_SERVER_KEEP_ALIVE : Z := 19.
Definition MQTT_PROP_AUTHENTICATION_METHOD : Z := 21.
Definition MQTT_PROP_AUTHENTICATION_DATA : Z := 22.
Definition MQTT_PROP_REQUEST_PROBLEM_INFORMATION : Z := 23.
Definition MQTT_PROP_WILL_DELAY_INTERVAL : Z := 24.
Definition MQTT_PROP_REQUEST_RESPONSE_INFORMATION : Z := 25.
Definition MQTT_PROP_RESPONSE_INFORMATION : Z := 26.
Definition MQTT_PROP_SERVER_REFERENCE : Z := 28.
Definition MQTT_PROP_REASON_STRING : Z := 31.
Definition MQTT_PROP_RECEIVE_MAXIMUM : Z := 33.
Definition MQTT_PROP_TOPIC_ALIAS_MAXIMUM : Z := 34.
Definition MQTT_PROP_TOPIC_ALIAS : Z := 35.
Definition MQTT_PROP_MAXIMUM_QOS : Z := 36.
Definition MQTT_PROP_RETAIN_AVAILABLE : Z := 37.
Definition MQTT_PROP_USER_PROPERTY : Z := 38.
Definition MQTT_PROP_MAXIMUM_PACKET_SIZE : Z := 39.
Definition MQTT_PROP_WILDCARD_SUB_AVAILABLE : Z := 40.
Definition MQTT_PROP_SUBSCRIPTION_ID_AVAILABLE : Z := 41.
Definition MQTT_PROP_SHARED_SUB_AVAILABLE : Z := 42.

Definition MQTT_PROP_TYPE_BYTE : Z := 1.
Definition MQTT_PROP_TYPE_INT16 : Z := 2.
Definition MQTT_PROP_TYPE_INT32 : Z := 3.
Definition MQTT_PROP_TYPE_VARINT : Z := 4.
Definition MQTT_PROP_TYPE_BINARY : Z := 5.
Definition MQTT_PROP_TYPE_STRING : Z := 6.
Definition MQTT_PROP_TYPE_STRING_PAIR : Z := 7.

Definition CMD_CONNECT : Z := 16.
Definition CMD_CONNACK : Z := 32.
Definition CMD_PUBLISH : Z := 48.
Definition CMD_SUBSCRIBE : Z := 128.
Definition CMD_UNSUBSCRIBE : Z := 160.
Definition CMD_DISCONNECT : Z := 224.
Definition CMD_AUTH : Z := 240.
Definition CMD_WILL : Z := 256.

(** One node of a [mosquitto_property] list: the identifier and the member
    of the value union that the identifier's wire type selects. *)
Inductive property_value :=
  | V_i8 (v : Z)
  | V_i16 (v : Z)
  | V_i32 (v : Z)
  | V_varint (v : Z)
  | V_bin (bytes : string)
  | V_s (s : string)
  | V_pair (name value : string).

Record mosquitto_property := {
  identifier : Z;
  value : property_value
}.

Abbreviation proplist := (list mosquitto_property).

(** The external C functions the codec and the bridge call.  A pointer
    argument into a Lua string is the string itself ([None] for [NULL]); an
    [add] function returns its result code and the list [*proplist] points
    to afterwards. *)
Record native := {
  mosquitto_string_to_property_info : option string -> Z * (Z * Z);
  mosquitto_property_add_byte : proplist -> Z -> Z -> Z * proplist;
  mosquitto_property_add_int16 : proplist -> Z -> Z -> Z * proplist;
  mosquitto_property_add_int32 : proplist -> Z -> Z -> Z * proplist;
  mosquitto_property_add_varint : proplist -> Z -> Z -> Z * proplist;
  mosquitto_property_add_binary : proplist -> Z -> string -> Z -> Z * proplist;
  mosquitto_property_add_string : proplist -> Z -> string -> Z * proplist;
  mosquitto_property_add_string_pair :
    proplist -> Z -> option string -> option string -> Z * proplist;
  mosquitto_property_check_all : Z -> proplist -> Z;
  mosquitto_property_identifier_to_string : Z -> option string;
  mosquitto_connack_string : Z -> string;
  mosquitto_reason_string : Z -> string;
  (* whether the copy that mosquitto_property_read_string, _read_binary or
     _read_string_pair makes of a node's value is allocated (calloc may
     fail and leave the pointer NULL); the argument is the number of nodes
     that follow the node in the list *)
  read_copy_allocated : nat -> bool;
  (* Lua's conversion of a number to a string, applied in place by
     lua_tolstring *)
  lua_number2str : Q -> string;
  (* how lua_call calls a value that is not a function: the function its
     __call metamethod (or, where Lua follows them, its chain of __call
     metamethods) resolves to, and the values put before the arguments -
     the value itself for one metamethod; None when there is none, and the
     call raises *)
  lua_call_metamethod : lua_value -> option (nat * list lua_value)
}.

(** [mosquitto_property_free_all]: every node is freed and [*proplist]
    becomes [NULL]. *)
Definition mosquitto_property_free_all (pl : proplist) : proplist := [].

(** ** Encoding: [create_property_list_from_lua_stack] *)

Section Encode.
Context (N : native).

(** [lua_tolstring(L, i, NULL)]: the bytes of a string, the converted
    number, [NULL] for every other value. *)
Definition lua_tolstring (v : lua_value) : option string :=
  match v with
  | LString s => Some s
  | LNumber n => Some (lua_number2str N n)
  | _ => None
  end.

(** How the body of the outer [while] leaves one table entry. *)
Inductive entry_result :=
  | Fallthrough (rc : Z) (pl : proplist)
      (* reached the lua_pop after the if-chain *)
  | Returned (rc : Z) (pl : proplist)
      (* a return statement was executed *)
  | Raised (pl : proplist)
      (* luaL_checktype raised a Lua error *)
  | Undefined.
      (* behaviour not defined by C or by the Lua manual *)

(** The [LUA_TNUMBER] branch, after [int value = lua_tonumber(L, -1)]. *)
Definition add_number (pl : proplist) (identifier type value : Z)
  : entry_result :=
  if type =? MQTT_PROP_TYPE_BYTE then
    if (value <? 0) || (value >? UINT8_MAX) then Fallthrough MOSQ_ERR_INVAL pl
    else
      let '(rc, pl') :=
        mosquitto_property_add_byte N pl identifier (value mod 2 ^ 8) in
      Fallthrough rc pl'
  else if type =? MQTT_PROP_TYPE_INT16 then
    if (value <? 0) || (value >? UINT16_MAX) then Fallthrough MOSQ_ERR_INVAL pl
    else
      let '(rc, pl') :=
        mosquitto_property_add_int16 N pl identifier (value mod 2 ^ 16) in
      Fallthrough rc pl'
  else if type =? MQTT_PROP_TYPE_INT32 then
    if (value <? 0) || (int_to_unsigned value >? UINT32_MAX)
    then Fallthrough MOSQ_ERR_INVAL pl
    else
      let '(rc, pl') :=
        mosquitto_property_add_int32 N pl identifier (int_to_unsigned value) in
      Fallthrough rc pl'
  else if type =? MQTT_PROP_TYPE_VARINT then
    if (value <? 0) || (int_to_unsigned value >? UINT32_MAX)
    then Fallthrough MOSQ_ERR_INVAL pl
    else
      let '(rc, pl') :=
        mosquitto_property_add_varint N pl identifier (int_to_unsigned value) in
      Fallthrough rc pl'
  else Returned MOSQ_ERR_INVAL pl.

(** The [LUA_TSTRING] branch; [value] is the pointer returned by
    [lua_tolstring(L, -1, NULL)], with no length. *)
Definition add_string (pl : proplist) (identifier type : Z) (value : string)
  : entry_result :=
  if type =? MQTT_PROP_TYPE_BINARY then
    let szt := strlen value in
    if szt >? UINT16_MAX then Fallthrough MOSQ_ERR_INVAL pl
    else
      let '(rc, pl') :=
        mosquitto_property_add_binary N pl identifier value (szt mod 2 ^ 16) in
      Fallthrough rc pl'
  else if type =? MQTT_PROP_TYPE_STRING then
    let '(rc, pl') := mosquitto_property_add_string N pl identifier value in
    Fallthrough rc pl'
  else Returned MOSQ_ERR_INVAL pl.

(** The [LUA_TTABLE] branch: the inner [while (lua_next ...)].  [rc] is
    overwritten by every pair and the loop has no [break]. *)
Fixpoint add_table (t : list (lua_value * lua_value)) (identifier rc : Z)
    (pl : proplist) : entry_result :=
  match t with
  | [] => Fallthrough rc pl
  | (k, v) :: t' =>
      match k with
      | LString userkey =>
          let '(rc', pl') :=
            mosquitto_property_add_string_pair N pl identifier
              (Some userkey) (lua_tolstring v) in
          add_table t' identifier rc' pl'
      | _ => Raised pl
      end
  end.

(** The value part of one iteration, once the name is resolved. *)
Definition add_value (pl : proplist) (identifier type : Z) (v : lua_value)
  : entry_result :=
  match v with
  | LNumber n =>
      match double_to_int n with
      | Some value => add_number pl identifier type value
      | None => Undefined
      end
  | LString value => add_string pl identifier type value
  | LTable t => add_table t identifier MOSQ_ERR_SUCCESS pl
  | _ => Fallthrough MOSQ_ERR_INVAL pl
  end.

(** One iteration of the outer loop. *)
Definition add_entry (pl : proplist) (k v : lua_value) : entry_result :=
  let '(rc, (identifier, type)) :=
    mosquitto_string_to_property_info N (lua_tolstring k) in
  if negb (rc =? MOSQ_ERR_SUCCESS) then Fallthrough rc pl
  else add_value pl identifier type v.

(** A number key is rewritten in place by [lua_tolstring]; the Lua manual
    leaves a following [lua_next] on it unspecified. *)
Definition key_survives (k : lua_value) : bool :=
  match k with
  | LNumber _ => false
  | _ => true
  end.

(** The outer [while (lua_next(L, index) != 0)]: the result is the value
    of [rc] and of [*proplist] when the loop is left. *)
Fixpoint scan (t : list (lua_value * lua_value)) (rc : Z) (pl : proplist)
  : entry_result :=
  match t with
  | [] => Fallthrough rc pl
  | (k, v) :: t' =>
      match add_entry pl k v with
      | Fallthrough rc' pl' =>
          if negb (rc' =? MOSQ_ERR_SUCCESS) then Fallthrough rc' pl'
          else if key_survives k then scan t' rc' pl'
          else Undefined
      | r => r
      end
  end.

(** [create_property_list_from_lua_stack] (lua-mosquitto.c:1750) on the
    table at [index], with [*proplist] initially [pl].  [rc] is declared
    without an initialiser; [rc_indeterminate] is the value it holds when
    it is read before any assignment. *)
Definition create_property_list_from_lua_stack (rc_indeterminate : Z)
    (t : list (lua_value * lua_value)) (pl : proplist) (command : Z)
  : entry_result :=
  match scan t rc_indeterminate pl with
  | Fallthrough rc pl' =>
      if negb (rc =? MOSQ_ERR_SUCCESS) then
        Returned rc (mosquitto_property_free_all pl')
      else if negb (mosquitto_property_check_all N command pl'
                    =? MOSQ_ERR_SUCCESS) then
        Returned MOSQ_ERR_INVAL (mosquitto_property_free_all pl')
      else Returned MOSQ_ERR_SUCCESS pl'
  | r => r
  end.

End Encode.

(** ** The Lua stack *)

(** The part of the stack a C function works on, top first.  A table is
    referenced from one slot only in the functions below, so it is kept in
    the slot; a table built by [lua_setfield] lists its fields in insertion
    order. *)
Abbreviation lua_State := (list lua_value).

Definition key_is (k : lua_value) (name : string) : bool :=
  match k with
  | LString s => String.eqb s name
  | _ => false
  end.

(** [t[name] = v] on a table. *)
Fixpoint table_set (t : list (lua_value * lua_value)) (name : string)
    (v : lua_value) : list (lua_value * lua_value) :=
  match t with
  | [] => [(LString name, v)]
  | (k, v') :: t' =>
      if key_is k name then (k, v) :: t' else (k, v') :: table_set t' name v
  end.

(** [t[name]], [None] when the field is absent. *)
Fixpoint table_get (t : list (lua_value * lua_value)) (name : string)
  : option lua_value :=
  match t with
  | [] => None
  | (k, v) :: t' => if key_is k name then Some v else table_get t' name
  end.

Definition lua_newtable (L : lua_State) : lua_State := LTable [] :: L.

Definition lua_pushinteger (L : lua_State) (n : Z) : lua_State :=
  LNumber (inject_Z n) :: L.

Definition lua_pushboolean (L : lua_State) (b : bool) : lua_State :=
  LBoolean b :: L.

(** [lua_pushstring] copies up to the terminator, [lua_pushlstring] copies
    [len] bytes. *)
Definition lua_pushstring (L : lua_State) (s : string) : lua_State :=
  LString (c_str s) :: L.

Definition lua_pushlstring (L : lua_State) (s : string) (len : Z) : lua_State :=
  LString (take_bytes (Z.to_nat len) s) :: L.

(** [lua_setfield(L, idx, name)] for a negative [idx]: the value on top is
    stored in the table at [idx] (counted before the pop) and popped.
    [None] when [idx] does not address a table below the top. *)
Definition lua_setfield (L : lua_State) (idx : Z) (name : string)
  : option lua_State :=
  match L with
  | v :: rest =>
      if idx <=? -2 then
        let i := Z.to_nat (- idx - 2) in
        match rest !! i with
        | Some (LTable t) => Some (<[i := LTable (table_set t (c_str name) v)]> rest)
        | _ => None
        end
      else None
  | [] => None
  end.

(** ** Decoding: [create_lua_stack_from_property_list] *)

(** The [mosquitto_property_read_*] calls of the decoder read the node they
    are given (its identifier is the one asked for).  A node whose value
    member does not fit its identifier is not one libmosquitto builds, and
    reading it is [None].  The calls that copy a string may fail to allocate
    the copy; the decoder tests the pointer after the call, and
    [decode_switch] below takes whether the copy was allocated. *)
Definition mosquitto_property_read_byte (p : mosquitto_property) : option Z :=
  match value p with V_i8 v => Some v | _ => None end.

Definition mosquitto_property_read_int16 (p : mosquitto_property) : option Z :=
  match value p with V_i16 v => Some v | _ => None end.

Definition mosquitto_property_read_int32 (p : mosquitto_property) : option Z :=
  match value p with V_i32 v => Some v | _ => None end.

Definition mosquitto_property_read_varint (p : mosquitto_property) : option Z :=
  match value p with V_varint v => Some v | _ => None end.

Definition mosquitto_property_read_string (p : mosquitto_property)
  : option string :=
  match value p with V_s s => Some s | _ => None end.

Definition mosquitto_property_read_binary (p : mosquitto_property)
  : option (string * Z) :=
  match value p with
  | V_bin b => Some (b, Z.of_nat (String.length b))
  | _ => None
  end.

Definition mosquitto_property_read_string_pair (p : mosquitto_property)
  : option (string * string) :=
  match value p with V_pair n v => Some (n, v) | _ => None end.

(** The [case] groups of the decoder's [switch]. *)
Definition byte_identifiers : list Z :=
  [MQTT_PROP_PAYLOAD_FORMAT_INDICATOR; MQTT_PROP_REQUEST_PROBLEM_INFORMATION;
   MQTT_PROP_REQUEST_RESPONSE_INFORMATION; MQTT_PROP_MAXIMUM_QOS;
   MQTT_PROP_RETAIN_AVAILABLE; MQTT_PROP_WILDCARD_SUB_AVAILABLE;
   MQTT_PROP_SUBSCRIPTION_ID_AVAILABLE; MQTT_PROP_SHARED_SUB_AVAILABLE].

Definition int16_identifiers : list Z :=
  [MQTT_PROP_SERVER_KEEP_ALIVE; MQTT_PROP_RECEIVE_MAXIMUM;
   MQTT_PROP_TOPIC_ALIAS_MAXIMUM; MQTT_PROP_TOPIC_ALIAS].

Definition int32_identifiers : list Z :=
  [MQTT_PROP_MESSAGE_EXPIRY_INTERVAL; MQTT_PROP_SESSION_EXPIRY_INTERVAL;
   MQTT_PROP_WILL_DELAY_INTERVAL; MQTT_PROP_MAXIMUM_PACKET_SIZE].

Definition varint_identifiers : list Z := [MQTT_PROP_SUBSCRIPTION_IDENTIFIER].

Definition string_identifiers : list Z :=
  [MQTT_PROP_CONTENT_TYPE; MQTT_PROP_RESPONSE_TOPIC;
   MQTT_PROP_ASSIGNED_CLIENT_IDENTIFIER; MQTT_PROP_AUTHENTICATION_METHOD;
   MQTT_PROP_RESPONSE_INFORMATION; MQTT_PROP_SERVER_REFERENCE;
   MQTT_PROP_REASON_STRING].

Definition binary_identifiers : list Z :=
  [MQTT_PROP_AUTHENTICATION_DATA; MQTT_PROP_CORRELATION_DATA].

Definition member (x : Z) (l : list Z) : bool := existsb (Z.eqb x) l.

(** How the [switch] on one node is left: at a [break] (or at its end),
    with the stack, the new value of [user_prop_table_created] and
    [pushed]; or by [return MOSQ_ERR_NOMEM], with the stack as it is then. *)
Inductive switch_result :=
  | Break (L : lua_State) (created : Z) (pushed : bool)
  | ReturnNomem (L : lua_State).

(** The [switch] on one node; [allocated] tells whether the copy of the
    node's string, blob or pair has been allocated. *)
Definition decode_switch (allocated : bool) (L : lua_State) (created : Z)
    (prop : mosquitto_property) : option switch_result :=
  let identifier := identifier prop in
  if member identifier byte_identifiers then
    i8value ← mosquitto_property_read_byte prop;
    Some (Break (lua_pushinteger L i8value) created true)
  else if member identifier int16_identifiers then
    i16value ← mosquitto_property_read_int16 prop;
    Some (Break (lua_pushinteger L i16value) created true)
  else if member identifier int32_identifiers then
    i32value ← mosquitto_property_read_int32 prop;
    Some (Break (lua_pushinteger L i32value) created true)
  else if member identifier varint_identifiers then
    i32value ← mosquitto_property_read_varint prop;
    Some (Break (lua_pushinteger L i32value) created true)
  else if member identifier string_identifiers then
    strvalue ← mosquitto_property_read_string prop;
    if negb allocated then Some (ReturnNomem L)
    else Some (Break (lua_pushstring L strvalue) created true)
  else if member identifier binary_identifiers then
    '(binvalue, i16value) ← mosquitto_property_read_binary prop;
    if negb allocated then Some (ReturnNomem L)
    else Some (Break (lua_pushlstring L binvalue i16value) created true)
  else if identifier =? MQTT_PROP_USER_PROPERTY then
    let L1 := if created =? 0 then lua_newtable L else L in
    '(strname, strvalue) ← mosquitto_property_read_string_pair prop;
    if negb allocated then Some (ReturnNomem L1)
    else
      L2 ← lua_setfield (lua_pushstring L1 strvalue) (-2) strname;
      Some (Break L2 1 false)
  else Some (Break L created false).

(** How the [for] loop is left: at its end, or by the [return] of a
    [switch]. *)
Inductive loop_result :=
  | Finished (L : lua_State) (created : Z)
  | ReturnedNomem (L : lua_State).

Section Decode.
Context (N : native).

(** The [for] loop over the list. *)
Fixpoint decode_loop (properties : proplist) (L : lua_State) (created : Z)
  : option loop_result :=
  match properties with
  | [] => Some (Finished L created)
  | prop :: rest =>
      r ← decode_switch (read_copy_allocated N (length rest)) L created prop;
      match r with
      | ReturnNomem L1 => Some (ReturnedNomem L1)
      | Break L1 created1 pushed =>
          L2 ← (if pushed : bool then
                  name ← mosquitto_property_identifier_to_string N
                           (identifier prop);
                  lua_setfield L1 (-2 - created1) name
                else Some L1);
          decode_loop rest L2 created1
      end
  end.

(** [create_lua_stack_from_property_list] (lua-mosquitto.c:1635): the
    result code and the stack it leaves; [None] when a step has no defined
    behaviour ([lua_setfield] with a [NULL] name or off a table, a node
    that cannot be read).  On [MOSQ_ERR_NOMEM] the tables built so far stay
    on the stack. *)
Definition create_lua_stack_from_property_list (L : lua_State)
    (properties : proplist) : option (Z * lua_State) :=
  r ← decode_loop properties (lua_newtable L) 0;
  match r with
  | ReturnedNomem L1 => Some (MOSQ_ERR_NOMEM, L1)
  | Finished L1 created =>
      L2 ← (if created =? 1 then
              name ← mosquitto_property_identifier_to_string N
                       MQTT_PROP_USER_PROPERTY;
              lua_setfield L1 (-2) name
            else Some L1);
      Some (MOSQ_ERR_SUCCESS, L2)
  end.

End Decode.

(** ** The v5 bindings that take a property table *)

(** What one call of a binding did with its property list. *)
Record binding_run := {
  handed_to_native : option proplist;
    (* the list the native operation was called with, if it was called *)
  left_allocated : proplist;
    (* the nodes still allocated when the binding is left *)
  returned : option lua_return
    (* what Lua receives; None when the run has no defined behaviour *)
}.

Section Bindings.
Context (N : native) (C : libc).

(** [lua_table_on_stack]: the argument is present and is a table. *)
Definition lua_table_on_stack (arg : option lua_value) : bool :=
  match arg with
  | Some v => lua_istable v
  | None => false
  end.

(** The part the six bindings share: [proplist = NULL], the guarded call
    of the encoder, the early [return mosq__pstatus(L, rc)], the native
    operation, [mosquitto_property_free_all], and [finish] for the code
    the operation returned.  The error [luaL_checktype] raises inside the
    encoder passes through the binding; its text is abridged. *)
Definition v5_binding (rc_indeterminate : Z) (arg : option lua_value)
    (command : Z) (operation : proplist -> Z) (finish : Z -> lua_return)
  : binding_run :=
  let call (pl : proplist) :=
    {| handed_to_native := Some pl;
       left_allocated := mosquitto_property_free_all pl;
       returned := Some (finish (operation pl)) |} in
  match arg with
  | Some (LTable t) =>
      match create_property_list_from_lua_stack N rc_indeterminate t [] command with
      | Returned rc pl =>
          if negb (rc =? MOSQ_ERR_SUCCESS) then
            {| handed_to_native := None;
               left_allocated := pl;
               returned := Some (mosq__pstatus C rc) |}
          else call pl
      | Raised pl =>
          {| handed_to_native := None;
             left_allocated := pl;
             returned := Some (Error "string expected") |}
      | _ =>
          {| handed_to_native := None; left_allocated := []; returned := None |}
      end
  | _ => call []
  end.

(** The bindings that return the status, and those that return the
    message id on success. *)
Definition status_result (rc : Z) : lua_return := mosq__pstatus C rc.

Definition mid_result (mid : Z) (rc : Z) : lua_return :=
  if negb (rc =? MOSQ_ERR_SUCCESS) then mosq__pstatus C rc
  else Return [LNumber (inject_Z mid)].

Definition ctx_will_set_v5 (rc0 : Z) (properties : option lua_value)
    (mosquitto_will_set_v5 : proplist -> Z) : binding_run :=
  v5_binding rc0 properties CMD_WILL mosquitto_will_set_v5 status_result.

Definition ctx_connect_bind_v5 (rc0 : Z) (properties : option lua_value)
    (mosquitto_connect_bind_v5 : proplist -> Z) : binding_run :=
  v5_binding rc0 properties CMD_CONNECT mosquitto_connect_bind_v5 status_result.

Definition ctx_disconnect_v5 (rc0 : Z) (properties : option lua_value)
    (mosquitto_disconnect_v5 : proplist -> Z) : binding_run :=
  v5_binding rc0 properties CMD_DISCONNECT mosquitto_disconnect_v5 status_result.

Definition ctx_publish_v5 (rc0 : Z) (properties : option lua_value)
    (mosquitto_publish_v5 : proplist -> Z) (mid : Z) : binding_run :=
  v5_binding rc0 properties CMD_PUBLISH mosquitto_publish_v5 (mid_result mid).

Definition ctx_subscribe_v5 (rc0 : Z) (properties : option lua_value)
    (mosquitto_subscribe_v5 : proplist -> Z) (mid : Z) : binding_run :=
  v5_binding rc0 properties CMD_SUBSCRIBE mosquitto_subscribe_v5 (mid_result mid).

Definition ctx_unsubscribe_v5 (rc0 : Z) (properties : option lua_value)
    (mosquitto_unsubscribe_v5 : proplist -> Z) (mid : Z) : binding_run :=
  v5_binding rc0 properties CMD_UNSUBSCRIBE mosquitto_unsubscribe_v5
    (mid_result mid).

End Bindings.

(** ** libmosquitto's property registry *)

(** What this model leaves to the library and to Lua: UTF-8 validation,
    the message tables, Lua's number formatting and the [__call]
    metamethods of the values in the Lua state. *)
Record library_text := {
  mosquitto_validate_utf8 : string -> Z;
  connack_string : Z -> string;
  reason_string : Z -> string;
  number2str : Q -> string;
  call_metamethod : lua_value -> option (nat * list lua_value)
}.

(** Modelled from the spec: the Property Type Registry, "a static table
    mapping a property's symbolic name/identifier to its wire type ... and
    to which commands may legally carry it".  The table is libmosquitto's
    (property_mosq.c), which is not part of this repository; names,
    identifiers and wire types are those of MQTT v5. *)
Definition property_registry : list (string * (Z * Z)) :=
  [("payload-format-indicator", (MQTT_PROP_PAYLOAD_FORMAT_INDICATOR, MQTT_PROP_TYPE_BYTE));
   ("message-expiry-interval", (MQTT_PROP_MESSAGE_EXPIRY_INTERVAL, MQTT_PROP_TYPE_INT32));
   ("content-type", (MQTT_PROP_CONTENT_TYPE, MQTT_PROP_TYPE_STRING));
   ("response-topic", (MQTT_PROP_RESPONSE_TOPIC, MQTT_PROP_TYPE_STRING));
   ("correlation-data", (MQTT_PROP_CORRELATION_DATA, MQTT_PROP_TYPE_BINARY));
   ("subscription-identifier", (MQTT_PROP_SUBSCRIPTION_IDENTIFIER, MQTT_PROP_TYPE_VARINT));
   ("session-expiry-interval", (MQTT_PROP_SESSION_EXPIRY_INTERVAL, MQTT_PROP_TYPE_INT32));
   ("assigned-client-identifier", (MQTT_PROP_ASSIGNED_CLIENT_IDENTIFIER, MQTT_PROP_TYPE_STRING));
   ("server-keep-alive", (MQTT_PROP_SERVER_KEEP_ALIVE, MQTT_PROP_TYPE_INT16));
   ("authentication-method", (MQTT_PROP_AUTHENTICATION_METHOD, MQTT_PROP_TYPE_STRING));
   ("authentication-data", (MQTT_PROP_AUTHENTICATION_DATA, MQTT_PROP_TYPE_BINARY));
   ("request-problem-information", (MQTT_PROP_REQUEST_PROBLEM_INFORMATION, MQTT_PROP_TYPE_BYTE));
   ("will-delay-interval", (MQTT_PROP_WILL_DELAY_INTERVAL, MQTT_PROP_TYPE_INT32));
   ("request-response-information", (MQTT_PROP_REQUEST_RESPONSE_INFORMATION, MQTT_PROP_TYPE_BYTE));
   ("response-information", (MQTT_PROP_RESPONSE_INFORMATION, MQTT_PROP_TYPE_STRING));
   ("server-reference", (MQTT_PROP_SERVER_REFERENCE, MQTT_PROP_TYPE_STRING));
   ("reason-string", (MQTT_PROP_REASON_STRING, MQTT_PROP_TYPE_STRING));
   ("receive-maximum", (MQTT_PROP_RECEIVE_MAXIMUM, MQTT_PROP_TYPE_INT16));
   ("topic-alias-maximum", (MQTT_PROP_TOPIC_ALIAS_MAXIMUM, MQTT_PROP_TYPE_INT16));
   ("topic-alias", (MQTT_PROP_TOPIC_ALIAS, MQTT_PROP_TYPE_INT16));
   ("maximum-qos", (MQTT_PROP_MAXIMUM_QOS, MQTT_PROP_TYPE_BYTE));
   ("retain-available", (MQTT_PROP_RETAIN_AVAILABLE, MQTT_PROP_TYPE_BYTE));
   ("user-property", (MQTT_PROP_USER_PROPERTY, MQTT_PROP_TYPE_STRING_PAIR));
   ("maximum-packet-size", (MQTT_PROP_MAXIMUM_PACKET_SIZE, MQTT_PROP_TYPE_INT32));
   ("wildcard-subscription-available", (MQTT_PROP_WILDCARD_SUB_AVAILABLE, MQTT_PROP_TYPE_BYTE));
   ("subscription-identifier-available", (MQTT_PROP_SUBSCRIPTION_ID_AVAILABLE, MQTT_PROP_TYPE_BYTE));
   ("shared-subscription-available", (MQTT_PROP_SHARED_SUB_AVAILABLE, MQTT_PROP_TYPE_BYTE))].

(** [strcasecmp] on 7-bit letters. *)
Definition lower (c : Ascii.ascii) : Ascii.ascii :=
  let n := Ascii.nat_of_ascii c in
  if (65 <=? n)%nat && (n <=? 90)%nat then Ascii.ascii_of_nat (n + 32) else c.

Fixpoint lowercase (s : string) : string :=
  match s with
  | EmptyString => EmptyString
  | String c s' => String (lower c) (lowercase s')
  end.

Fixpoint registry_by_name (name : string) (table : list (string * (Z * Z)))
  : option (Z * Z) :=
  match table with
  | [] => None
  | (n, info) :: table' =>
      if String.eqb (lowercase name) n then Some info
      else registry_by_name name table'
  end.

Fixpoint registry_by_identifier (id : Z) (table : list (string * (Z * Z)))
  : option string :=
  match table with
  | [] => None
  | (n, (i, _)) :: table' =>
      if id =? i then Some n else registry_by_identifier id table'
  end.

(** Modelled from the spec: the per-command legality rules of the Registry
    ([mosquitto_property_check_command], absent from src/), by identifier. *)
Definition mosquitto_property_check_command (command identifier : Z) : Z :=
  let among (cmds : list Z) :=
    if member command cmds then MOSQ_ERR_SUCCESS else MOSQ_ERR_PROTOCOL in
  if member identifier
       [MQTT_PROP_PAYLOAD_FORMAT_INDICATOR; MQTT_PROP_MESSAGE_EXPIRY_INTERVAL;
        MQTT_PROP_CONTENT_TYPE; MQTT_PROP_RESPONSE_TOPIC;
        MQTT_PROP_CORRELATION_DATA]
  then among [CMD_PUBLISH; CMD_WILL]
  else if identifier =? MQTT_PROP_SUBSCRIPTION_IDENTIFIER
  then among [CMD_PUBLISH; CMD_SUBSCRIBE]
  else if identifier =? MQTT_PROP_SESSION_EXPIRY_INTERVAL
  then among [CMD_CONNECT; CMD_CONNACK; CMD_DISCONNECT]
  else if member identifier
            [MQTT_PROP_AUTHENTICATION_METHOD; MQTT_PROP_AUTHENTICATION_DATA]
  then among [CMD_CONNECT; CMD_CONNACK; CMD_AUTH]
  else if member identifier
            [MQTT_PROP_ASSIGNED_CLIENT_IDENTIFIER; MQTT_PROP_SERVER_KEEP_ALIVE;
             MQTT_PROP_RESPONSE_INFORMATION; MQTT_PROP_MAXIMUM_QOS;
             MQTT_PROP_RETAIN_AVAILABLE; MQTT_PROP_WILDCARD_SUB_AVAILABLE;
             MQTT_PROP_SUBSCRIPTION_ID_AVAILABLE; MQTT_PROP_SHARED_SUB_AVAILABLE]
  then among [CMD_CONNACK]
  else if identifier =? MQTT_PROP_WILL_DELAY_INTERVAL
  then among [CMD_WILL]
  else if member identifier
            [MQTT_PROP_REQUEST_PROBLEM_INFORMATION;
             MQTT_PROP_REQUEST_RESPONSE_INFORMATION]
  then among [CMD_CONNECT]
  else if identifier =? MQTT_PROP_SERVER_REFERENCE
  then among [CMD_CONNACK; CMD_DISCONNECT]
  else if identifier =? MQTT_PROP_REASON_STRING
  then if member command [CMD_CONNECT; CMD_PUBLISH; CMD_SUBSCRIBE; CMD_UNSUBSCRIBE]
       then MOSQ_ERR_PROTOCOL else MOSQ_ERR_SUCCESS
  else if member identifier
            [MQTT_PROP_RECEIVE_MAXIMUM; MQTT_PROP_TOPIC_ALIAS_MAXIMUM;
             MQTT_PROP_MAXIMUM_PACKET_SIZE]
  then among [CMD_CONNECT; CMD_CONNACK]
  else if identifier =? MQTT_PROP_TOPIC_ALIAS
  then among [CMD_PUBLISH]
  else if identifier =? MQTT_PROP_USER_PROPERTY
  then MOSQ_ERR_SUCCESS
  else MOSQ_ERR_PROTOCOL.

(** The value checks of [mosquitto_property_check_all] on one node. *)
Definition property_value_ok (p : mosquitto_property) : bool :=
  match value p with
  | V_i8 v => negb (member (identifier p) byte_identifiers && (v >? 1))
  | V_i32 v =>
      negb ((identifier p =? MQTT_PROP_MAXIMUM_PACKET_SIZE) && (v =? 0))
  | V_i16 v =>
      negb (member (identifier p) [MQTT_PROP_RECEIVE_MAXIMUM; MQTT_PROP_TOPIC_ALIAS]
            && (v =? 0))
  | _ => true
  end.

(** Modelled from the spec: "validate the completed list against the target
    command kind using the Registry's per-command legality rules"
    ([mosquitto_property_check_all], absent from src/): per node the value
    check, the command check and the duplicate check. *)
Fixpoint check_all (command : Z) (properties : proplist) : Z :=
  match properties with
  | [] => MOSQ_ERR_SUCCESS
  | p :: tail =>
      if negb (property_value_ok p) then MOSQ_ERR_PROTOCOL
      else if negb (mosquitto_property_check_command command (identifier p)
                    =? MOSQ_ERR_SUCCESS)
      then mosquitto_property_check_command command (identifier p)
      else if negb (identifier p =? MQTT_PROP_USER_PROPERTY)
              && member (identifier p) (map identifier tail)
      then MOSQ_ERR_DUPLICATE_PROPERTY
      else check_all command tail
  end.

Section Libmosquitto.
Context (T : library_text).

(** An [add] function: reject an identifier outside [ids], otherwise
    append the node to the end of the list. *)
Definition property_add (ids : list Z) (pl : proplist) (id : Z)
    (v : property_value) : Z * proplist :=
  if member id ids then
    (MOSQ_ERR_SUCCESS, pl ++ [{| identifier := id; value := v |}])
  else (MOSQ_ERR_INVAL, pl).

Definition utf8_ok (s : option string) : bool :=
  match s with
  | Some s => mosquitto_validate_utf8 T (c_str s) =? MOSQ_ERR_SUCCESS
  | None => true
  end.

Definition c_str_or_empty (s : option string) : string :=
  match s with
  | Some s => c_str s
  | None => EmptyString
  end.

(** Modelled from the spec: the native layer of the Property Codec
    (libmosquitto's property API, absent from src/), which resolves names
    through the Registry, appends typed properties and validates a list
    against a command.  In this model every copy a read makes is
    allocated. *)
Definition libmosquitto : native :=
  {| mosquitto_string_to_property_info := fun propname =>
       match propname with
       | None => (MOSQ_ERR_INVAL, (0, 0))
       | Some s =>
           match registry_by_name (c_str s) property_registry with
           | Some info => (MOSQ_ERR_SUCCESS, info)
           | None => (MOSQ_ERR_INVAL, (0, 0))
           end
       end;
     mosquitto_property_add_byte := fun pl id v =>
       property_add byte_identifiers pl id (V_i8 v);
     mosquitto_property_add_int16 := fun pl id v =>
       property_add int16_identifiers pl id (V_i16 v);
     mosquitto_property_add_int32 := fun pl id v =>
       property_add int32_identifiers pl id (V_i32 v);
     mosquitto_property_add_varint := fun pl id v =>
       if v >? 268435455 then (MOSQ_ERR_INVAL, pl)
       else property_add varint_identifiers pl id (V_varint v);
     mosquitto_property_add_binary := fun pl id v len =>
       property_add binary_identifiers pl id
         (V_bin (take_bytes (Z.to_nat len) v));
     mosquitto_property_add_string := fun pl id v =>
       if negb (utf8_ok (Some v)) then (MOSQ_ERR_MALFORMED_UTF8, pl)
       else property_add string_identifiers pl id (V_s (c_str v));
     mosquitto_property_add_string_pair := fun pl id name v =>
       if negb (id =? MQTT_PROP_USER_PROPERTY) then (MOSQ_ERR_INVAL, pl)
       else if negb (utf8_ok name && utf8_ok v)
       then (MOSQ_ERR_MALFORMED_UTF8, pl)
       else property_add [MQTT_PROP_USER_PROPERTY] pl id
              (V_pair (c_str_or_empty name) (c_str_or_empty v));
     mosquitto_property_check_all := check_all;
     mosquitto_property_identifier_to_string := fun id =>
       registry_by_identifier id property_registry;
     mosquitto_connack_string := connack_string T;
     mosquitto_reason_string := reason_string T;
     read_copy_allocated := fun _ => true;
     lua_number2str := number2str T;
     lua_call_metamethod := call_metamethod T |}.

End Libmosquitto.

(** A library text for evaluating on 7-bit printable strings: on those
    [mosquitto_validate_utf8] succeeds; it rejects control bytes.  No value
    has a [__call] metamethod. *)
Definition printable (c : Ascii.ascii) : bool :=
  let n := Ascii.nat_of_ascii c in (32 <=? n)%nat && (n <=? 126)%nat.

Fixpoint all_printable (s : string) : bool :=
  match s with
  | EmptyString => true
  | String c s' => printable c && all_printable s'
  end.

Definition text_sample : library_text :=
  {| mosquitto_validate_utf8 := fun s =>
       if all_printable s then MOSQ_ERR_SUCCESS else MOSQ_ERR_MALFORMED_UTF8;
     connack_string := fun _ => "connack";
     reason_string := fun _ => "reason";
     number2str := fun _ => "0";
     call_metamethod := fun _ => None |}.

(** ** The Lua registry *)

Definition LUA_REFNIL : Z := -1.
Definition LUA_NOREF : Z := -2.

(** The references [luaL_ref] has handed out on [LUA_REGISTRYINDEX] and not
    yet released, with the values they anchor. *)
Abbreviation lua_registry := (gmap Z lua_value).

(** The reference [luaL_ref] picks: a positive integer not in use. *)
Definition fresh_ref (reg : lua_registry) : Z :=
  1 + map_fold (fun k _ acc => Z.max k acc) 0 reg.

(** [luaL_ref(L, LUA_REGISTRYINDEX)] on the value popped from the top:
    [nil] gets the fixed reference [LUA_REFNIL] and no entry. *)
Definition luaL_ref (reg : lua_registry) (v : lua_value) : Z * lua_registry :=
  match v with
  | LNil => (LUA_REFNIL, reg)
  | _ => (fresh_ref reg, <[fresh_ref reg := v]> reg)
  end.

(** [luaL_unref]: releases a non-negative reference, ignores
    [LUA_REFNIL] and [LUA_NOREF]. *)
Definition luaL_unref (reg : lua_registry) (ref : Z) : lua_registry :=
  if 0 <=? ref then delete ref reg else reg.

(** [lua_rawgeti(L, LUA_REGISTRYINDEX, ref)]: the anchored value, [nil]
    when there is none. *)
Definition lua_rawgeti (reg : lua_registry) (ref : Z) : lua_value :=
  default LNil (reg !! ref).

(** ** Callback registry *)

Inductive callback_types :=
  | CALLBACK_ON_CONNECT
  | CALLBACK_ON_CONNECT_V5
  | CALLBACK_ON_DISCONNECT
  | CALLBACK_ON_DISCONNECT_V5
  | CALLBACK_ON_PUBLISH
  | CALLBACK_ON_PUBLISH_V5
  | CALLBACK_ON_MESSAGE
  | CALLBACK_ON_MESSAGE_V5
  | CALLBACK_ON_SUBSCRIBE
  | CALLBACK_ON_SUBSCRIBE_V5
  | CALLBACK_ON_UNSUBSCRIBE
  | CALLBACK_ON_UNSUBSCRIBE_V5
  | CALLBACK_ON_LOG.

Definition callback_value (k : callback_types) : Z :=
  match k with
  | CALLBACK_ON_CONNECT => 0
  | CALLBACK_ON_CONNECT_V5 => 1
  | CALLBACK_ON_DISCONNECT => 2
  | CALLBACK_ON_DISCONNECT_V5 => 3
  | CALLBACK_ON_PUBLISH => 4
  | CALLBACK_ON_PUBLISH_V5 => 5
  | CALLBACK_ON_MESSAGE => 6
  | CALLBACK_ON_MESSAGE_V5 => 7
  | CALLBACK_ON_SUBSCRIBE => 8
  | CALLBACK_ON_SUBSCRIBE_V5 => 9
  | CALLBACK_ON_UNSUBSCRIBE => 10
  | CALLBACK_ON_UNSUBSCRIBE_V5 => 11
  | CALLBACK_ON_LOG => 12
  end.

Definition callback_of_value (v : Z) : option callback_types :=
  if v =? 0 then Some CALLBACK_ON_CONNECT
  else if v =? 1 then Some CALLBACK_ON_CONNECT_V5
  else if v =? 2 then Some CALLBACK_ON_DISCONNECT
  else if v =? 3 then Some CALLBACK_ON_DISCONNECT_V5
  else if v =? 4 then Some CALLBACK_ON_PUBLISH
  else if v =? 5 then Some CALLBACK_ON_PUBLISH_V5
  else if v =? 6 then Some CALLBACK_ON_MESSAGE
  else if v =? 7 then Some CALLBACK_ON_MESSAGE_V5
  else if v =? 8 then Some CALLBACK_ON_SUBSCRIBE
  else if v =? 9 then Some CALLBACK_ON_SUBSCRIBE_V5
  else if v =? 10 then Some CALLBACK_ON_UNSUBSCRIBE
  else if v =? 11 then Some CALLBACK_ON_UNSUBSCRIBE_V5
  else if v =? 12 then Some CALLBACK_ON_LOG
  else None.

#[global] Instance callback_types_eq_dec : EqDecision callback_types.
Proof. solve_decision. Defined.

(** The handler slots of [ctx_t]; [L] and [mosq] are the registry and the
    callback table of [bridge] below. *)
Record ctx_t := {
  on_connect : Z;
  on_connect_v5 : Z;
  on_disconnect : Z;
  on_disconnect_v5 : Z;
  on_publish : Z;
  on_publish_v5 : Z;
  on_message : Z;
  on_message_v5 : Z;
  on_subscribe : Z;
  on_subscribe_v5 : Z;
  on_unsubscribe : Z;
  on_unsubscribe_v5 : Z;
  on_log : Z
}.

Definition ctx__on_init (ctx : ctx_t) : ctx_t :=
  {| on_connect := LUA_REFNIL;
     on_connect_v5 := LUA_REFNIL;
     on_disconnect := LUA_REFNIL;
     on_disconnect_v5 := LUA_REFNIL;
     on_publish := LUA_REFNIL;
     on_publish_v5 := LUA_REFNIL;
     on_message := LUA_REFNIL;
     on_message_v5 := LUA_REFNIL;
     on_subscribe := LUA_REFNIL;
     on_subscribe_v5 := LUA_REFNIL;
     on_unsubscribe := LUA_REFNIL;
     on_unsubscribe_v5 := LUA_REFNIL;
     on_log := LUA_REFNIL |}.

Definition slot (ctx : ctx_t) (k : callback_types) : Z :=
  match k with
  | CALLBACK_ON_CONNECT => on_connect ctx
  | CALLBACK_ON_CONNECT_V5 => on_connect_v5 ctx
  | CALLBACK_ON_DISCONNECT => on_disconnect ctx
  | CALLBACK_ON_DISCONNECT_V5 => on_disconnect_v5 ctx
  | CALLBACK_ON_PUBLISH => on_publish ctx
  | CALLBACK_ON_PUBLISH_V5 => on_publish_v5 ctx
  | CALLBACK_ON_MESSAGE => on_message ctx
  | CALLBACK_ON_MESSAGE_V5 => on_message_v5 ctx
  | CALLBACK_ON_SUBSCRIBE => on_subscribe ctx
  | CALLBACK_ON_SUBSCRIBE_V5 => on_subscribe_v5 ctx
  | CALLBACK_ON_UNSUBSCRIBE => on_unsubscribe ctx
  | CALLBACK_ON_UNSUBSCRIBE_V5 => on_unsubscribe_v5 ctx
  | CALLBACK_ON_LOG => on_log ctx
  end.

(** The assignment [ctx->on_... = ref] of the [case] for kind [k]: that
    field takes [ref], the others keep their values. *)
Definition set_slot (ctx : ctx_t) (k : callback_types) (ref : Z) : ctx_t :=
  let field k' := if decide (k' = k) then ref else slot ctx k' in
  {| on_connect := field CALLBACK_ON_CONNECT;
     on_connect_v5 := field CALLBACK_ON_CONNECT_V5;
     on_disconnect := field CALLBACK_ON_DISCONNECT;
     on_disconnect_v5 := field CALLBACK_ON_DISCONNECT_V5;
     on_publish := field CALLBACK_ON_PUBLISH;
     on_publish_v5 := field CALLBACK_ON_PUBLISH_V5;
     on_message := field CALLBACK_ON_MESSAGE;
     on_message_v5 := field CALLBACK_ON_MESSAGE_V5;
     on_subscribe := field CALLBACK_ON_SUBSCRIBE;
     on_subscribe_v5 := field CALLBACK_ON_SUBSCRIBE_V5;
     on_unsubscribe := field CALLBACK_ON_UNSUBSCRIBE;
     on_unsubscribe_v5 := field CALLBACK_ON_UNSUBSCRIBE_V5;
     on_log := field CALLBACK_ON_LOG |}.

(** [ctx__on_clear]: every slot is passed to [luaL_unref]; the slots keep
    their values. *)
Definition ctx__on_clear (reg : lua_registry) (ctx : ctx_t) : lua_registry :=
  let reg := luaL_unref reg (on_connect ctx) in
  let reg := luaL_unref reg (on_connect_v5 ctx) in
  let reg := luaL_unref reg (on_disconnect ctx) in
  let reg := luaL_unref reg (on_disconnect_v5 ctx) in
  let reg := luaL_unref reg (on_publish ctx) in
  let reg := luaL_unref reg (on_publish_v5 ctx) in
  let reg := luaL_unref reg (on_message ctx) in
  let reg := luaL_unref reg (on_message_v5 ctx) in
  let reg := luaL_unref reg (on_subscribe ctx) in
  let reg := luaL_unref reg (on_subscribe_v5 ctx) in
  let reg := luaL_unref reg (on_unsubscribe ctx) in
  let reg := luaL_unref reg (on_unsubscribe_v5 ctx) in
  let reg := luaL_unref reg (on_log ctx) in
  reg.

(** One client: the registry of its Lua state, its [ctx_t], and which
    callback pointers of its [struct mosquitto] have been set (each one
    can only be set to the trampoline of its kind). *)
Record bridge := {
  registry : lua_registry;
  ctx : ctx_t;
  mosq_callbacks : callback_types -> bool
}.

(** The block [lua_newuserdata] returns; [ctx__on_init] overwrites every
    slot of it. *)
Definition new_userdata : ctx_t :=
  {| on_connect := 0; on_connect_v5 := 0; on_disconnect := 0;
     on_disconnect_v5 := 0; on_publish := 0; on_publish_v5 := 0;
     on_message := 0; on_message_v5 := 0; on_subscribe := 0;
     on_subscribe_v5 := 0; on_unsubscribe := 0; on_unsubscribe_v5 := 0;
     on_log := 0 |}.

(** [mosq_new]: a fresh [struct mosquitto] has no callback set, and
    [ctx__on_init] empties the slots of the new userdata. *)
Definition mosq_new (reg : lua_registry) : bridge :=
  {| registry := reg;
     ctx := ctx__on_init new_userdata;
     mosq_callbacks := fun _ => false |}.

(** The table [D] of module constants; the values after the callback ids
    are those of mosquitto.h and mqtt_protocol.h. *)
Definition D : list (string * Z) :=
  [("ON_CONNECT", 0);
   ("ON_CONNECT_V5", 1);
   ("ON_DISCONNECT", 2);
   ("ON_DISCONNECT_V5", 3);
   ("ON_PUBLISH", 4);
   ("ON_PUBLISH_V5", 5);
   ("ON_MESSAGE", 6);
   ("ON_MESSAGE_V5", 7);
   ("ON_SUBSCRIBE", 8);
   ("ON_SUBSCRIBE_V5", 9);
   ("ON_UNSUBSCRIBE", 10);
   ("ON_UNSUBSCRIBE_V5", 11);
   ("ON_LOG", 12);
   ("LOG_NONE", 0); ("LOG_INFO", 1); ("LOG_NOTICE", 2); ("LOG_WARNING", 4);
   ("LOG_ERROR", 8); ("LOG_DEBUG", 16); ("LOG_ALL", -1);
   ("OPT_PROTOCOL_VERSION", 1); ("OPT_SSL_CTX", 2);
   ("OPT_SSL_CTX_WITH_DEFAULTS", 3); ("OPT_RECEIVE_MAXIMUM", 4);
   ("OPT_SEND_MAXIMUM", 5); ("OPT_TLS_KEYFORM", 6); ("OPT_TLS_ENGINE", 7);
   ("OPT_TLS_ENGINE_KPASS_SHA1", 8); ("OPT_TLS_OCSP_REQUIRED", 9);
   ("OPT_TLS_ALPN", 10);
   ("MQTT_PROTOCOL_V31", 3); ("MQTT_PROTOCOL_V311", 4); ("MQTT_PROTOCOL_V5", 5);
   ("MQTT_SUB_OPT_NO_LOCAL", 4); ("MQTT_SUB_OPT_RETAIN_AS_PUBLISHED", 8);
   ("MQTT_SUB_OPT_SEND_RETAIN_ALWAYS", 0); ("MQTT_SUB_OPT_SEND_RETAIN_NEW", 16);
   ("MQTT_SUB_OPT_SEND_RETAIN_NEVER", 32)].

Fixpoint lookup_define (typestr : string) (def : list (string * Z)) : Z :=
  match def with
  | [] => -1
  | (name, v) :: def' =>
      if String.eqb name typestr then v else lookup_define typestr def'
  end.

(** [callback_type_from_string] (lua-mosquitto.c:1864). *)
Definition callback_type_from_string (typestr : string) : Z :=
  if negb (String.prefix "ON_" (c_str typestr)) then -1
  else lookup_define (c_str typestr) D.

Section Callbacks.
Context (N : native) (C : libc).

(** The selector at stack index 2: [lua_isstring] also holds for a
    number, which [lua_tostring] converts; [luaL_checkinteger] is only
    reached with a value that is neither, and raises. *)
Definition callback_selector (arg2 : option lua_value) : option Z :=
  match arg2 with
  | Some v =>
      if lua_isstring v then
        match lua_tolstring N v with
        | Some typestr => Some (callback_type_from_string typestr)
        | None => None
        end
      else None
  | None => None
  end.

(** [ctx_callback_set] (lua-mosquitto.c:1424) on the stack
    [ctx; args...]: [args] are indices 2, 3, ... *)
Definition ctx_callback_set (b : bridge) (args : list lua_value)
  : bridge * lua_return :=
  match callback_selector (args !! 0%nat) with
  | None => (b, Error "number expected")
  | Some callback_type =>
      if negb (from_option lua_isfunction false (args !! 1%nat)) then
        (b, Error "expecting a callback function")
      else
        (* luaL_ref pops the value on top of the stack *)
        let '(ref, reg) := luaL_ref (registry b) (List.last args LNil) in
        match callback_of_value callback_type with
        | Some k =>
            ({| registry := reg;
                ctx := set_slot (ctx b) k ref;
                mosq_callbacks := fun k' =>
                  if decide (k' = k) then true else mosq_callbacks b k' |},
             mosq__pstatus C MOSQ_ERR_SUCCESS)
        | None =>
            ({| registry := luaL_unref reg ref;
                ctx := ctx b;
                mosq_callbacks := mosq_callbacks b |},
             Error "not a proper callback type")
        end
  end.

End Callbacks.

(** ** Callback dispatch *)

(** [struct mosquitto_message], the fields the bridge reads. *)
Record mosquitto_message := {
  mid : Z;
  topic : string;
  payload : string;
  payloadlen : Z;
  qos : Z;
  retain : bool
}.

(** What a trampoline does with the Lua state: it calls a handler with
    positional arguments, or its [lua_call] raises, or a step has no
    defined behaviour. *)
Inductive dispatch_result :=
  | Called (handler : nat) (args : list lua_value)
  | CallError (msg : string)
  | NoDefinedBehaviour.

Definition luaL_typename (v : lua_value) : string :=
  match v with
  | LNil => "nil"
  | LBoolean _ => "boolean"
  | LNumber _ => "number"
  | LString _ => "string"
  | LTable _ => "table"
  | LFunction _ => "function"
  | LUserdata _ => "userdata"
  end.

(** [lua_call(L, nargs, 0)]: the callee lies below the [nargs] arguments.
    A callee that is not a function is called through its [__call]
    metamethod, which receives the value itself before the arguments;
    without one the call raises.  [metamethod] gives the function that is
    called in the end and the values put before the arguments. *)
Definition lua_call (metamethod : lua_value -> option (nat * list lua_value))
    (L : lua_State) (nargs : Z) : dispatch_result :=
  let n := Z.to_nat nargs in
  match L !! n with
  | Some (LFunction f) => Called f (rev (take n L))
  | Some v =>
      match metamethod v with
      | Some (f, before) => Called f (before ++ rev (take n L))
      | None => CallError ("attempt to call a " ++ luaL_typename v ++ " value")
      end
  | None => NoDefinedBehaviour
  end.

Fixpoint push_integers (L : lua_State) (vs : list Z) : lua_State :=
  match vs with
  | [] => L
  | v :: vs' => push_integers (lua_pushinteger L v) vs'
  end.

Section Dispatch.
Context (N : native).

(** The value the trampoline fetches with [lua_rawgeti] before it pushes
    the arguments. *)
Definition fetch (b : bridge) (ref : Z) : lua_State :=
  [lua_rawgeti (registry b) ref].

(** The decoder's result code is ignored by every trampoline. *)
Definition push_properties (L : lua_State) (props : proplist)
    (k : lua_State -> dispatch_result) : dispatch_result :=
  match create_lua_stack_from_property_list N L props with
  | Some (_, L') => k L'
  | None => NoDefinedBehaviour
  end.

Definition ctx_on_connect (b : bridge) (rc : Z) : dispatch_result :=
  let success := rc =? 0 in
  let str := mosquitto_connack_string N rc in
  let L := fetch b (on_connect (ctx b)) in
  let L := lua_pushboolean L success in
  let L := lua_pushinteger L rc in
  let L := lua_pushstring L str in
  lua_call (lua_call_metamethod N) L 3.

Definition ctx_on_connect_v5 (b : bridge) (reason_code flags : Z)
    (props : proplist) : dispatch_result :=
  let success := reason_code =? 0 in
  let str := mosquitto_reason_string N reason_code in
  let L := fetch b (on_connect_v5 (ctx b)) in
  let L := lua_pushboolean L success in
  let L := lua_pushinteger L reason_code in
  let L := lua_pushstring L str in
  let L := lua_pushinteger L flags in
  push_properties L props (fun L => lua_call (lua_call_metamethod N) L 5).

Definition disconnect_text (rc : Z) : bool * string :=
  if negb (rc =? 0) then (false, "unexpected disconnect")
  else (true, "client-initiated disconnect").

Definition ctx_on_disconnect (b : bridge) (rc : Z) : dispatch_result :=
  let '(success, str) := disconnect_text rc in
  let L := fetch b (on_disconnect (ctx b)) in
  let L := lua_pushboolean L success in
  let L := lua_pushinteger L rc in
  let L := lua_pushstring L str in
  lua_call (lua_call_metamethod N) L 3.

Definition ctx_on_disconnect_v5 (b : bridge) (rc : Z) (props : proplist)
  : dispatch_result :=
  let '(success, str) := disconnect_text rc in
  let L := fetch b (on_disconnect_v5 (ctx b)) in
  let L := lua_pushboolean L success in
  let L := lua_pushinteger L rc in
  let L := lua_pushstring L str in
  push_properties L props (fun L => lua_call (lua_call_metamethod N) L 4).

Definition ctx_on_publish (b : bridge) (mid : Z) : dispatch_result :=
  let L := fetch b (on_publish (ctx b)) in
  let L := lua_pushinteger L mid in
  lua_call (lua_call_metamethod N) L 1.

Definition ctx_on_publish_v5 (b : bridge) (mid reason_code : Z)
    (props : proplist) : dispatch_result :=
  let str := mosquitto_reason_string N reason_code in
  let L := fetch b (on_publish_v5 (ctx b)) in
  let L := lua_pushinteger L mid in
  let L := lua_pushinteger L reason_code in
  let L := lua_pushstring L str in
  push_properties L props (fun L => lua_call (lua_call_metamethod N) L 4).

Definition push_message (L : lua_State) (msg : mosquitto_message) : lua_State :=
  let L := lua_pushinteger L (mid msg) in
  let L := lua_pushstring L (topic msg) in
  let L := lua_pushlstring L (payload msg) (payloadlen msg) in
  let L := lua_pushinteger L (qos msg) in
  lua_pushboolean L (retain msg).

Definition ctx_on_message (b : bridge) (msg : mosquitto_message)
  : dispatch_result :=
  let L := fetch b (on_message (ctx b)) in
  let L := push_message L msg in
  lua_call (lua_call_metamethod N) L 5.

Definition ctx_on_message_v5 (b : bridge) (msg : mosquitto_message)
    (props : proplist) : dispatch_result :=
  let L := fetch b (on_message_v5 (ctx b)) in
  let L := push_message L msg in
  push_properties L props (fun L => lua_call (lua_call_metamethod N) L 6).

Definition ctx_on_subscribe (b : bridge) (mid : Z) (granted_qos : list Z)
  : dispatch_result :=
  let qos_count := Z.of_nat (length granted_qos) in
  let L := fetch b (on_subscribe (ctx b)) in
  let L := lua_pushinteger L mid in
  let L := push_integers L granted_qos in
  lua_call (lua_call_metamethod N) L (qos_count + 1).

Definition ctx_on_subscribe_v5 (b : bridge) (mid : Z) (granted_qos : list Z)
    (props : proplist) : dispatch_result :=
  let qos_count := Z.of_nat (length granted_qos) in
  let L := fetch b (on_subscribe_v5 (ctx b)) in
  let L := lua_pushinteger L mid in
  push_properties L props (fun L =>
    let L := push_integers L granted_qos in
    lua_call (lua_call_metamethod N) L (qos_count + 2)).

Definition ctx_on_unsubscribe (b : bridge) (mid : Z) : dispatch_result :=
  let L := fetch b (on_unsubscribe (ctx b)) in
  let L := lua_pushinteger L mid in
  lua_call (lua_call_metamethod N) L 1.

Definition ctx_on_unsubscribe_v5 (b : bridge) (mid : Z) (props : proplist)
  : dispatch_result :=
  let L := fetch b (on_unsubscribe_v5 (ctx b)) in
  let L := lua_pushinteger L mid in
  push_properties L props (fun L => lua_call (lua_call_metamethod N) L 2).

Definition ctx_on_log (b : bridge) (level : Z) (str : string)
  : dispatch_result :=
  let L := fetch b (on_log (ctx b)) in
  let L := lua_pushinteger L level in
  let L := lua_pushstring L str in
  lua_call (lua_call_metamethod N) L 2.

(** The events libmosquitto reports, with the arguments it passes. *)
Inductive event :=
  | Connect (rc : Z)
  | ConnectV5 (reason_code flags : Z) (props : proplist)
  | Disconnect (rc : Z)
  | DisconnectV5 (rc : Z) (props : proplist)
  | Publish (mid : Z)
  | PublishV5 (mid reason_code : Z) (props : proplist)
  | Message (msg : mosquitto_message)
  | MessageV5 (msg : mosquitto_message) (props : proplist)
  | Subscribe (mid : Z) (granted_qos : list Z)
  | SubscribeV5 (mid : Z) (granted_qos : list Z) (props : proplist)
  | Unsubscribe (mid : Z)
  | UnsubscribeV5 (mid : Z) (props : proplist)
  | Log (level : Z) (str : string).

Definition event_kind (e : event) : callback_types :=
  match e with
  | Connect _ => CALLBACK_ON_CONNECT
  | ConnectV5 _ _ _ => CALLBACK_ON_CONNECT_V5
  | Disconnect _ => CALLBACK_ON_DISCONNECT
  | DisconnectV5 _ _ => CALLBACK_ON_DISCONNECT_V5
  | Publish _ => CALLBACK_ON_PUBLISH
  | PublishV5 _ _ _ => CALLBACK_ON_PUBLISH_V5
  | Message _ => CALLBACK_ON_MESSAGE
  | MessageV5 _ _ => CALLBACK_ON_MESSAGE_V5
  | Subscribe _ _ => CALLBACK_ON_SUBSCRIBE
  | SubscribeV5 _ _ _ => CALLBACK_ON_SUBSCRIBE_V5
  | Unsubscribe _ => CALLBACK_ON_UNSUBSCRIBE
  | UnsubscribeV5 _ _ => CALLBACK_ON_UNSUBSCRIBE_V5
  | Log _ _ => CALLBACK_ON_LOG
  end.

(** The trampoline of an event's kind, on the event's arguments. *)
Definition dispatch (b : bridge) (e : event) : dispatch_result :=
  match e with
  | Connect rc => ctx_on_connect b rc
  | ConnectV5 reason_code flags props =>
      ctx_on_connect_v5 b reason_code flags props
  | Disconnect rc => ctx_on_disconnect b rc
  | DisconnectV5 rc props => ctx_on_disconnect_v5 b rc props
  | Publish mid => ctx_on_publish b mid
  | PublishV5 mid reason_code props => ctx_on_publish_v5 b mid reason_code props
  | Message msg => ctx_on_message b msg
  | MessageV5 msg props => ctx_on_message_v5 b msg props
  | Subscribe mid granted_qos => ctx_on_subscribe b mid granted_qos
  | SubscribeV5 mid granted_qos props =>
      ctx_on_subscribe_v5 b mid granted_qos props
  | Unsubscribe mid => ctx_on_unsubscribe b mid
  | UnsubscribeV5 mid props => ctx_on_unsubscribe_v5 b mid props
  | Log level str => ctx_on_log b level str
  end.

(** Modelled from the spec: the native library's side of the Callback
    Dispatcher (libmosquitto, absent from src/), which "later invokes a
    C-level trampoline on its own call stack": it calls the callback of
    an event's kind when that pointer has been set, and has nothing to
    call otherwise. *)
Definition mosquitto_deliver (b : bridge) (e : event) : option dispatch_result :=
  if mosq_callbacks b (event_kind e) then Some (dispatch b e) else None.

End Dispatch.

(** A run of [callback_set] calls on one client, errors included. *)
Fixpoint callback_sets (N : native) (C : libc) (b : bridge)
    (calls : list (list lua_value)) : bridge :=
  match calls with
  | [] => b
  | args :: calls' => callback_sets N C (fst (ctx_callback_set N C b args)) calls'
  end.

(** The name under which [D] exports a callback id. *)
Definition callback_name (k : callback_types) : string :=
  match k with
  | CALLBACK_ON_CONNECT => "ON_CONNECT"
  | CALLBACK_ON_CONNECT_V5 => "ON_CONNECT_V5"
  | CALLBACK_ON_DISCONNECT => "ON_DISCONNECT"
  | CALLBACK_ON_DISCONNECT_V5 => "ON_DISCONNECT_V5"
  | CALLBACK_ON_PUBLISH => "ON_PUBLISH"
  | CALLBACK_ON_PUBLISH_V5 => "ON_PUBLISH_V5"
  | CALLBACK_ON_MESSAGE => "ON_MESSAGE"
  | CALLBACK_ON_MESSAGE_V5 => "ON_MESSAGE_V5"
  | CALLBACK_ON_SUBSCRIBE => "ON_SUBSCRIBE"
  | CALLBACK_ON_SUBSCRIBE_V5 => "ON_SUBSCRIBE_V5"
  | CALLBACK_ON_UNSUBSCRIBE => "ON_UNSUBSCRIBE"
  | CALLBACK_ON_UNSUBSCRIBE_V5 => "ON_UNSUBSCRIBE_V5"
  | CALLBACK_ON_LOG => "ON_LOG"
  end.

(** ** Notions used in the statements *)

(** The loop body leaves every entry of [t], taken in traversal order from
    the list [pl], with [rc = MOSQ_ERR_SUCCESS] and its key intact, and the
    list grows to [pl'].  This is what the encoder itself takes for an
    entry that passed: it also holds of an entry whose value is an empty
    table (nothing is added), and of a table of pairs as soon as the last
    pair was accepted. *)
Inductive all_entries_pass (N : native)
  : list (lua_value * lua_value) -> proplist -> proplist -> Prop :=
  | pass_nil pl : all_entries_pass N [] pl pl
  | pass_cons k v t pl pl1 pl2 :
      add_entry N pl k v = Fallthrough MOSQ_ERR_SUCCESS pl1 ->
      key_survives k = true ->
      all_entries_pass N t pl1 pl2 ->
      all_entries_pass N ((k, v) :: t) pl pl2.


(** The bytes [97 0 98]: a blob with an embedded NUL. *)
Definition blob_a_nul_b : string :=
  String (Ascii.ascii_of_nat 97)
    (String NUL (String (Ascii.ascii_of_nat 98) EmptyString)).

(** A node whose value member is the one its identifier selects. *)
Definition fits (p : mosquitto_property) : bool :=
  let id := identifier p in
  if member id byte_identifiers then
    match value p with V_i8 _ => true | _ => false end
  else if member id int16_identifiers then
    match value p with V_i16 _ => true | _ => false end
  else if member id int32_identifiers then
    match value p with V_i32 _ => true | _ => false end
  else if member id varint_identifiers then
    match value p with V_varint _ => true | _ => false end
  else if member id string_identifiers then
    match value p with V_s _ => true | _ => false end
  else if member id binary_identifiers then
    match value p with V_bin _ => true | _ => false end
  else if id =? MQTT_PROP_USER_PROPERTY then
    match value p with V_pair _ _ => true | _ => false end
  else true.

(** The value the decoder's [switch] pushes for a node, when it pushes
    one ([pushed = 1]). *)
Definition pushed_value (p : mosquitto_property) : option lua_value :=
  match decode_switch true [] 0 p with
  | Some (Break (v :: _) _ true) => Some v
  | _ => None
  end.

(** The field a single-valued node sets in the outer table. *)
Definition direct_step (N : native) (outer : list (lua_value * lua_value))
    (p : mosquitto_property) : list (lua_value * lua_value) :=
  match pushed_value p, mosquitto_property_identifier_to_string N (identifier p) with
  | Some v, Some name => table_set outer (c_str name) v
  | _, _ => outer
  end.

(** The outer table after the scan, before the nested table is attached. *)
Definition direct_fields (N : native) (l : proplist)
  : list (lua_value * lua_value) :=
  fold_left (direct_step N) l [].

(** The user-property pairs of a list in wire order, as the strings Lua
    receives. *)
Fixpoint user_pairs (l : proplist) : list (string * string) :=
  match l with
  | [] => []
  | p :: l' =>
      if identifier p =? MQTT_PROP_USER_PROPERTY then
        match value p with
        | V_pair n v => (c_str n, c_str v) :: user_pairs l'
        | _ => user_pairs l'
        end
      else user_pairs l'
  end.

Definition pair_step (t : list (lua_value * lua_value)) (kv : string * string)
  : list (lua_value * lua_value) :=
  table_set t (fst kv) (LString (snd kv)).

(** The nested table: the pairs inserted one after the other. *)
Definition nested_table (pairs : list (string * string))
  : list (lua_value * lua_value) :=
  fold_left pair_step pairs [].

(** The value of the last pair with key [k]. *)
Fixpoint last_value (k : string) (pairs : list (string * string))
  : option string :=
  match pairs with
  | [] => None
  | (k', v) :: rest =>
      match last_value k rest with
      | Some v' => Some v'
      | None => if String.eqb k' k then Some v else None
      end
  end.

(** The field attached after the scan: none without a user property. *)
Definition user_field (l : proplist) : list (lua_value * lua_value) :=
  match user_pairs l with
  | [] => []
  | pairs => [(LString "user-property", LTable (nested_table pairs))]
  end.

(** The decoder's stack during the scan: the outer table, with the nested
    table on top of it once it has been created. *)
Definition scan_stack (outer : list (lua_value * lua_value))
    (user : option (list (lua_value * lua_value))) (L : lua_State) : lua_State :=
  match user with
  | None => LTable outer :: L
  | Some u => LTable u :: LTable outer :: L
  end.

Definition created_flag (user : option (list (lua_value * lua_value))) : Z :=
  match user with None => 0 | Some _ => 1 end.

(** The nested table after the scan has passed one more node. *)
Definition user_step (user : option (list (lua_value * lua_value)))
    (p : mosquitto_property) : option (list (lua_value * lua_value)) :=
  if identifier p =? MQTT_PROP_USER_PROPERTY then
    match value p with
    | V_pair n v => Some (table_set (default [] user) (c_str n) (LString (c_str v)))
    | _ => user
    end
  else user.

(** The identifiers of the decoder's six single-valued [case] groups. *)
Definition single_valued_identifiers : list Z :=
  byte_identifiers ++ int16_identifiers ++ int32_identifiers
  ++ varint_identifiers ++ string_identifiers ++ binary_identifiers.

(** The kind a [callback_set] call selects, if any. *)
Definition selected_kind (N : native) (args : list lua_value)
  : option callback_types :=
  callback_selector N (args !! 0%nat) ≫= callback_of_value.

(** ** The remaining bindings *)

(** [luaL_checkstring] on a stack index ([None] for an index above the
    top): a string, or a number converted to one; the result is [None] when
    the check raises. *)
Definition luaL_checkstring (arg : option lua_value) (number2str : Q -> string)
  : option string :=
  match arg with
  | Some (LString s) => Some s
  | Some (LNumber n) => Some (number2str n)
  | _ => None
  end.

(** [luaL_optstring(L, i, NULL)]: the default for an absent or [nil]
    argument, otherwise [luaL_checkstring].  The outer [option] is [None]
    when the check raises. *)
Definition luaL_optstring (arg : option lua_value) (number2str : Q -> string)
  : option (option string) :=
  match arg with
  | None | Some LNil => Some None
  | _ =>
      match luaL_checkstring arg number2str with
      | Some s => Some (Some s)
      | None => None
      end
  end.

Definition lua_toboolean (arg : option lua_value) : bool :=
  match arg with
  | None | Some LNil | Some (LBoolean false) => false
  | _ => true
  end.

Definition lua_isboolean (arg : option lua_value) : bool :=
  match arg with
  | Some (LBoolean _) => true
  | _ => false
  end.

(** [ctx_check]: [luaL_checkudata(L, 1, MOSQ_META_CTX)].  [is_ctx] tells
    which userdata carry the metatable "mosquitto.ctx". *)
Definition ctx_check (is_ctx : nat -> bool) (arg : option lua_value) : bool :=
  match arg with
  | Some (LUserdata u) => is_ctx u
  | _ => false
  end.

(** [ctx_reinitialise] (lua-mosquitto.c:335) on the whole stack, index 1
    first.  [mosquitto_reinitialise] is the code the native call returns when
    it is reached.  Both [ctx_check] and [luaL_optstring] read index 1. *)
Definition ctx_reinitialise (N : native) (C : libc) (is_ctx : nat -> bool)
    (b : bridge) (stack : list lua_value) (mosquitto_reinitialise : Z)
  : bridge * lua_return :=
  if negb (ctx_check is_ctx (stack !! 0%nat)) then
    (b, Error "mosquitto.ctx expected")
  else
    match luaL_optstring (stack !! 0%nat) (lua_number2str N) with
    | None => (b, Error "string expected")
    | Some id =>
        let clean_session :=
          if lua_isboolean (stack !! 1%nat) then lua_toboolean (stack !! 1%nat)
          else true in
        if match id with None => negb clean_session | Some _ => false end then
          (b, Error "if 'id' is nil then 'clean session' must be true")
        else
          ({| registry := ctx__on_clear (registry b) (ctx b);
              ctx := ctx__on_init (ctx b);
              mosq_callbacks := fun _ => false |},
           mosq__pstatus C mosquitto_reinitialise)
    end.

(** [ctx_destroy] (lua-mosquitto.c:307), with the context already checked:
    the slots' references are released; the slots themselves keep their
    values, and the userdata loses its methods. *)
Definition ctx_destroy (C : libc) (b : bridge) : bridge * lua_return :=
  ({| registry := ctx__on_clear (registry b) (ctx b);
      ctx := ctx b;
      mosq_callbacks := fun _ => false |},
   mosq__pstatus C MOSQ_ERR_SUCCESS).

(** The module's static flag [mosq_initialized], with a count of the calls
    made to [mosquitto_lib_init] and [mosquitto_lib_cleanup]. *)
Record module_state := {
  mosq_initialized : Z;
  lib_init_calls : nat;
  lib_cleanup_calls : nat
}.

(** [luaopen_mosquitto], as far as the flag goes. *)
Definition luaopen_mosquitto (m : module_state) : module_state :=
  {| mosq_initialized := 1;
     lib_init_calls := S (lib_init_calls m);
     lib_cleanup_calls := lib_cleanup_calls m |}.

(** [mosq_init] (lua-mosquitto.c:188): the flag is tested, never set. *)
Definition mosq_init (C : libc) (m : module_state) : module_state * lua_return :=
  (if mosq_initialized m =? 0 then
     {| mosq_initialized := mosq_initialized m;
        lib_init_calls := S (lib_init_calls m);
        lib_cleanup_calls := lib_cleanup_calls m |}
   else m,
   mosq__pstatus C MOSQ_ERR_SUCCESS).

(** [mosq_cleanup] (lua-mosquitto.c:208). *)
Definition mosq_cleanup (C : libc) (m : module_state)
  : module_state * lua_return :=
  ({| mosq_initialized := 0;
      lib_init_calls := lib_init_calls m;
      lib_cleanup_calls := S (lib_cleanup_calls m) |},
   mosq__pstatus C MOSQ_ERR_SUCCESS).

(** The calls a script can make on the module. *)
Inductive module_call := CallInit | CallCleanup.

Definition is_init (c : module_call) : bool :=
  match c with CallInit => true | CallCleanup => false end.

Definition module_step (C : libc) (m : module_state) (c : module_call)
  : module_state :=
  match c with
  | CallInit => fst (mosq_init C m)
  | CallCleanup => fst (mosq_cleanup C m)
  end.

(** What [parse_basic_parameter_for_publish] stores through its pointers;
    [payload] is [None] for [NULL]. *)
Record publish_parameters := {
  p_topic : string;
  p_payload : option string;
  p_payloadlen : Z;
  p_qos : Z;
  p_retain : bool
}.

(** [parse_basic_parameter_for_publish] (lua-mosquitto.c:1887) on the
    arguments at indices 2 to 5; [None] when a check raises.
    [checkinteger] is [luaL_checkinteger] on a value that is present and not
    [nil], converted to [int]. *)
Definition parse_basic_parameter_for_publish (N : native)
    (checkinteger : lua_value -> option Z) (args : list lua_value)
  : option publish_parameters :=
  topic ← luaL_checkstring (args !! 0%nat) (lua_number2str N);
  let '(payload, payloadlen) :=
    match args !! 1%nat with
    | Some LNil => (None, 0)
    | Some v =>
        match lua_tolstring N v with
        | Some s => (Some s, Z.of_nat (String.length s))
        | None => (None, 0)
        end
    | None => (None, 0)
    end in
  qos ← match args !! 2%nat with
        | None | Some LNil => Some 0
        | Some v => checkinteger v
        end;
  Some {| p_topic := topic; p_payload := payload; p_payloadlen := payloadlen;
          p_qos := qos; p_retain := lua_toboolean (args !! 3%nat) |}.

(** ** The arguments of the handlers *)

Definition lua_integer (n : Z) : lua_value := LNumber (inject_Z n).

(** The property list an event carries, for the v5 kinds. *)
Definition event_properties (e : event) : option proplist :=
  match e with
  | ConnectV5 _ _ props | DisconnectV5 _ props | PublishV5 _ _ props
  | MessageV5 _ props | SubscribeV5 _ _ props | UnsubscribeV5 _ props =>
      Some props
  | _ => None
  end.

(** The values a trampoline pushes above the callee, in the order it
    pushes them; [tables] are the values the decoder leaves for a v5 event,
    the one pushed first coming first. *)
Definition event_arguments (N : native) (e : event) (tables : list lua_value)
  : list lua_value :=
  match e with
  | Connect rc =>
      [LBoolean (rc =? 0); lua_integer rc;
       LString (c_str (mosquitto_connack_string N rc))]
  | ConnectV5 reason_code flags _ =>
      [LBoolean (reason_code =? 0); lua_integer reason_code;
       LString (c_str (mosquitto_reason_string N reason_code));
       lua_integer flags] ++ tables
  | Disconnect rc =>
      [LBoolean (rc =? 0); lua_integer rc;
       LString (if rc =? 0 then "client-initiated disconnect"
                else "unexpected disconnect")]
  | DisconnectV5 rc _ =>
      [LBoolean (rc =? 0); lua_integer rc;
       LString (if rc =? 0 then "client-initiated disconnect"
                else "unexpected disconnect")] ++ tables
  | Publish mid => [lua_integer mid]
  | PublishV5 mid reason_code _ =>
      [lua_integer mid; lua_integer reason_code;
       LString (c_str (mosquitto_reason_string N reason_code))] ++ tables
  | Message msg =>
      [lua_integer (mid msg); LString (c_str (topic msg));
       LString (take_bytes (Z.to_nat (payloadlen msg)) (payload msg));
       lua_integer (qos msg); LBoolean (retain msg)]
  | MessageV5 msg _ =>
      [lua_integer (mid msg); LString (c_str (topic msg));
       LString (take_bytes (Z.to_nat (payloadlen msg)) (payload msg));
       lua_integer (qos msg); LBoolean (retain msg)] ++ tables
  | Subscribe mid granted_qos => lua_integer mid :: map lua_integer granted_qos
  | SubscribeV5 mid granted_qos _ =>
      lua_integer mid :: tables ++ map lua_integer granted_qos
  | Unsubscribe mid => [lua_integer mid]
  | UnsubscribeV5 mid _ => lua_integer mid :: tables
  | Log level str => [lua_integer level; LString (c_str str)]
  end.

(** The argument count each trampoline gives to [lua_call]. *)
Definition arity (e : event) : nat :=
  match e with
  | Connect _ => 3
  | ConnectV5 _ _ _ => 5
  | Disconnect _ => 3
  | DisconnectV5 _ _ => 4
  | Publish _ => 1
  | PublishV5 _ _ _ => 4
  | Message _ => 5
  | MessageV5 _ _ => 6
  | Subscribe _ granted_qos => 1 + length granted_qos
  | SubscribeV5 _ granted_qos _ => 2 + length granted_qos
  | Unsubscribe _ => 1
  | UnsubscribeV5 _ _ => 2
  | Log _ _ => 2
  end.

(** [lua_call] on a callee and its arguments. *)
Definition call (metamethod : lua_value -> option (nat * list lua_value))
    (callee : lua_value) (args : list lua_value) : dispatch_result :=
  match callee with
  | LFunction f => Called f args
  | v =>
      match metamethod v with
      | Some (f, before) => Called f (before ++ args)
      | None => CallError ("attempt to call a " ++ luaL_typename v ++ " value")
      end
  end.

(** What a trampoline does once the decoder has left the values [tables] (top
    first) above the arguments pushed before: with one table the arguments
    are as many as the count says; with a second table the count is one
    short, and the value in the callee position is the first argument. *)
Definition call_with_tables (N : native) (callee : lua_value) (e : event)
    (tables : lua_State) : dispatch_result :=
  match tables with
  | [t] => call (lua_call_metamethod N) callee (event_arguments N e [t])
  | [nested; root] =>
      match event_arguments N e [root; nested] with
      | first :: rest => call (lua_call_metamethod N) first rest
      | [] => NoDefinedBehaviour
      end
  | _ => NoDefinedBehaviour
  end.

(** What the trampoline of an event's kind does with the value [callee]
    its slot fetches. *)
Definition handler_call (N : native) (callee : lua_value) (e : event)
  : dispatch_result :=
  match event_properties e with
  | None => call (lua_call_metamethod N) callee (event_arguments N e [])
  | Some props =>
      match create_lua_stack_from_property_list N [] props with
      | Some (_, tables) => call_with_tables N callee e tables
      | None => NoDefinedBehaviour
      end
  end.

(** The same native layer with other outcomes of the allocations. *)
Definition with_allocation (N : native) (allocated : nat -> bool) : native :=
  {| mosquitto_string_to_property_info := mosquitto_string_to_property_info N;
     mosquitto_property_add_byte := mosquitto_property_add_byte N;
     mosquitto_property_add_int16 := mosquitto_property_add_int16 N;
     mosquitto_property_add_int32 := mosquitto_property_add_int32 N;
     mosquitto_property_add_varint := mosquitto_property_add_varint N;
     mosquitto_property_add_binary := mosquitto_property_add_binary N;
     mosquitto_property_add_string := mosquitto_property_add_string N;
     mosquitto_property_add_string_pair := mosquitto_property_add_string_pair N;
     mosquitto_property_check_all := mosquitto_property_check_all N;
     mosquitto_property_identifier_to_string :=
       mosquitto_property_identifier_to_string N;
     mosquitto_connack_string := mosquitto_connack_string N;
     mosquitto_reason_string := mosquitto_reason_string N;
     read_copy_allocated := allocated;
     lua_number2str := lua_number2str N;
     lua_call_metamethod := lua_call_metamethod N |}.

(** A later [callback_set] call that leaves the handler of kind [k] alone:
    it selects another kind or none, or its third argument is not a
    function, so that it raises. *)
Definition leaves_kind (N : native) (k : callback_types)
    (args : list lua_value) : Prop :=
  selected_kind N args <> Some k
  \/ from_option lua_isfunction false (args !! 1%nat) = false.

(** Every slot that holds a reference holds one [luaL_ref] handed out and
    the registry anchors, has its trampoline installed, and shares its
    reference with no other slot. *)
Definition slots_anchored (b : bridge) : Prop :=
  forall k, slot (ctx b) k <> LUA_REFNIL ->
    0 <= slot (ctx b) k
    /\ is_Some (registry b !! slot (ctx b) k)
    /\ mosq_callbacks b k = true
    /\ forall k', k' <> k -> slot (ctx b) k' <> slot (ctx b) k.

(** ** What a property map comes back as *)

Definition is_scalar (v : lua_value) : bool :=
  match v with
  | LNumber _ | LString _ => true
  | _ => false
  end.

(** The value a number or string comes back as after encoding and decoding:
    the number without its fraction, the string up to its first NUL. *)
Definition decoded_scalar (v : lua_value) : option lua_value :=
  match v with
  | LNumber n => (fun z => LNumber (inject_Z z)) <$> double_to_int n
  | LString s => Some (LString (c_str s))
  | _ => None
  end.

(** The field an entry comes back as: the key in the registry's spelling. *)
Definition decoded_entry (kv : lua_value * lua_value)
  : option (lua_value * lua_value) :=
  match fst kv, decoded_scalar (snd kv) with
  | LString name, Some v => Some (LString (lowercase (c_str name)), v)
  | _, _ => None
  end.

(** ** Validation of an entry *)

(** Value validation for a wire type, on a number or a string: the number,
    once converted to [int], is not negative and fits the type; the string
    is given to a Binary or String property, fits 16 bits of length, and is
    valid UTF-8 for a String. *)
Definition value_valid (T : library_text) (type : Z) (v : lua_value) : bool :=
  match v with
  | LNumber n =>
      match double_to_int n with
      | Some z =>
          (0 <=? z)
          && (if type =? MQTT_PROP_TYPE_BYTE then z <=? UINT8_MAX
              else if type =? MQTT_PROP_TYPE_INT16 then z <=? UINT16_MAX
              else if type =? MQTT_PROP_TYPE_INT32 then true
              else if type =? MQTT_PROP_TYPE_VARINT then z <=? 268435455
              else false)
      | None => false
      end
  | LString s =>
      if type =? MQTT_PROP_TYPE_BINARY then strlen s <=? UINT16_MAX
      else if type =? MQTT_PROP_TYPE_STRING then utf8_ok T (Some s)
      else false
  | _ => false
  end.

(** An entry passes name resolution and value validation. *)
Definition entry_valid (T : library_text) (kv : lua_value * lua_value) : bool :=
  match fst kv with
  | LString name =>
      match registry_by_name (c_str name) property_registry with
      | Some (_, type) => value_valid T type (snd kv)
      | None => false
      end
  | _ => false
  end.

(** The property a valid entry stands for. *)
Definition encoded_value (type : Z) (v : lua_value) : option property_value :=
  match v with
  | LNumber n =>
      z ← double_to_int n;
      if type =? MQTT_PROP_TYPE_BYTE then Some (V_i8 z)
      else if type =? MQTT_PROP_TYPE_INT16 then Some (V_i16 z)
      else if type =? MQTT_PROP_TYPE_INT32 then Some (V_i32 z)
      else if type =? MQTT_PROP_TYPE_VARINT then Some (V_varint z)
      else None
  | LString s =>
      if type =? MQTT_PROP_TYPE_BINARY then Some (V_bin (c_str s))
      else if type =? MQTT_PROP_TYPE_STRING then Some (V_s (c_str s))
      else None
  | _ => None
  end.

Definition encoded_entry (kv : lua_value * lua_value)
  : option mosquitto_property :=
  match fst kv with
  | LString name =>
      match registry_by_name (c_str name) property_registry with
      | Some (id, type) =>
          (fun v => {| identifier := id; value := v |})
            <$> encoded_value type (snd kv)
      | None => None
      end
  | _ => None
  end.

(* ================================================================== *)
(** * Theorems *)

(** ** Status translator *)

Lemma mosq__pstatus_success C :
  is_success_shape (mosq__pstatus C MOSQ_ERR_SUCCESS).
Proof. reflexivity. Qed.

Lemma mosq__pstatus_recoverable C code :
  code ∈ [MOSQ_ERR_NO_CONN; MOSQ_ERR_CONN_LOST; MOSQ_ERR_PAYLOAD_SIZE;
          MOSQ_ERR_ERRNO] ->
  is_recoverable_shape (mosq__pstatus C code).
Proof.
  rewrite !elem_of_cons, elem_of_nil.
  intros [-> | [-> | [-> | [-> | []]]]]; unfold is_recoverable_shape;
    cbn; eauto.
Qed.

Lemma mosq__pstatus_hard C code :
  code ∈ [MOSQ_ERR_INVAL; MOSQ_ERR_NOMEM; MOSQ_ERR_PROTOCOL;
          MOSQ_ERR_NOT_SUPPORTED] ->
  mosq__pstatus C code = Error (mosquitto_strerror C code).
Proof.
  rewrite !elem_of_cons, elem_of_nil.
  intros [-> | [-> | [-> | [-> | []]]]]; reflexivity.
Qed.

(** C1.  A native result code that is none of the nine [case] labels of
    [mosq__pstatus] falls out of the [switch]: the binding returns no value
    at all and raises nothing, which is none of the three shapes of the
    status contract (in particular not the hard failure the contract gives
    to the remaining codes). *)
Theorem mosq__pstatus_unlisted_code C code :
  code ∉ pstatus_labels ->
  mosq__pstatus C code = Return []
  /\ ~ is_success_shape (mosq__pstatus C code)
  /\ ~ is_recoverable_shape (mosq__pstatus C code)
  /\ ~ is_hard_failure (mosq__pstatus C code).
Proof.
  intros Hout.
  assert (Hret : mosq__pstatus C code = Return []).
  { unfold pstatus_labels in Hout.
    rewrite !not_elem_of_cons in Hout.
    destruct Hout as (H0 & H1 & H2 & H3 & H4 & H5 & H6 & H7 & H8 & _).
    unfold mosq__pstatus.
    repeat match goal with
           | H : code <> ?c |- context [code =? ?c] =>
               rewrite (proj2 (Z.eqb_neq code c) H)
           end.
    reflexivity. }
  rewrite Hret. split; [reflexivity|].
  unfold is_success_shape, is_recoverable_shape, is_hard_failure.
  repeat split.
  - discriminate.
  - intros (c & m & H). discriminate.
  - intros (m & H). discriminate.
Qed.

Lemma mosq__pstatus_unlisted_code_witness :
  (MOSQ_ERR_MALFORMED_UTF8 ∉ pstatus_labels)
  /\ mosq__pstatus libc_sample MOSQ_ERR_MALFORMED_UTF8 = Return [].
Proof.
  assert (H : MOSQ_ERR_MALFORMED_UTF8 ∉ pstatus_labels).
  { unfold pstatus_labels. rewrite !not_elem_of_cons.
    repeat split; try discriminate. apply not_elem_of_nil. }
  split; [exact H|].
  exact (proj1 (mosq__pstatus_unlisted_code libc_sample _ H)).
Defined.

(** ** C strings *)

Lemma c_str_no_nul (s rest : string) :
  c_str s = s -> c_str (s ++ String NUL rest) = s.
Proof.
  induction s as [|c s IH]; simpl; [reflexivity|].
  destruct (Ascii.eqb c NUL) eqn:Hc; [discriminate|].
  intros H. injection H as H. rewrite (IH H). reflexivity.
Qed.

Lemma take_bytes_strlen (s : string) :
  take_bytes (Z.to_nat (strlen s)) s = c_str s.
Proof.
  unfold strlen. rewrite Nat2Z.id.
  induction s as [|c s IH]; simpl; [reflexivity|].
  destruct (Ascii.eqb c NUL); simpl; [reflexivity|].
  rewrite IH. reflexivity.
Qed.

Lemma strlen_nonneg (s : string) : 0 <= strlen s.
Proof. unfold strlen. lia. Qed.

Lemma strlen_le_length (s : string) : strlen s <= Z.of_nat (String.length s).
Proof.
  unfold strlen. apply inj_le.
  induction s as [|c s IH]; simpl; [lia|].
  destruct (Ascii.eqb c NUL); simpl; lia.
Qed.

(** ** Encoding *)

Section EncodeFacts.
Context (N : native).


(** The scan never ends in a [return]-free state other than the loop
    exit: a [Returned] result of [scan] is an early [return] of a
    [switch], always [MOSQ_ERR_INVAL]. *)
Lemma add_value_returned pl id type v rc pl' :
  add_value N pl id type v = Returned rc pl' ->
  rc = MOSQ_ERR_INVAL /\ pl' = pl.
Proof.
  unfold add_value. destruct v; try discriminate.
  - destruct (double_to_int n); [|discriminate].
    unfold add_number.
    repeat match goal with
           | |- context [if ?b then _ else _] => destruct b
           | |- context [let '(_, _) := ?e in _] => destruct e
           end; try discriminate.
    intros [= <- <-]. auto.
  - unfold add_string.
    repeat match goal with
           | |- context [if ?b then _ else _] => destruct b
           | |- context [let '(_, _) := ?e in _] => destruct e
           end; try discriminate.
    intros [= <- <-]. auto.
  - intros H. exfalso. revert H.
    generalize MOSQ_ERR_SUCCESS as r. revert pl.
    induction t as [|[k v] t IH]; intros pl r; simpl; [discriminate|].
    destruct k; try discriminate.
    destruct (mosquitto_property_add_string_pair N pl id (Some s)
                (lua_tolstring N v)) as [r1 pl1].
    apply IH.
Qed.

End EncodeFacts.

Section LegalityLast.
Context (N : native).



Lemma scan_success_all_pass t rc0 pl pl' :
  scan N t rc0 pl = Fallthrough MOSQ_ERR_SUCCESS pl' ->
  all_entries_pass N t pl pl'.
Proof.
  revert rc0 pl. induction t as [|[k v] t IH]; intros rc0 pl.
  - simpl. intros [= _ <-]. constructor.
  - simpl. destruct (add_entry N pl k v) as [rc1 pl1| | |] eqn:Hentry;
      try discriminate.
    destruct (rc1 =? MOSQ_ERR_SUCCESS) eqn:Hrc; simpl.
    + apply Z.eqb_eq in Hrc. subst rc1.
      destruct (key_survives k) eqn:Hkey; [|discriminate].
      intros Hscan. apply pass_cons with pl1; auto.
      apply (IH MOSQ_ERR_SUCCESS). exact Hscan.
    + intros [= -> <-]. discriminate.
Qed.

End LegalityLast.

(** ** The bindings and the property list *)

Section BindingFacts.
Context (N : native) (C : libc).

(** No caller hands a list to its native operation after the encoder
    failed: when the encoder returns a code other than success, or raises,
    the binding is left before the operation. *)
Lemma v5_binding_failure_skips_native rc0 t command op finish :
  match create_property_list_from_lua_stack N rc0 t [] command with
  | Returned rc _ => rc <> MOSQ_ERR_SUCCESS
  | Raised _ => True
  | _ => False
  end ->
  handed_to_native
    (v5_binding N C rc0 (Some (LTable t)) command op finish) = None.
Proof.
  unfold v5_binding.
  destruct (create_property_list_from_lua_stack N rc0 t [] command)
    as [rc pl|rc pl|pl|]; try reflexivity.
  intros Hrc. apply Z.eqb_neq in Hrc. rewrite Hrc. reflexivity.
Qed.

(** The same for each of the six bindings. *)
Lemma bindings_skip_native_after_failure rc0 t op mid :
  (forall command,
     match create_property_list_from_lua_stack N rc0 t [] command with
     | Returned rc _ => rc <> MOSQ_ERR_SUCCESS
     | Raised _ => True
     | _ => False
     end) ->
  handed_to_native (ctx_will_set_v5 N C rc0 (Some (LTable t)) op) = None
  /\ handed_to_native (ctx_connect_bind_v5 N C rc0 (Some (LTable t)) op) = None
  /\ handed_to_native (ctx_disconnect_v5 N C rc0 (Some (LTable t)) op) = None
  /\ handed_to_native (ctx_publish_v5 N C rc0 (Some (LTable t)) op mid) = None
  /\ handed_to_native (ctx_subscribe_v5 N C rc0 (Some (LTable t)) op mid) = None
  /\ handed_to_native (ctx_unsubscribe_v5 N C rc0 (Some (LTable t)) op mid) = None.
Proof.
  intros H. repeat split; apply v5_binding_failure_skips_native; apply H.
Qed.

(** The list handed to a native operation is the complete, checked list;
    it is released after the call. *)
Lemma v5_binding_success rc0 t command op finish pl :
  create_property_list_from_lua_stack N rc0 t [] command
    = Returned MOSQ_ERR_SUCCESS pl ->
  v5_binding N C rc0 (Some (LTable t)) command op finish =
    {| handed_to_native := Some pl;
       left_allocated := [];
       returned := Some (finish (op pl)) |}.
Proof. intros H. unfold v5_binding. rewrite H. reflexivity. Qed.

(** C9.  Encoding an empty property map reads [rc] before any
    assignment: the loop body is never entered, so the test after the loop
    sees the indeterminate value.  When that value is not
    [MOSQ_ERR_SUCCESS] the encoder fails with it, and the binding returns
    the translation of that stale code without calling the native
    operation. *)
Theorem empty_map_reads_uninitialised_rc rc0 command op finish :
  rc0 <> MOSQ_ERR_SUCCESS ->
  create_property_list_from_lua_stack N rc0 [] [] command = Returned rc0 []
  /\ v5_binding N C rc0 (Some (LTable [])) command op finish =
       {| handed_to_native := None;
          left_allocated := [];
          returned := Some (mosq__pstatus C rc0) |}.
Proof.
  intros Hrc. apply Z.eqb_neq in Hrc.
  unfold v5_binding, create_property_list_from_lua_stack. simpl.
  rewrite Hrc. simpl. rewrite Hrc. auto.
Qed.

(** Only when the stale value happens to be zero does the empty map
    encode to the empty list. *)
Lemma empty_map_with_zero_rc command :
  create_property_list_from_lua_stack N MOSQ_ERR_SUCCESS [] [] command =
    if mosquitto_property_check_all N command [] =? MOSQ_ERR_SUCCESS
    then Returned MOSQ_ERR_SUCCESS []
    else Returned MOSQ_ERR_INVAL [].
Proof.
  unfold create_property_list_from_lua_stack. simpl.
  destruct (_ =? _); reflexivity.
Qed.

End BindingFacts.

Lemma empty_map_reads_uninitialised_rc_witness :
  MOSQ_ERR_INVAL <> MOSQ_ERR_SUCCESS
  /\ returned (ctx_publish_v5 (libmosquitto text_sample) libc_sample
                 MOSQ_ERR_INVAL (Some (LTable [])) (fun _ => MOSQ_ERR_SUCCESS) 1)
     = Some (Error "mosquitto error").
Proof.
  assert (H : MOSQ_ERR_INVAL <> MOSQ_ERR_SUCCESS) by discriminate.
  split; [exact H|].
  unfold ctx_publish_v5.
  rewrite (proj2 (empty_map_reads_uninitialised_rc (libmosquitto text_sample)
                    libc_sample MOSQ_ERR_INVAL CMD_PUBLISH
                    (fun _ => MOSQ_ERR_SUCCESS)
                    (mid_result libc_sample 1) H)).
  reflexivity.
Defined.

Lemma scan_early_return N t1 : forall rc0 pl0 pl k v t2,
  all_entries_pass N t1 pl0 pl ->
  add_entry N pl k v = Returned MOSQ_ERR_INVAL pl ->
  scan N (t1 ++ (k, v) :: t2) rc0 pl0 = Returned MOSQ_ERR_INVAL pl.
Proof.
  induction t1 as [|[k1 v1] t1 IH]; intros rc0 pl0 pl k v t2 Hpass Hret.
  - inversion Hpass; subst. simpl. rewrite Hret. reflexivity.
  - inversion Hpass as [|? ? ? ? pl1 ? Hentry Hkey Hrest]; subst.
    simpl. rewrite Hentry, Hkey. simpl. apply IH; assumption.
Qed.

(** C2.  The encoder's [return MOSQ_ERR_INVAL] inside the value [switch]
    leaves the function without [mosquitto_property_free_all]: when the
    entries before it have passed and built the list [pl], an entry whose
    value has the wrong shape for its wire type makes the encoder fail with
    [pl] still in [*proplist], and the binding returns the translated error
    with [pl] allocated.  (The native operation is not called.) *)
Theorem encoder_early_return_keeps_properties N C rc0 t1 k v t2 pl command
    op finish :
  all_entries_pass N t1 [] pl ->
  add_entry N pl k v = Returned MOSQ_ERR_INVAL pl ->
  create_property_list_from_lua_stack N rc0 (t1 ++ (k, v) :: t2) [] command
    = Returned MOSQ_ERR_INVAL pl
  /\ v5_binding N C rc0 (Some (LTable (t1 ++ (k, v) :: t2))) command op finish =
     {| handed_to_native := None;
        left_allocated := pl;
        returned := Some (mosq__pstatus C MOSQ_ERR_INVAL) |}.
Proof.
  intros Hpass Hret.
  assert (Henc : create_property_list_from_lua_stack N rc0
                   (t1 ++ (k, v) :: t2) [] command
                 = Returned MOSQ_ERR_INVAL pl).
  { unfold create_property_list_from_lua_stack.
    rewrite (scan_early_return N t1 rc0 [] pl k v t2 Hpass Hret).
    reflexivity. }
  split; [exact Henc|].
  unfold v5_binding. rewrite Henc. reflexivity.
Qed.

(** On the map whose first entry is a valid content-type and whose second
    entry gives a string to the 32-bit message-expiry-interval,
    [ctx_publish_v5] returns with the content-type property allocated. *)
Lemma encoder_early_return_keeps_properties_witness :
  let t := [(LString "content-type", LString "text/json");
            (LString "message-expiry-interval", LString "soon")] in
  let kept := [{| identifier := MQTT_PROP_CONTENT_TYPE;
                  value := V_s "text/json" |}] in
  ctx_publish_v5 (libmosquitto text_sample) libc_sample 0
    (Some (LTable t)) (fun _ => MOSQ_ERR_SUCCESS) 1 =
  {| handed_to_native := None;
     left_allocated := kept;
     returned := Some (Error "mosquitto error") |}.
Proof.
  refine (proj2 (encoder_early_return_keeps_properties
                   (libmosquitto text_sample) libc_sample 0
                   [(LString "content-type", LString "text/json")]
                   (LString "message-expiry-interval") (LString "soon") []
                   [{| identifier := MQTT_PROP_CONTENT_TYPE;
                       value := V_s "text/json" |}]
                   CMD_PUBLISH (fun _ => MOSQ_ERR_SUCCESS)
                   (mid_result libc_sample 1) _ _)).
  - eapply pass_cons; [reflexivity | reflexivity | constructor].
  - reflexivity.
Defined.

(** The same map with the faulty entry first fails through the loop exit,
    which does release the list. *)
Lemma encoder_loop_exit_releases rc0 :
  create_property_list_from_lua_stack (libmosquitto text_sample) rc0
    [(LString "content-type", LString "text/json");
     (LString "bogus-name", LNumber 1)] [] CMD_PUBLISH
  = Returned MOSQ_ERR_INVAL [].
Proof. reflexivity. Qed.

(** ** Numeric values *)

Section NumericFacts.
Context (N : native).

(** What the range checks do on a value that has become an [int]. *)
Lemma add_number_byte pl id v :
  add_number N pl id MQTT_PROP_TYPE_BYTE v =
    if (v <? 0) || (v >? 255) then Fallthrough MOSQ_ERR_INVAL pl
    else let '(rc, pl') := mosquitto_property_add_byte N pl id v in
         Fallthrough rc pl'.
Proof.
  unfold add_number. simpl. unfold UINT8_MAX.
  destruct (v <? 0) eqn:H0; simpl; [reflexivity|].
  destruct (v >? 255) eqn:H1; simpl; [reflexivity|].
  rewrite Z.mod_small; [reflexivity|]. lia.
Qed.

Lemma add_number_int16 pl id v :
  add_number N pl id MQTT_PROP_TYPE_INT16 v =
    if (v <? 0) || (v >? 65535) then Fallthrough MOSQ_ERR_INVAL pl
    else let '(rc, pl') := mosquitto_property_add_int16 N pl id v in
         Fallthrough rc pl'.
Proof.
  unfold add_number. simpl. unfold UINT16_MAX.
  destruct (v <? 0) eqn:H0; simpl; [reflexivity|].
  destruct (v >? 65535) eqn:H1; simpl; [reflexivity|].
  rewrite Z.mod_small; [reflexivity|]. lia.
Qed.

Lemma unsigned_compare_never_exceeds v :
  (int_to_unsigned v >? UINT32_MAX) = false.
Proof.
  unfold int_to_unsigned, UINT32_MAX.
  pose proof (Z.mod_pos_bound v (2 ^ 32) ltac:(lia)). lia.
Qed.

(** For the two 32-bit wire types the upper comparison is between an
    [int] converted to [unsigned] and [UINT32_MAX]: it never holds, so
    only the sign is checked. *)
Lemma add_number_int32 pl id v :
  INT_MIN <= v <= INT_MAX ->
  add_number N pl id MQTT_PROP_TYPE_INT32 v =
    if v <? 0 then Fallthrough MOSQ_ERR_INVAL pl
    else let '(rc, pl') := mosquitto_property_add_int32 N pl id v in
         Fallthrough rc pl'.
Proof.
  unfold INT_MIN, INT_MAX. intros Hv.
  unfold add_number. simpl. rewrite unsigned_compare_never_exceeds.
  destruct (v <? 0) eqn:H0; simpl; [reflexivity|].
  unfold int_to_unsigned. rewrite Z.mod_small; [reflexivity|]. lia.
Qed.

Lemma add_number_varint pl id v :
  INT_MIN <= v <= INT_MAX ->
  add_number N pl id MQTT_PROP_TYPE_VARINT v =
    if v <? 0 then Fallthrough MOSQ_ERR_INVAL pl
    else let '(rc, pl') := mosquitto_property_add_varint N pl id v in
         Fallthrough rc pl'.
Proof.
  unfold INT_MIN, INT_MAX. intros Hv.
  unfold add_number. simpl. rewrite unsigned_compare_never_exceeds.
  destruct (v <? 0) eqn:H0; simpl; [reflexivity|].
  unfold int_to_unsigned. rewrite Z.mod_small; [reflexivity|]. lia.
Qed.

(** A value beyond the 28 bits of a variable-length integer passes the
    codec's own check and reaches [mosquitto_property_add_varint]. *)
Lemma varint_width_left_to_native pl id :
  add_number N pl id MQTT_PROP_TYPE_VARINT 268435456 =
    let '(rc, pl') := mosquitto_property_add_varint N pl id 268435456 in
    Fallthrough rc pl'.
Proof. reflexivity. Qed.

End NumericFacts.

Lemma double_to_int_negative_fraction q :
  (-1 < q)%Q -> (q < 0)%Q -> double_to_int q = Some 0.
Proof.
  unfold Qlt, double_to_int. cbn [Qnum Qden]. intros Hlow Hhigh.
  assert (Hq : Z.quot (Qnum q) (Z.pos (Qden q)) = 0).
  { replace (Qnum q) with (- - Qnum q) by lia.
    rewrite Z.quot_opp_l by lia.
    rewrite Z.quot_small by lia. reflexivity. }
  rewrite Hq. reflexivity.
Qed.

(** C5.  The value is converted to [int] before the range check, and the
    conversion discards the fraction: a negative number greater than -1
    reaches the check as 0, so for every wire type it is handled exactly as
    the value 0 is - for a Byte, Int16, Int32 or VarInt property it passes
    the sign test and 0 is encoded, instead of the value being rejected. *)
Theorem negative_fraction_is_accepted N pl id type q :
  (-1 < q)%Q -> (q < 0)%Q ->
  add_value N pl id type (LNumber q) = add_number N pl id type 0.
Proof.
  intros Hlow Hhigh. unfold add_value.
  rewrite (double_to_int_negative_fraction q Hlow Hhigh). reflexivity.
Qed.

Lemma negative_fraction_is_accepted_witness :
  add_value (libmosquitto text_sample) [] MQTT_PROP_PAYLOAD_FORMAT_INDICATOR
    MQTT_PROP_TYPE_BYTE (LNumber (-1 # 2))
  = Fallthrough MOSQ_ERR_SUCCESS
      [{| identifier := MQTT_PROP_PAYLOAD_FORMAT_INDICATOR; value := V_i8 0 |}].
Proof.
  rewrite (negative_fraction_is_accepted (libmosquitto text_sample) []
             MQTT_PROP_PAYLOAD_FORMAT_INDICATOR MQTT_PROP_TYPE_BYTE (-1 # 2)
             eq_refl eq_refl).
  reflexivity.
Defined.

(** The whole encoder on the map that gives payload-format-indicator the
    value -1/2, for a publish: success, with the byte 0. *)
Lemma negative_fraction_encoded_as_zero rc0 :
  create_property_list_from_lua_stack (libmosquitto text_sample) rc0
    [(LString "payload-format-indicator", LNumber (-1 # 2))] [] CMD_PUBLISH
  = Returned MOSQ_ERR_SUCCESS
      [{| identifier := MQTT_PROP_PAYLOAD_FORMAT_INDICATOR; value := V_i8 0 |}].
Proof. reflexivity. Qed.

(** ** Binary values *)

Lemma registry_binary_identifier name id :
  registry_by_name name property_registry = Some (id, MQTT_PROP_TYPE_BINARY) ->
  member id binary_identifiers = true.
Proof.
  unfold property_registry. simpl.
  repeat match goal with
         | |- context [if String.eqb ?a ?b then _ else _] =>
             destruct (String.eqb a b)
         end;
    intros H; try discriminate H; injection H as <-; reflexivity.
Qed.

Section BinaryFacts.
Context (N : native).

(** The Binary branch measures the value with [strlen]: the length
    passed on is that of the prefix before the first NUL, and the 16-bit
    check is made on it. *)
Lemma add_string_binary pl id v :
  add_string N pl id MQTT_PROP_TYPE_BINARY v =
    if strlen v >? UINT16_MAX then Fallthrough MOSQ_ERR_INVAL pl
    else let '(rc, pl') :=
           mosquitto_property_add_binary N pl id v (strlen v) in
         Fallthrough rc pl'.
Proof.
  unfold add_string. simpl.
  destruct (strlen v >? UINT16_MAX) eqn:Hlen; [reflexivity|].
  rewrite Z.mod_small; [reflexivity|].
  pose proof (strlen_nonneg v). unfold UINT16_MAX in Hlen. lia.
Qed.

End BinaryFacts.

(** C10.  For a Binary property (a name the registry resolves to the binary
    wire type: authentication-data, correlation-data) and a blob with an
    embedded NUL byte, [prefix] being the bytes before the first NUL: the
    property that is stored holds [prefix] only, whatever follows the NUL,
    and the value is rejected exactly when the length of [prefix] exceeds
    65535, whatever the length of the whole blob. *)
Theorem binary_value_cut_at_first_nul T pl name id prefix rest :
  registry_by_name (c_str name) property_registry
    = Some (id, MQTT_PROP_TYPE_BINARY) ->
  c_str prefix = prefix ->
  add_entry (libmosquitto T) pl (LString name)
    (LString (prefix ++ String NUL rest)) =
    if Z.of_nat (String.length prefix) >? UINT16_MAX
    then Fallthrough MOSQ_ERR_INVAL pl
    else Fallthrough MOSQ_ERR_SUCCESS
           (pl ++ [{| identifier := id; value := V_bin prefix |}]).
Proof.
  intros Hname Hprefix.
  unfold add_entry.
  cbn -[registry_by_name property_registry add_value].
  rewrite Hname.
  cbn -[add_string strlen]. rewrite add_string_binary.
  assert (Hlen : strlen (prefix ++ String NUL rest)
                 = Z.of_nat (String.length prefix)).
  { unfold strlen. rewrite (c_str_no_nul _ _ Hprefix). reflexivity. }
  rewrite Hlen.
  destruct (Z.of_nat (String.length prefix) >? UINT16_MAX); [reflexivity|].
  cbn -[take_bytes Z.to_nat]. unfold property_add.
  rewrite (registry_binary_identifier _ _ Hname).
  rewrite <- Hlen, take_bytes_strlen, (c_str_no_nul _ _ Hprefix).
  reflexivity.
Qed.

Lemma binary_value_cut_at_first_nul_witness :
  add_entry (libmosquitto text_sample) [] (LString "correlation-data")
    (LString blob_a_nul_b)
  = Fallthrough MOSQ_ERR_SUCCESS
      [{| identifier := MQTT_PROP_CORRELATION_DATA; value := V_bin "a" |}].
Proof.
  exact (binary_value_cut_at_first_nul text_sample [] "correlation-data"
           MQTT_PROP_CORRELATION_DATA "a" "b" eq_refl eq_refl).
Defined.

Lemma take_bytes_all (s : string) : take_bytes (String.length s) s = s.
Proof. induction s as [|c s IH]; simpl; [|rewrite IH]; reflexivity. Qed.

Lemma append_nul_differs (prefix rest : string) :
  (prefix ++ String NUL rest)%string <> prefix.
Proof.
  induction prefix as [|c prefix IH]; simpl; [discriminate|].
  intros [= H]. exact (IH H).
Qed.

(** C6.  Decoding after encoding is not the identity on a Binary value with
    an embedded NUL.  For a blob made of [prefix] (no NUL, at most 65535
    bytes), a NUL and any [rest]: the one-entry map that gives
    correlation-data the blob encodes, for a publish, to a property holding
    [prefix] only, and decoding that list yields the map with the value
    [prefix], which is not the blob. *)
Theorem binary_roundtrip_loses_bytes T rc0 prefix rest :
  c_str prefix = prefix ->
  Z.of_nat (String.length prefix) <= UINT16_MAX ->
  let blob := (prefix ++ String NUL rest)%string in
  let encoded := [{| identifier := MQTT_PROP_CORRELATION_DATA;
                     value := V_bin prefix |}] in
  create_property_list_from_lua_stack (libmosquitto T) rc0
    [(LString "correlation-data", LString blob)] [] CMD_PUBLISH
    = Returned MOSQ_ERR_SUCCESS encoded
  /\ create_lua_stack_from_property_list (libmosquitto T) [] encoded
     = Some (MOSQ_ERR_SUCCESS,
             [LTable [(LString "correlation-data", LString prefix)]])
  /\ LString prefix <> LString blob.
Proof.
  intros Hprefix Hlen. cbn zeta.
  assert (Hstrlen : strlen (prefix ++ String NUL rest)
                    = Z.of_nat (String.length prefix)).
  { unfold strlen. rewrite (c_str_no_nul _ _ Hprefix). reflexivity. }
  split; [|split].
  - assert (Hinfo : mosquitto_string_to_property_info (libmosquitto T)
                      (Some "correlation-data")
                    = (MOSQ_ERR_SUCCESS,
                       (MQTT_PROP_CORRELATION_DATA, MQTT_PROP_TYPE_BINARY)))
      by reflexivity.
    assert (Hentry : add_entry (libmosquitto T) [] (LString "correlation-data")
                       (LString (prefix ++ String NUL rest))
                     = Fallthrough MOSQ_ERR_SUCCESS
                         [{| identifier := MQTT_PROP_CORRELATION_DATA;
                             value := V_bin prefix |}]).
    { unfold add_entry.
      change (lua_tolstring (libmosquitto T) (LString "correlation-data"))
        with (Some "correlation-data").
      rewrite Hinfo.
      change (add_string (libmosquitto T) [] MQTT_PROP_CORRELATION_DATA
                MQTT_PROP_TYPE_BINARY (prefix ++ String NUL rest)
              = Fallthrough MOSQ_ERR_SUCCESS
                  [{| identifier := MQTT_PROP_CORRELATION_DATA;
                      value := V_bin prefix |}]).
      rewrite add_string_binary, Hstrlen.
      destruct (Z.of_nat (String.length prefix) >? UINT16_MAX) eqn:Hgt; [lia|].
      rewrite <- Hstrlen.
      change (Fallthrough MOSQ_ERR_SUCCESS
                [{| identifier := MQTT_PROP_CORRELATION_DATA;
                    value :=
                      V_bin (take_bytes
                               (Z.to_nat (strlen (prefix ++ String NUL rest)))
                               (prefix ++ String NUL rest)) |}]
              = Fallthrough MOSQ_ERR_SUCCESS
                  [{| identifier := MQTT_PROP_CORRELATION_DATA;
                      value := V_bin prefix |}]).
      rewrite take_bytes_strlen, (c_str_no_nul _ _ Hprefix). reflexivity. }
    unfold create_property_list_from_lua_stack, scan. rewrite Hentry.
    reflexivity.
  - unfold create_lua_stack_from_property_list. cbn -[take_bytes Z.to_nat].
    rewrite Nat2Z.id, take_bytes_all. reflexivity.
  - intros [= H]. symmetry in H. exact (append_nul_differs _ _ H).
Qed.

Lemma binary_roundtrip_loses_bytes_witness :
  create_lua_stack_from_property_list (libmosquitto text_sample) []
    [{| identifier := MQTT_PROP_CORRELATION_DATA; value := V_bin "a" |}]
  = Some (MOSQ_ERR_SUCCESS, [LTable [(LString "correlation-data", LString "a")]])
  /\ LString "a" <> LString blob_a_nul_b.
Proof.
  assert (Hlen : Z.of_nat (String.length "a") <= UINT16_MAX)
    by (vm_compute; discriminate).
  exact (proj2 (binary_roundtrip_loses_bytes text_sample 0 "a" "b"
                  eq_refl Hlen)).
Defined.

(** ** Tables *)

Lemma table_get_set_eq t k v : table_get (table_set t k v) k = Some v.
Proof.
  induction t as [|[k0 v0] t IH]; simpl.
  - rewrite String.eqb_refl. reflexivity.
  - destruct (key_is k0 k) eqn:Hk; simpl; rewrite Hk; auto.
Qed.

Lemma table_get_set_ne t k k' v :
  k <> k' -> table_get (table_set t k v) k' = table_get t k'.
Proof.
  intros Hne. induction t as [|[k0 v0] t IH]; simpl.
  - destruct (String.eqb k k') eqn:E; [apply String.eqb_eq in E; congruence|].
    reflexivity.
  - destruct (key_is k0 k) eqn:Hk; simpl.
    + destruct k0; simpl in Hk; try discriminate.
      apply String.eqb_eq in Hk. subst s. simpl.
      destruct (String.eqb k k') eqn:E; [apply String.eqb_eq in E; congruence|].
      reflexivity.
    + rewrite IH. reflexivity.
Qed.

Lemma table_set_absent t k v :
  table_get t k = None -> table_set t k v = t ++ [(LString k, v)].
Proof.
  induction t as [|[k0 v0] t IH]; simpl; [reflexivity|].
  destruct (key_is k0 k); [discriminate|].
  intros H. rewrite (IH H). reflexivity.
Qed.

Lemma fold_pair_step_get pairs t k :
  table_get (fold_left pair_step pairs t) k =
    match last_value k pairs with
    | Some v => Some (LString v)
    | None => table_get t k
    end.
Proof.
  revert t. induction pairs as [|[k' v] rest IH]; intros t; simpl;
    [reflexivity|].
  rewrite IH. destruct (last_value k rest); [reflexivity|].
  unfold pair_step. simpl.
  destruct (String.eqb k' k) eqn:E.
  - apply String.eqb_eq in E. subst. apply table_get_set_eq.
  - apply table_get_set_ne. intros ->. rewrite String.eqb_refl in E.
    discriminate.
Qed.

Lemma last_value_key k pairs v :
  last_value k pairs = Some v -> k ∈ pairs.*1.
Proof.
  revert v. induction pairs as [|[k' v'] rest IH]; intros v; simpl;
    [discriminate|].
  destruct (last_value k rest) as [v0|].
  - intros _. right. exact (IH v0 eq_refl).
  - destruct (String.eqb k' k) eqn:E; [|discriminate].
    apply String.eqb_eq in E. subst. intros _. left.
Qed.

Lemma last_value_NoDup pairs k v :
  NoDup pairs.*1 -> (k, v) ∈ pairs -> last_value k pairs = Some v.
Proof.
  induction pairs as [|[k' v'] rest IH]; simpl; intros Hnd Hin.
  - inversion Hin.
  - apply NoDup_cons in Hnd as [Hk' Hnd].
    apply elem_of_cons in Hin as [Heq | Hin].
    + injection Heq as <- <-.
      destruct (last_value k rest) eqn:E.
      * exfalso. apply Hk'. eapply last_value_key; eauto.
      * rewrite String.eqb_refl. reflexivity.
    + rewrite (IH Hnd Hin). reflexivity.
Qed.

(** ** Decoding *)

Lemma lua_setfield_outer v outer user L name :
  lua_setfield (v :: scan_stack outer user L) (-2 - created_flag user) name =
    Some (scan_stack (table_set outer (c_str name) v) user L).
Proof. destruct user; reflexivity. Qed.

Section DecodeFacts.
Context (N : native).

Lemma pushed_value_stack L created p :
  fits p = true ->
  (identifier p =? MQTT_PROP_USER_PROPERTY) = false ->
  decode_switch true L created p =
    match pushed_value p with
    | Some v => Some (Break (v :: L) created true)
    | None => Some (Break L created false)
    end.
Proof.
  unfold fits, pushed_value, decode_switch.
  unfold mosquitto_property_read_byte, mosquitto_property_read_int16,
    mosquitto_property_read_int32, mosquitto_property_read_varint,
    mosquitto_property_read_string, mosquitto_property_read_binary.
  intros Hfits Hid. rewrite Hid in *.
  repeat match type of Hfits with
         | context [member ?x ?l] => destruct (member x l)
         end;
    try (destruct (value p); try discriminate Hfits); reflexivity.
Qed.

Lemma decode_switch_user outer user L p :
  fits p = true ->
  (identifier p =? MQTT_PROP_USER_PROPERTY) = true ->
  decode_switch true (scan_stack outer user L) (created_flag user) p =
    Some (Break (scan_stack outer (user_step user p) L) 1 false)
  /\ is_Some (user_step user p)
  /\ pushed_value p = None.
Proof.
  intros Hfits Hid. unfold user_step. rewrite Hid.
  pose proof Hid as Hid'. apply Z.eqb_eq in Hid'.
  unfold fits, pushed_value, decode_switch in *.
  unfold mosquitto_property_read_string_pair. rewrite Hid' in *.
  cbn in Hfits. cbn.
  destruct (value p); try discriminate Hfits.
  destruct user; cbn; eauto.
Qed.

Lemma decode_loop_spec l : forall outer user L,
  (forall n, read_copy_allocated N n = true) ->
  Forall (fun p => fits p = true) l ->
  Forall (fun p => pushed_value p <> None ->
                   is_Some (mosquitto_property_identifier_to_string N
                              (identifier p))) l ->
  decode_loop N l (scan_stack outer user L) (created_flag user) =
    Some (Finished (scan_stack (fold_left (direct_step N) l outer)
                      (fold_left user_step l user) L)
            (created_flag (fold_left user_step l user))).
Proof.
  induction l as [|p l IH]; intros outer user L Halloc Hfits Hnames;
    [reflexivity|].
  apply Forall_cons in Hfits as [Hp Hfits].
  apply Forall_cons in Hnames as [Hn Hnames].
  cbn [decode_loop fold_left]. rewrite Halloc.
  destruct (identifier p =? MQTT_PROP_USER_PROPERTY) eqn:Hid.
  - destruct (decode_switch_user outer user L p Hp Hid) as (-> & [u Hu] & Hnone).
    cbn. unfold direct_step at 2. rewrite Hnone, Hu.
    rewrite <- (IH outer (Some u) L Halloc Hfits Hnames). reflexivity.
  - rewrite (pushed_value_stack _ _ _ Hp Hid).
    assert (Huser : user_step user p = user) by (unfold user_step; rewrite Hid; reflexivity).
    rewrite Huser. unfold direct_step at 2.
    destruct (pushed_value p) as [v|] eqn:Hv; cbn [mbind option_bind].
    + destruct (Hn ltac:(discriminate)) as [name Hname]. rewrite Hname.
      cbn [mbind option_bind]. rewrite lua_setfield_outer.
      cbn [mbind option_bind]. apply IH; assumption.
    + apply IH; assumption.
Qed.

Lemma fold_user_step l : forall user,
  fold_left user_step l user =
    match user_pairs l with
    | [] => user
    | pairs => Some (fold_left pair_step pairs (default [] user))
    end.
Proof.
  induction l as [|p l IH]; intros user; [reflexivity|].
  cbn [fold_left user_pairs]. rewrite IH. unfold user_step.
  destruct (identifier p =? MQTT_PROP_USER_PROPERTY); [|reflexivity].
  destruct (value p); try reflexivity.
  cbn. destruct (user_pairs l); reflexivity.
Qed.

End DecodeFacts.

Lemma member_In x l : member x l = true -> In x l.
Proof.
  unfold member. rewrite existsb_exists. intros (y & Hy & Heq).
  apply Z.eqb_eq in Heq. subst. exact Hy.
Qed.

Lemma pushed_value_identifier p v :
  pushed_value p = Some v -> In (identifier p) single_valued_identifiers.
Proof.
  unfold pushed_value, decode_switch, single_valued_identifiers.
  rewrite !in_app_iff.
  repeat match goal with
         | |- context [member ?x ?l] =>
             let H := fresh "Hm" in
             destruct (member x l) eqn:H;
             [apply member_In in H; tauto|]
         end.
  destruct (identifier p =? MQTT_PROP_USER_PROPERTY); [|discriminate].
  cbn. destruct (mosquitto_property_read_string_pair p) as [[n s]|];
    discriminate.
Qed.

Lemma single_valued_name id :
  In id single_valued_identifiers ->
  exists name,
    registry_by_identifier id property_registry = Some name
    /\ c_str name = name /\ name <> "user-property".
Proof.
  unfold single_valued_identifiers. cbn.
  intros H.
  repeat (destruct H as [<- | H];
          [eexists; split; [reflexivity | split; [reflexivity | discriminate]]|]).
  destruct H.
Qed.

Section DecodeLibmosquitto.
Context (T : library_text).

Lemma libmosquitto_names l :
  Forall (fun p => pushed_value p <> None ->
            is_Some (mosquitto_property_identifier_to_string (libmosquitto T)
                       (identifier p))) l.
Proof.
  apply Forall_forall. intros p _ Hp.
  destruct (pushed_value p) as [v|] eqn:Hv; [|congruence].
  destruct (single_valued_name _ (pushed_value_identifier _ _ Hv))
    as (name & Hname & _).
  exists name. exact Hname.
Qed.

Lemma direct_step_other outer p name :
  name = "user-property" ->
  table_get (direct_step (libmosquitto T) outer p) name = table_get outer name.
Proof.
  intros ->. unfold direct_step.
  destruct (pushed_value p) as [v|] eqn:Hv; [|reflexivity].
  destruct (single_valued_name _ (pushed_value_identifier _ _ Hv))
    as (name & Hname & Hc & Hne).
  change (mosquitto_property_identifier_to_string (libmosquitto T) (identifier p))
    with (registry_by_identifier (identifier p) property_registry).
  rewrite Hname, Hc. apply table_get_set_ne. exact Hne.
Qed.

Lemma direct_fields_no_user_property l outer :
  table_get (fold_left (direct_step (libmosquitto T)) l outer) "user-property"
  = table_get outer "user-property".
Proof.
  revert outer. induction l as [|p l IH]; intros outer; [reflexivity|].
  cbn [fold_left]. rewrite IH. apply direct_step_other. reflexivity.
Qed.

Lemma direct_fields_last l p v name :
  pushed_value p = Some v ->
  registry_by_identifier (identifier p) property_registry = Some name ->
  table_get (direct_fields (libmosquitto T) (l ++ [p])) name = Some v.
Proof.
  intros Hv Hname. unfold direct_fields. rewrite fold_left_app.
  cbn [fold_left]. unfold direct_step at 1. rewrite Hv.
  change (mosquitto_property_identifier_to_string (libmosquitto T) (identifier p))
    with (registry_by_identifier (identifier p) property_registry).
  rewrite Hname.
  destruct (single_valued_name _ (pushed_value_identifier _ _ Hv))
    as (name' & Hname' & Hc & _).
  assert (name' = name) by congruence. subst name'.
  rewrite Hc. apply table_get_set_eq.
Qed.

(** C7.  Decoding a well-formed list leaves one table on the stack: the
    fields of the single-valued properties, each set directly under its
    name so that the value of the last node of a name is the one the
    field holds, followed - when the list has a user property - by the one
    field user-property, attached after the scan, whose value is the single
    nested table all user properties were inserted into.  The nested table
    holds, for every key, the value of the last pair with that key in wire
    order; when the keys are pairwise distinct it holds every pair. *)
Theorem user_properties_collected L l :
  Forall (fun p => fits p = true) l ->
  create_lua_stack_from_property_list (libmosquitto T) L l =
    Some (MOSQ_ERR_SUCCESS,
          LTable (direct_fields (libmosquitto T) l ++ user_field l) :: L)
  /\ (forall k, table_get (nested_table (user_pairs l)) k
                = LString <$> last_value k (user_pairs l))
  /\ (NoDup (user_pairs l).*1 ->
      forall k v, (k, v) ∈ user_pairs l ->
        table_get (nested_table (user_pairs l)) k = Some (LString v))
  /\ (forall l' p v name,
        l = l' ++ [p] -> pushed_value p = Some v ->
        registry_by_identifier (identifier p) property_registry = Some name ->
        table_get (direct_fields (libmosquitto T) l) name = Some v).
Proof.
  intros Hfits.
  assert (Hget : forall k, table_get (nested_table (user_pairs l)) k
                           = LString <$> last_value k (user_pairs l)).
  { intros k. unfold nested_table. rewrite fold_pair_step_get.
    destruct (last_value k (user_pairs l)); reflexivity. }
  split; [|split; [exact Hget|split]].
  - unfold create_lua_stack_from_property_list.
    change (lua_newtable L) with (scan_stack [] None L).
    change 0 with (created_flag None) at 1.
    rewrite (decode_loop_spec (libmosquitto T) l [] None L
               (fun _ => eq_refl) Hfits (libmosquitto_names l)).
    cbn [mbind option_bind].
    rewrite fold_user_step. unfold user_field, nested_table.
    fold (direct_fields (libmosquitto T) l).
    destruct (user_pairs l) as [|kv pairs].
    + rewrite app_nil_r. reflexivity.
    + rewrite <- (table_set_absent (direct_fields (libmosquitto T) l)
                    "user-property");
        [reflexivity|].
      unfold direct_fields. rewrite direct_fields_no_user_property.
      reflexivity.
  - intros Hnd k v Hin. rewrite Hget, (last_value_NoDup _ _ _ Hnd Hin).
    reflexivity.
  - intros l' p v name -> Hv Hname. eapply direct_fields_last; eauto.
Qed.

End DecodeLibmosquitto.

Lemma user_properties_collected_witness :
  create_lua_stack_from_property_list (libmosquitto text_sample) []
    [{| identifier := MQTT_PROP_USER_PROPERTY; value := V_pair "a" "1" |};
     {| identifier := MQTT_PROP_CONTENT_TYPE; value := V_s "text/json" |};
     {| identifier := MQTT_PROP_USER_PROPERTY; value := V_pair "b" "2" |}]
  = Some (MOSQ_ERR_SUCCESS,
          [LTable [(LString "content-type", LString "text/json");
                   (LString "user-property",
                    LTable [(LString "a", LString "1");
                            (LString "b", LString "2")])]]).
Proof.
  refine (proj1 (user_properties_collected text_sample [] _ _)).
  repeat constructor.
Defined.

(** Two user properties with the same key: the nested table keeps the pair
    that comes last on the wire, so the pair [(a, 1)] is absent from the
    first decoding, and reversing the wire order changes the result. *)
Lemma user_property_repeated_key_overwritten :
  let first := {| identifier := MQTT_PROP_USER_PROPERTY;
                  value := V_pair "a" "1" |} in
  let second := {| identifier := MQTT_PROP_USER_PROPERTY;
                   value := V_pair "a" "2" |} in
  create_lua_stack_from_property_list (libmosquitto text_sample) []
    [first; second]
  = Some (MOSQ_ERR_SUCCESS,
          [LTable [(LString "user-property",
                    LTable [(LString "a", LString "2")])]])
  /\ table_get [(LString "a", LString "2")] "a" <> Some (LString "1")
  /\ create_lua_stack_from_property_list (libmosquitto text_sample) []
       [second; first]
     = Some (MOSQ_ERR_SUCCESS,
             [LTable [(LString "user-property",
                       LTable [(LString "a", LString "1")])]]).
Proof. repeat split. discriminate. Qed.

(** ** The Lua registry *)

Lemma fresh_ref_bound (reg : gmap Z lua_value) :
  0 < fresh_ref reg /\ forall r v, reg !! r = Some v -> r < fresh_ref reg.
Proof.
  unfold fresh_ref.
  apply (map_fold_weak_ind
           (fun acc (m : gmap Z lua_value) =>
              0 < 1 + acc /\ forall r v, m !! r = Some v -> r < 1 + acc)).
  - split; [lia|]. intros r v H. rewrite lookup_empty in H. discriminate.
  - intros i x m acc Hi [Hpos Hall]. split; [lia|].
    intros r v Hr. destruct (decide (r = i)) as [->|Hne]; [lia|].
    rewrite lookup_insert_ne in Hr by congruence.
    specialize (Hall r v Hr). lia.
Qed.

Lemma fresh_ref_unused (reg : gmap Z lua_value) : reg !! fresh_ref reg = None.
Proof.
  destruct (reg !! fresh_ref reg) as [v|] eqn:H; [|reflexivity].
  apply (proj2 (fresh_ref_bound reg)) in H. lia.
Qed.

(** ** Callback registry *)

Lemma callback_of_value_value k : callback_of_value (callback_value k) = Some k.
Proof. destruct k; reflexivity. Qed.

Lemma callback_type_from_name k :
  callback_type_from_string (callback_name k) = callback_value k.
Proof. destruct k; reflexivity. Qed.

Lemma slot_set_slot ctx k ref : slot (set_slot ctx k ref) k = ref.
Proof. destruct k; reflexivity. Qed.

Lemma slot_set_slot_other ctx k k' ref :
  k' <> k -> slot (set_slot ctx k ref) k' = slot ctx k'.
Proof. destruct k, k'; intros H; try reflexivity; congruence. Qed.

Section CallbackFacts.
Context (N : native) (C : libc).

(** C3.  Registering a handler for an event kind, whatever the slot held
    before, succeeds, stores a reference that was not in use in the slot,
    and installs the trampoline: the slot has exactly one active handler,
    the new one, and the other slots are unchanged.  But nothing is
    released: every reference the registry held before the call, the
    slot's previous one included, is still anchored after it, although no
    slot holds the previous reference any more. *)
Theorem registration_overwrites_slot b k f :
  let ref := fresh_ref (registry b) in
  let call := ctx_callback_set N C b [LString (callback_name k); LFunction f] in
  snd call = Return [LBoolean true]
  /\ registry b !! ref = None
  /\ slot (ctx (fst call)) k = ref
  /\ lua_rawgeti (registry (fst call)) ref = LFunction f
  /\ mosq_callbacks (fst call) k = true
  /\ (forall k', k' <> k -> slot (ctx (fst call)) k' = slot (ctx b) k')
  /\ (forall r v, registry b !! r = Some v ->
                  registry (fst call) !! r = Some v).
Proof.
  cbn zeta. unfold ctx_callback_set.
  cbn [lookup list_lookup callback_selector lua_isstring lua_tolstring].
  rewrite callback_type_from_name.
  cbn [from_option lua_isfunction negb List.last luaL_ref].
  rewrite callback_of_value_value. cbn [fst snd registry ctx mosq_callbacks].
  repeat split.
  - apply fresh_ref_unused.
  - apply slot_set_slot.
  - unfold lua_rawgeti. rewrite lookup_insert_eq. reflexivity.
  - destruct (decide (k = k)); congruence.
  - intros k' Hk'. apply slot_set_slot_other. exact Hk'.
  - intros r v Hr. rewrite lookup_insert_ne; [exact Hr|].
    intros <-. rewrite fresh_ref_unused in Hr. discriminate.
Qed.
End CallbackFacts.

Lemma registration_overwrites_slot_witness :
  let b1 := fst (ctx_callback_set (libmosquitto text_sample) libc_sample
                   (mosq_new ∅) [LString "ON_CONNECT"; LFunction 1%nat]) in
  let b2 := fst (ctx_callback_set (libmosquitto text_sample) libc_sample
                   b1 [LString "ON_CONNECT"; LFunction 2%nat]) in
  registry b1 !! slot (ctx b1) CALLBACK_ON_CONNECT = Some (LFunction 1%nat)
  /\ registry b2 !! slot (ctx b1) CALLBACK_ON_CONNECT = Some (LFunction 1%nat).
Proof.
  cbn zeta.
  assert (H1 : registry
                 (fst (ctx_callback_set (libmosquitto text_sample) libc_sample
                         (mosq_new ∅) [LString "ON_CONNECT"; LFunction 1%nat]))
               !! slot (ctx (fst (ctx_callback_set (libmosquitto text_sample)
                                    libc_sample (mosq_new ∅)
                                    [LString "ON_CONNECT"; LFunction 1%nat])))
                    CALLBACK_ON_CONNECT
               = Some (LFunction 1%nat)) by (vm_compute; reflexivity).
  split; [exact H1|].
  pose proof (registration_overwrites_slot (libmosquitto text_sample)
                libc_sample
                (fst (ctx_callback_set (libmosquitto text_sample) libc_sample
                        (mosq_new ∅) [LString "ON_CONNECT"; LFunction 1%nat]))
                CALLBACK_ON_CONNECT 2%nat) as H.
  cbn zeta in H. destruct H as (_ & _ & _ & _ & _ & _ & Hkept).
  exact (Hkept _ _ H1).
Defined.

(** A second registration for the same slot: the reference of the first
    handler is still in the registry afterwards. *)
Lemma reregistration_keeps_old_reference :
  let b0 := mosq_new ∅ in
  let b1 := fst (ctx_callback_set (libmosquitto text_sample) libc_sample b0
                   [LString "ON_CONNECT"; LFunction 1]) in
  let b2 := fst (ctx_callback_set (libmosquitto text_sample) libc_sample b1
                   [LString "ON_CONNECT"; LFunction 2]) in
  slot (ctx b1) CALLBACK_ON_CONNECT = 1
  /\ slot (ctx b2) CALLBACK_ON_CONNECT = 2
  /\ registry b2 !! 1 = Some (LFunction 1%nat).
Proof. vm_compute. auto. Qed.

(** ** Dispatch *)

Section DispatchFacts.
Context (N : native) (C : libc).

Lemma ctx_callback_set_leaves_kind b args k :
  leaves_kind N k args ->
  slot (ctx (fst (ctx_callback_set N C b args))) k = slot (ctx b) k
  /\ mosq_callbacks (fst (ctx_callback_set N C b args)) k = mosq_callbacks b k.
Proof.
  unfold leaves_kind, selected_kind, ctx_callback_set. intros Hleft.
  destruct (callback_selector N (args !! 0%nat)) as [ty|]; [|auto].
  destruct (from_option lua_isfunction false (args !! 1%nat)) eqn:Hfun;
    cbn [negb]; [|auto].
  destruct Hleft as [Hsel | Hno]; [|discriminate].
  destruct (luaL_ref (registry b) (List.last args LNil)) as [ref reg].
  cbn in Hsel.
  destruct (callback_of_value ty) as [k0|]; cbn; [|auto].
  assert (k <> k0) by congruence.
  destruct (decide (k = k0)); [congruence|].
  rewrite slot_set_slot_other by assumption. auto.
Qed.

Lemma callback_sets_leave_kind calls : forall b k,
  (forall args, args ∈ calls -> leaves_kind N k args) ->
  slot (ctx (callback_sets N C b calls)) k = slot (ctx b) k
  /\ mosq_callbacks (callback_sets N C b calls) k = mosq_callbacks b k.
Proof.
  induction calls as [|args calls IH]; intros b k Hleft; [auto|].
  cbn [callback_sets].
  destruct (ctx_callback_set_leaves_kind b args k) as [Hslot Hcb].
  { apply Hleft. left. }
  destruct (IH (fst (ctx_callback_set N C b args)) k) as [Hslot' Hcb'].
  { intros args' Hin. apply Hleft. right. exact Hin. }
  split; congruence.
Qed.

(** On a client on which every [callback_set] call since [mosq_new] has
    selected another kind or has raised, the slot of an event's kind is
    still empty and the native library has no trampoline for it: the event
    is not delivered to the bridge. *)
Lemma unregistered_event_is_not_delivered reg calls e :
  (forall args, args ∈ calls -> leaves_kind N (event_kind e) args) ->
  slot (ctx (callback_sets N C (mosq_new reg) calls)) (event_kind e) = LUA_REFNIL
  /\ mosquitto_deliver N (callback_sets N C (mosq_new reg) calls) e = None.
Proof.
  intros Hleft.
  destruct (callback_sets_leave_kind calls (mosq_new reg) (event_kind e) Hleft)
    as [Hslot Hcb].
  split.
  - rewrite Hslot. destruct (event_kind e); reflexivity.
  - unfold mosquitto_deliver. rewrite Hcb. reflexivity.
Qed.

(** *** The decoder's stack *)

Lemma decode_switch_shape allocated outer user L p r :
  decode_switch allocated (scan_stack outer user L) (created_flag user) p
    = Some r ->
  match r with
  | Break L1 c1 true =>
      exists v, L1 = v :: scan_stack outer user L /\ c1 = created_flag user
  | Break L1 c1 false =>
      exists user', L1 = scan_stack outer user' L /\ c1 = created_flag user'
  | ReturnNomem L1 => exists user', L1 = scan_stack outer user' L
  end.
Proof.
  unfold decode_switch.
  repeat match goal with
         | |- context [member ?x ?l] => destruct (member x l)
         end;
    try (match goal with
         | |- context [mbind _ ?r] => destruct r as [?|]
         end; cbn [mbind option_bind]; [|discriminate];
         try match goal with
           | x : (_ * _)%type |- _ => destruct x
           end;
         destruct allocated; cbn [negb]; intros [= <-]; eauto).
  destruct (identifier p =? MQTT_PROP_USER_PROPERTY).
  - destruct (mosquitto_property_read_string_pair p) as [[n v]|];
      [|discriminate].
    cbn [mbind option_bind].
    destruct allocated; cbn [negb].
    + destruct user; cbn; intros [= <-]; eexists (Some _); split; reflexivity.
    + destruct user; cbn; intros [= <-]; eexists (Some _); reflexivity.
  - intros [= <-]. exists user. auto.
Qed.

Lemma decode_loop_shape l : forall outer user L r,
  decode_loop N l (scan_stack outer user L) (created_flag user) = Some r ->
  match r with
  | Finished L' c =>
      exists outer' user', L' = scan_stack outer' user' L /\ c = created_flag user'
  | ReturnedNomem L' => exists outer' user', L' = scan_stack outer' user' L
  end.
Proof.
  induction l as [|p l IH]; intros outer user L r; cbn [decode_loop].
  - intros [= <-]. eauto.
  - destruct (decode_switch (read_copy_allocated N (length l))
                (scan_stack outer user L) (created_flag user) p)
      as [[L1 c1 pushed|L1]|] eqn:Hsw; [| |discriminate].
    + apply decode_switch_shape in Hsw. cbn [mbind option_bind].
      destruct pushed.
      * destruct Hsw as (v & -> & ->).
        destruct (mosquitto_property_identifier_to_string N (identifier p))
          as [name|]; [|discriminate].
        cbn [mbind option_bind]. rewrite lua_setfield_outer.
        cbn [mbind option_bind]. apply IH.
      * destruct Hsw as (user' & -> & ->). cbn [mbind option_bind]. apply IH.
    + apply decode_switch_shape in Hsw as [user' ->].
      cbn [mbind option_bind]. intros [= <-]. eauto.
Qed.

(** On success the decoder has pushed one table; on [MOSQ_ERR_NOMEM] the
    root table, and the table of user properties above it if it had been
    created. *)
Lemma create_lua_stack_shape L props rc L' :
  create_lua_stack_from_property_list N L props = Some (rc, L') ->
  (rc = MOSQ_ERR_SUCCESS /\ exists t, L' = LTable t :: L)
  \/ (rc = MOSQ_ERR_NOMEM /\ exists outer user, L' = scan_stack outer user L).
Proof.
  unfold create_lua_stack_from_property_list.
  change (lua_newtable L) with (scan_stack [] None L).
  change 0 with (created_flag None) at 1.
  destruct (decode_loop N props (scan_stack [] None L) (created_flag None))
    as [[L1 c|L1]|] eqn:Hloop; [| |discriminate].
  - apply decode_loop_shape in Hloop as (outer & user & -> & ->).
    cbn [mbind option_bind]. destruct user as [u|]; cbn [created_flag Z.eqb].
    + destruct (mosquitto_property_identifier_to_string N MQTT_PROP_USER_PROPERTY);
        [|discriminate].
      cbn. intros [= <- <-]. left. eauto.
    + cbn. intros [= <- <-]. left. eauto.
  - apply decode_loop_shape in Hloop as (outer & user & ->).
    cbn [mbind option_bind]. intros [= <- <-]. right. eauto.
Qed.

Lemma decode_switch_frame allocated outer user L p :
  decode_switch allocated (scan_stack outer user L) (created_flag user) p =
    match decode_switch allocated (scan_stack outer user []) (created_flag user) p
    with
    | Some (Break L1 created pushed) => Some (Break (L1 ++ L) created pushed)
    | Some (ReturnNomem L1) => Some (ReturnNomem (L1 ++ L))
    | None => None
    end.
Proof.
  unfold decode_switch.
  repeat match goal with
         | |- context [member ?x ?l] => destruct (member x l)
         end;
    try (match goal with
         | |- context [mbind _ ?r] => destruct r as [?|]
         end; cbn [mbind option_bind]; [|reflexivity];
         try match goal with
           | x : (_ * _)%type |- _ => destruct x
           end;
         destruct allocated; destruct user; reflexivity).
  destruct (identifier p =? MQTT_PROP_USER_PROPERTY); [|destruct user; reflexivity].
  destruct (mosquitto_property_read_string_pair p) as [[n v]|];
    [|reflexivity].
  destruct allocated; destruct user; reflexivity.
Qed.

Lemma scan_stack_app outer user L :
  scan_stack outer user [] ++ L = scan_stack outer user L.
Proof. destruct user; reflexivity. Qed.

Lemma decode_loop_frame l : forall outer user L,
  decode_loop N l (scan_stack outer user L) (created_flag user) =
    match decode_loop N l (scan_stack outer user []) (created_flag user) with
    | Some (Finished L1 created) => Some (Finished (L1 ++ L) created)
    | Some (ReturnedNomem L1) => Some (ReturnedNomem (L1 ++ L))
    | None => None
    end.
Proof.
  induction l as [|p l IH]; intros outer user L; cbn [decode_loop].
  - rewrite scan_stack_app. reflexivity.
  - rewrite decode_switch_frame.
    destruct (decode_switch (read_copy_allocated N (length l))
                (scan_stack outer user []) (created_flag user) p)
      as [[L1 c1 pushed|L1]|] eqn:Hsw; [| |reflexivity].
    + apply decode_switch_shape in Hsw. cbn [mbind option_bind].
      destruct pushed.
      * destruct Hsw as (v & -> & ->).
        destruct (mosquitto_property_identifier_to_string N (identifier p))
          as [name|]; [|reflexivity].
        cbn [mbind option_bind].
        change ((v :: scan_stack outer user []) ++ L)
          with (v :: (scan_stack outer user [] ++ L)).
        rewrite scan_stack_app, !lua_setfield_outer.
        cbn [mbind option_bind]. apply IH.
      * destruct Hsw as (user' & -> & ->). cbn [mbind option_bind].
        rewrite scan_stack_app. apply IH.
    + reflexivity.
Qed.

Lemma create_lua_stack_append L props :
  create_lua_stack_from_property_list N L props =
    match create_lua_stack_from_property_list N [] props with
    | Some (rc, L') => Some (rc, L' ++ L)
    | None => None
    end.
Proof.
  unfold create_lua_stack_from_property_list.
  change (decode_loop N props (lua_newtable L) 0)
    with (decode_loop N props (scan_stack [] None L) (created_flag None)).
  change (decode_loop N props (lua_newtable []) 0)
    with (decode_loop N props (scan_stack [] None []) (created_flag None)).
  rewrite (decode_loop_frame props [] None L).
  destruct (decode_loop N props (scan_stack [] None []) (created_flag None))
    as [[L1 c|L1]|] eqn:Hloop; [| |reflexivity].
  - apply decode_loop_shape in Hloop as (outer & user & -> & ->).
    cbn [mbind option_bind]. destruct user as [u|]; cbn [created_flag Z.eqb].
    + destruct (mosquitto_property_identifier_to_string N MQTT_PROP_USER_PROPERTY);
        reflexivity.
    + reflexivity.
  - reflexivity.
Qed.

(** On an empty stack the decoder leaves one value or two. *)
Lemma create_lua_stack_one_or_two props rc tables :
  create_lua_stack_from_property_list N [] props = Some (rc, tables) ->
  (exists t, tables = [t]) \/ (exists nested root, tables = [nested; root]).
Proof.
  intros H. apply create_lua_stack_shape in H as [[_ [t ->]] | [_ (o & u & ->)]].
  - left. eauto.
  - destruct u as [u|]; cbn; [right | left]; eauto.
Qed.

(** *** The call *)

Lemma lua_call_arguments metamethod args callee rest :
  lua_call metamethod (rev args ++ callee :: rest) (Z.of_nat (length args))
  = call metamethod callee args.
Proof.
  unfold lua_call, call. rewrite Nat2Z.id. cbn zeta.
  rewrite <- (length_rev args).
  rewrite take_app_length, rev_involutive.
  rewrite lookup_app_r by lia.
  replace (length (rev args) - length (rev args))%nat with 0%nat by lia.
  cbn [lookup list_lookup]. destruct callee; reflexivity.
Qed.

Lemma push_integers_rev vs : forall L,
  push_integers L vs = rev (map lua_integer vs) ++ L.
Proof.
  induction vs as [|v vs IH]; intros L; [reflexivity|].
  cbn [push_integers map rev]. rewrite IH, <- app_assoc. reflexivity.
Qed.

Lemma dispatch_call b e :
  dispatch N b e =
    handler_call N (lua_rawgeti (registry b) (slot (ctx b) (event_kind e))) e.
Proof.
  unfold handler_call.
  destruct e; cbn [dispatch event_kind slot event_properties];
    unfold ctx_on_connect, ctx_on_connect_v5, ctx_on_disconnect,
      ctx_on_disconnect_v5, ctx_on_publish, ctx_on_publish_v5,
      ctx_on_message, ctx_on_message_v5, ctx_on_subscribe,
      ctx_on_subscribe_v5, ctx_on_unsubscribe, ctx_on_unsubscribe_v5,
      ctx_on_log, push_properties, disconnect_text; cbn zeta;
    cbn [event_arguments];
    try match goal with
        | |- context [negb (?rc =? 0)] =>
            destruct (rc =? 0) eqn:Hrc; cbn [negb]
        end;
    try (rewrite create_lua_stack_append;
         match goal with
         | |- context [create_lua_stack_from_property_list N [] ?p] =>
             destruct (create_lua_stack_from_property_list N [] p)
               as [[code tables]|] eqn:Hdec; [|reflexivity];
             apply create_lua_stack_one_or_two in Hdec
               as [[t ->] | (nested & root & ->)];
             cbn [call_with_tables event_arguments app];
             rewrite ?Hrc
         end).
  - exact (lua_call_arguments _ (event_arguments N (Connect rc) []) _ []).
  - exact (lua_call_arguments _
             (event_arguments N (ConnectV5 reason_code flags props) [t]) _ []).
  - exact (lua_call_arguments _
             [lua_integer reason_code;
              LString (c_str (mosquitto_reason_string N reason_code));
              lua_integer flags; root; nested]
             (LBoolean (reason_code =? 0))
             [lua_rawgeti (registry b) (on_connect_v5 (ctx b))]).
  - exact (lua_call_arguments _
             [LBoolean true; lua_integer rc;
              LString "client-initiated disconnect"] _ []).
  - exact (lua_call_arguments _
             [LBoolean false; lua_integer rc; LString "unexpected disconnect"]
             _ []).
  - exact (lua_call_arguments _
             [LBoolean true; lua_integer rc;
              LString "client-initiated disconnect"; t] _ []).
  - exact (lua_call_arguments _
             [lua_integer rc; LString "client-initiated disconnect";
              root; nested]
             (LBoolean true)
             [lua_rawgeti (registry b) (on_disconnect_v5 (ctx b))]).
  - exact (lua_call_arguments _
             [LBoolean false; lua_integer rc; LString "unexpected disconnect"; t]
             _ []).
  - exact (lua_call_arguments _
             [lua_integer rc; LString "unexpected disconnect"; root; nested]
             (LBoolean false)
             [lua_rawgeti (registry b) (on_disconnect_v5 (ctx b))]).
  - exact (lua_call_arguments _ (event_arguments N (Publish mid0) []) _ []).
  - exact (lua_call_arguments _
             (event_arguments N (PublishV5 mid0 reason_code props) [t]) _ []).
  - exact (lua_call_arguments _
             [lua_integer reason_code;
              LString (c_str (mosquitto_reason_string N reason_code));
              root; nested]
             (lua_integer mid0)
             [lua_rawgeti (registry b) (on_publish_v5 (ctx b))]).
  - exact (lua_call_arguments _ (event_arguments N (Message msg) []) _ []).
  - exact (lua_call_arguments _ (event_arguments N (MessageV5 msg props) [t]) _ []).
  - exact (lua_call_arguments _
             [LString (c_str (topic msg));
              LString (take_bytes (Z.to_nat (payloadlen msg)) (payload msg));
              lua_integer (qos msg); LBoolean (retain msg); root; nested]
             (lua_integer (mid msg))
             [lua_rawgeti (registry b) (on_message_v5 (ctx b))]).
  - unfold fetch. rewrite push_integers_rev.
    replace (Z.of_nat (length granted_qos) + 1)
      with (Z.of_nat (length (lua_integer mid0 :: map lua_integer granted_qos)))
      by (cbn [length]; rewrite length_map; lia).
    rewrite <- lua_call_arguments with (rest := []).
    cbn [rev lua_pushinteger]. rewrite <- app_assoc. reflexivity.
  - unfold fetch. rewrite push_integers_rev.
    replace (Z.of_nat (length granted_qos) + 2)
      with (Z.of_nat (length (lua_integer mid0 :: t :: map lua_integer granted_qos)))
      by (cbn [length]; rewrite length_map; lia).
    rewrite <- lua_call_arguments with (rest := []).
    cbn [rev lua_pushinteger app]. rewrite <- !app_assoc. reflexivity.
  - unfold fetch. rewrite push_integers_rev.
    replace (Z.of_nat (length granted_qos) + 2)
      with (Z.of_nat (length (root :: nested :: map lua_integer granted_qos)))
      by (cbn [length]; rewrite length_map; lia).
    rewrite <- lua_call_arguments
      with (rest := [lua_rawgeti (registry b) (on_subscribe_v5 (ctx b))]).
    cbn [rev lua_pushinteger app]. rewrite <- !app_assoc. reflexivity.
  - exact (lua_call_arguments _ (event_arguments N (Unsubscribe mid0) []) _ []).
  - exact (lua_call_arguments _ (event_arguments N (UnsubscribeV5 mid0 props) [t])
             _ []).
  - exact (lua_call_arguments _ [root; nested] (lua_integer mid0)
             [lua_rawgeti (registry b) (on_unsubscribe_v5 (ctx b))]).
  - exact (lua_call_arguments _ (event_arguments N (Log level str) []) _ []).
Qed.

(** C4.  An event is not dropped when its slot is empty.  After
    [callback_set(kind, f, ..., nil)] - the function checked is argument 3,
    the value anchored is the one on top of the stack - the call succeeds,
    the slot of the kind holds the empty reference it held initially,
    nothing has been anchored, and the trampoline is installed: an event
    of the kind (whose properties, if it has any, decode to one table) is
    delivered and its [lua_call] raises on the [nil] the empty reference
    fetches. *)
Theorem empty_slot_event_raises b f extra e :
  registry b !! LUA_REFNIL = None ->
  lua_call_metamethod N LNil = None ->
  (forall props, event_properties e = Some props ->
     exists rc t, create_lua_stack_from_property_list N [] props = Some (rc, [t])) ->
  let set := ctx_callback_set N C b
               (LString (callback_name (event_kind e)) :: LFunction f
                :: extra ++ [LNil]) in
  snd set = Return [LBoolean true]
  /\ slot (ctx (fst set)) (event_kind e) = LUA_REFNIL
  /\ registry (fst set) = registry b
  /\ mosquitto_deliver N (fst set) e
     = Some (CallError "attempt to call a nil value").
Proof.
  intros Hnil Htm Hprops. cbn zeta. unfold ctx_callback_set.
  cbn [lookup list_lookup callback_selector lua_isstring lua_tolstring].
  rewrite callback_type_from_name.
  cbn [from_option lua_isfunction negb].
  assert (Hlast : List.last (LString (callback_name (event_kind e))
                               :: LFunction f :: extra ++ [LNil]) LNil = LNil).
  { change (LString (callback_name (event_kind e)) :: LFunction f
              :: extra ++ [LNil])
      with ((LString (callback_name (event_kind e)) :: LFunction f :: extra)
              ++ [LNil]).
    apply last_last. }
  rewrite Hlast. cbn [luaL_ref].
  rewrite callback_of_value_value. cbn [fst snd registry ctx].
  rewrite slot_set_slot.
  repeat split.
  unfold mosquitto_deliver. cbn [mosq_callbacks].
  destruct (decide (event_kind e = event_kind e)); [|congruence].
  rewrite dispatch_call. cbn [registry ctx]. rewrite slot_set_slot.
  unfold lua_rawgeti. rewrite Hnil. cbn [default from_option].
  unfold handler_call.
  destruct (event_properties e) as [props|] eqn:Hev.
  - destruct (Hprops props eq_refl) as (rc & t & ->).
    cbn [call_with_tables call]. rewrite Htm. reflexivity.
  - cbn [call]. rewrite Htm. reflexivity.
Qed.

End DispatchFacts.

Lemma empty_slot_event_raises_witness :
  let b := fst (ctx_callback_set (libmosquitto text_sample) libc_sample
                  (mosq_new ∅) [LString "ON_CONNECT"; LFunction 1%nat; LNil]) in
  slot (ctx b) CALLBACK_ON_CONNECT = LUA_REFNIL
  /\ slot (ctx (mosq_new ∅)) CALLBACK_ON_CONNECT = LUA_REFNIL
  /\ mosquitto_deliver (libmosquitto text_sample) b (Connect 0)
     = Some (CallError "attempt to call a nil value").
Proof.
  cbn zeta.
  destruct (empty_slot_event_raises (libmosquitto text_sample) libc_sample
              (mosq_new ∅) 1%nat [] (Connect 0))
    as (_ & Hslot & _ & Hraise).
  - reflexivity.
  - reflexivity.
  - discriminate.
  - split; [exact Hslot|]. split; [reflexivity | exact Hraise].
Defined.

(** ** Scenarios *)

(** A publish with a content type and a message expiry interval: two
    properties, string-typed and 32-bit, which pass the check for a publish
    and decode to the original map. *)
Lemma publish_scenario_roundtrip rc0 :
  let original := [(LString "content-type", LString "text/json");
                   (LString "message-expiry-interval", LNumber 255)] in
  let encoded := [{| identifier := MQTT_PROP_CONTENT_TYPE;
                     value := V_s "text/json" |};
                  {| identifier := MQTT_PROP_MESSAGE_EXPIRY_INTERVAL;
                     value := V_i32 255 |}] in
  create_property_list_from_lua_stack (libmosquitto text_sample) rc0 original
    [] CMD_PUBLISH = Returned MOSQ_ERR_SUCCESS encoded
  /\ create_lua_stack_from_property_list (libmosquitto text_sample) [] encoded
     = Some (MOSQ_ERR_SUCCESS, [LTable original]).
Proof. split; reflexivity. Qed.

(** The rejections: a negative integer, an unknown name, and a connect-only
    property under a publish all fail with [MOSQ_ERR_INVAL] and leave no
    list. *)
Lemma rejection_scenarios rc0 :
  create_property_list_from_lua_stack (libmosquitto text_sample) rc0
    [(LString "message-expiry-interval", LNumber (-1))] [] CMD_PUBLISH
  = Returned MOSQ_ERR_INVAL []
  /\ create_property_list_from_lua_stack (libmosquitto text_sample) rc0
       [(LString "bogus-name", LNumber 1)] [] CMD_PUBLISH
     = Returned MOSQ_ERR_INVAL []
  /\ create_property_list_from_lua_stack (libmosquitto text_sample) rc0
       [(LString "request-problem-information", LNumber 1)] [] CMD_PUBLISH
     = Returned MOSQ_ERR_INVAL [].
Proof. repeat split. Qed.

(** A message with qos 2 and the retain flag reaches a registered handler
    with five arguments, and with the decoded properties as the sixth for
    the v5 callback. *)
Lemma message_dispatch_arguments :
  let N := libmosquitto text_sample in
  let msg := {| mid := 7; topic := "a/b"; payload := "hello";
                payloadlen := 5; qos := 2; retain := true |} in
  let b := callback_sets N libc_sample (mosq_new ∅)
             [[LString "ON_MESSAGE"; LFunction 1%nat];
              [LString "ON_MESSAGE_V5"; LFunction 2%nat]] in
  mosquitto_deliver N b (Message msg)
  = Some (Called 1%nat [LNumber 7; LString "a/b"; LString "hello";
                        LNumber 2; LBoolean true])
  /\ mosquitto_deliver N b (MessageV5 msg [])
     = Some (Called 2%nat [LNumber 7; LString "a/b"; LString "hello";
                           LNumber 2; LBoolean true; LTable []]).
Proof. vm_compute. split; reflexivity. Qed.

(** * Further properties of the bridge *)

(** ** Selecting a callback *)

(** [callback_type_from_string] yields a callback id for the thirteen
    [ON_] names of the table of constants, and -1 for every other string. *)
Lemma callback_type_from_string_cases typestr :
  (exists k, c_str typestr = callback_name k
             /\ callback_type_from_string typestr = callback_value k)
  \/ ((forall k, c_str typestr <> callback_name k)
      /\ callback_type_from_string typestr = -1).
Proof.
  unfold callback_type_from_string. generalize (c_str typestr) as s. intros s.
  destruct (String.prefix "ON_" s) eqn:Hprefix; cbn [negb].
  - unfold D. cbn [lookup_define].
    repeat match goal with
           | |- context [if String.eqb ?name s then _ else _] =>
               let E := fresh "E" in
               destruct (String.eqb name s) eqn:E;
               [ apply String.eqb_eq in E;
                 first
                   [ left;
                     first
                       [ exists CALLBACK_ON_CONNECT; split; [symmetry; exact E | reflexivity]
                       | exists CALLBACK_ON_CONNECT_V5; split; [symmetry; exact E | reflexivity]
                       | exists CALLBACK_ON_DISCONNECT; split; [symmetry; exact E | reflexivity]
                       | exists CALLBACK_ON_DISCONNECT_V5; split; [symmetry; exact E | reflexivity]
                       | exists CALLBACK_ON_PUBLISH; split; [symmetry; exact E | reflexivity]
                       | exists CALLBACK_ON_PUBLISH_V5; split; [symmetry; exact E | reflexivity]
                       | exists CALLBACK_ON_MESSAGE; split; [symmetry; exact E | reflexivity]
                       | exists CALLBACK_ON_MESSAGE_V5; split; [symmetry; exact E | reflexivity]
                       | exists CALLBACK_ON_SUBSCRIBE; split; [symmetry; exact E | reflexivity]
                       | exists CALLBACK_ON_SUBSCRIBE_V5; split; [symmetry; exact E | reflexivity]
                       | exists CALLBACK_ON_UNSUBSCRIBE; split; [symmetry; exact E | reflexivity]
                       | exists CALLBACK_ON_UNSUBSCRIBE_V5; split; [symmetry; exact E | reflexivity]
                       | exists CALLBACK_ON_LOG; split; [symmetry; exact E | reflexivity] ]
                   | exfalso; subst s; discriminate Hprefix ]
               | ]
           end.
    right. split; [|reflexivity].
    intros k Hk. subst s. destruct k; discriminate.
  - right. split; [|reflexivity].
    intros k Hk. subst s. destruct k; discriminate.
Qed.

Lemma callback_type_from_string_no_prefix typestr :
  String.prefix "ON_" (c_str typestr) = false ->
  callback_type_from_string typestr = -1.
Proof. unfold callback_type_from_string. intros ->. reflexivity. Qed.

Lemma luaL_unref_luaL_ref reg v :
  luaL_unref (snd (luaL_ref reg v)) (fst (luaL_ref reg v)) = reg.
Proof.
  assert (Hfresh : luaL_unref (<[fresh_ref reg := v]> reg) (fresh_ref reg) = reg).
  { unfold luaL_unref.
    destruct (0 <=? fresh_ref reg) eqn:Hpos.
    - apply delete_insert_id, fresh_ref_unused.
    - pose proof (proj1 (fresh_ref_bound reg)). lia. }
  destruct v; try exact Hfresh. reflexivity.
Qed.

Section SelectFacts.
Context (N : native) (C : libc).

(** X1.  Which calls [callback_set] (and so an assignment to a field of a
    client, which goes through [__newindex]) accepts: with a string as the
    selector, the call succeeds exactly when the string, read up to its
    first NUL, is one of the thirteen [ON_] names and the value is a Lua
    function; every other call raises an error.  The names of the log
    levels, options and protocol constants, which the same table [D] holds,
    select nothing. *)
Theorem callback_set_accepts_exactly b name v :
  (snd (ctx_callback_set N C b [LString name; v]) = Return [LBoolean true]
   <-> exists k f, c_str name = callback_name k /\ v = LFunction f)
  /\ (snd (ctx_callback_set N C b [LString name; v]) = Return [LBoolean true]
      \/ exists msg, snd (ctx_callback_set N C b [LString name; v]) = Error msg).
Proof.
  unfold ctx_callback_set.
  cbn [lookup list_lookup callback_selector lua_isstring lua_tolstring
       from_option List.last].
  destruct (lua_isfunction v) eqn:Hfun; cbn [negb].
  2:{ cbn [snd]. split; [|eauto].
      split; [discriminate|]. intros (k & f & _ & ->). discriminate. }
  destruct (luaL_ref (registry b) v) as [ref reg].
  destruct (callback_type_from_string_cases name)
    as [(k & Hname & ->) | [Hnone ->]].
  - rewrite callback_of_value_value. cbn [snd]. split; [|left; reflexivity].
    split; [|reflexivity]. intros _. destruct v; try discriminate. eauto.
  - cbn [callback_of_value Z.eqb snd]. split; [|eauto].
    split; [discriminate|]. intros (k & f & Hname & _).
    exfalso. exact (Hnone k Hname).
Qed.

(** X2.  A number given as the selector is converted to its text by
    [lua_tostring] and looked up as a name; as that text does not begin
    with ON_, the call is rejected as not a proper callback type and the
    client is left as it was.  So the callback ids the module exports as
    integers (ON_CONNECT = 0 and the like) cannot be used to select a
    callback. *)
Theorem numeric_selector_is_rejected b n f :
  String.prefix "ON_" (c_str (lua_number2str N n)) = false ->
  ctx_callback_set N C b [LNumber n; LFunction f]
  = (b, Error "not a proper callback type").
Proof.
  intros Hprefix. unfold ctx_callback_set.
  cbn [lookup list_lookup callback_selector lua_isstring lua_tolstring].
  rewrite (callback_type_from_string_no_prefix _ Hprefix).
  cbn [from_option lua_isfunction negb List.last].
  pose proof (luaL_unref_luaL_ref (registry b) (LFunction f)) as Hreg.
  destruct (luaL_ref (registry b) (LFunction f)) as [ref reg].
  cbn [fst snd] in Hreg. cbn [callback_of_value Z.eqb]. rewrite Hreg.
  destruct b; reflexivity.
Qed.

(** X3.  A [callback_set] call that raises an error leaves the client
    exactly as it was: the registry, every slot and the set of installed
    trampolines are unchanged - also when the value had already been
    anchored, since the [default] case releases the new reference. *)
Theorem failed_callback_set_changes_nothing b args msg :
  snd (ctx_callback_set N C b args) = Error msg ->
  fst (ctx_callback_set N C b args) = b.
Proof.
  unfold ctx_callback_set.
  destruct (callback_selector N (args !! 0%nat)) as [ty|]; [|reflexivity].
  destruct (negb _); [reflexivity|].
  pose proof (luaL_unref_luaL_ref (registry b) (List.last args LNil)) as Hreg.
  destruct (luaL_ref (registry b) (List.last args LNil)) as [ref reg].
  cbn [fst snd] in Hreg.
  destruct (callback_of_value ty) as [k|]; cbn [fst snd].
  - discriminate.
  - intros _. rewrite Hreg. destruct b; reflexivity.
Qed.

Lemma ctx_callback_set_keeps_registry b args r v :
  registry b !! r = Some v ->
  registry (fst (ctx_callback_set N C b args)) !! r = Some v.
Proof.
  intros Hr. unfold ctx_callback_set.
  destruct (callback_selector N (args !! 0%nat)) as [ty|]; [|exact Hr].
  destruct (negb _); [exact Hr|].
  pose proof (luaL_unref_luaL_ref (registry b) (List.last args LNil)) as Hreg.
  assert (Hkept : snd (luaL_ref (registry b) (List.last args LNil)) !! r = Some v).
  { unfold luaL_ref.
    assert (Hins : (<[fresh_ref (registry b) := List.last args LNil]>
                      (registry b)) !! r = Some v).
    { rewrite lookup_insert_ne; [exact Hr|].
      intros <-. rewrite fresh_ref_unused in Hr. discriminate. }
    destruct (List.last args LNil); try exact Hins. exact Hr. }
  destruct (luaL_ref (registry b) (List.last args LNil)) as [ref reg].
  cbn [fst snd] in Hreg, Hkept.
  destruct (callback_of_value ty) as [k|]; cbn [fst registry].
  - exact Hkept.
  - rewrite Hreg. exact Hr.
Qed.

Lemma ctx_callback_set_keeps_anchored b args :
  slots_anchored b -> slots_anchored (fst (ctx_callback_set N C b args)).
Proof.
  intros Hinv. unfold ctx_callback_set.
  destruct (callback_selector N (args !! 0%nat)) as [ty|]; [|exact Hinv].
  destruct (negb _); [exact Hinv|].
  pose proof (luaL_unref_luaL_ref (registry b) (List.last args LNil)) as Hreg.
  assert (Href : let '(ref, reg) := luaL_ref (registry b) (List.last args LNil) in
                 (ref = LUA_REFNIL /\ reg = registry b)
                 \/ (ref = fresh_ref (registry b)
                     /\ exists v, reg = <[ref := v]> (registry b))).
  { unfold luaL_ref. destruct (List.last args LNil); eauto. }
  destruct (luaL_ref (registry b) (List.last args LNil)) as [ref reg].
  cbn [fst snd] in Hreg.
  destruct (callback_of_value ty) as [k|]; cbn [fst].
  2:{ rewrite Hreg. destruct b; exact Hinv. }
  clear Hreg.
  intros k0 Hk0. cbn [fst registry ctx mosq_callbacks] in *.
  assert (Hold : forall k1, k1 <> k -> slot (ctx b) k1 <> LUA_REFNIL ->
                   slot (ctx b) k1 <> ref
                   /\ is_Some (reg !! slot (ctx b) k1)).
  { intros k1 Hne Hk1. destruct (Hinv k1 Hk1) as (_ & [v Hv] & _ & _).
    destruct Href as [[-> ->] | [-> [w ->]]].
    - split; [exact Hk1|]. eauto.
    - assert (slot (ctx b) k1 <> fresh_ref (registry b)).
      { intros Heq. rewrite Heq, fresh_ref_unused in Hv. discriminate. }
      split; [assumption|]. rewrite lookup_insert_ne by congruence. eauto. }
  destruct (decide (k0 = k)) as [->|Hne].
  - rewrite slot_set_slot in *.
    assert (Hfresh : ref = fresh_ref (registry b)
                     /\ exists w, reg = <[ref := w]> (registry b)).
    { destruct Href as [[-> ->] | H]; [congruence | exact H]. }
    destruct Hfresh as [-> [w ->]].
    split; [pose proof (proj1 (fresh_ref_bound (registry b))); lia|].
    split; [rewrite lookup_insert_eq; eauto|].
    split; [destruct (decide (k = k)); congruence|].
    intros k1 Hk1. rewrite slot_set_slot_other by exact Hk1.
      destruct (decide (slot (ctx b) k1 = LUA_REFNIL)) as [Hnil|Hnn].
      * rewrite Hnil. congruence.
      * apply (Hold k1 Hk1 Hnn).
  - rewrite slot_set_slot_other in * by exact Hne.
    destruct (Hinv k0 Hk0) as (Hpos & _ & Hcb & Hdistinct).
    destruct (Hold k0 Hne Hk0) as [Hnref Hsome].
    split; [exact Hpos|]. split; [exact Hsome|].
    split; [destruct (decide (k0 = k)); [congruence | exact Hcb]|].
    intros k1 Hk1. destruct (decide (k1 = k)) as [->|Hne1].
    + rewrite slot_set_slot. congruence.
    + rewrite slot_set_slot_other by exact Hne1. apply Hdistinct. exact Hk1.
Qed.

Lemma ctx_callback_set_slot b args k :
  slot (ctx (fst (ctx_callback_set N C b args))) k = slot (ctx b) k
  \/ slot (ctx (fst (ctx_callback_set N C b args))) k = LUA_REFNIL
  \/ slot (ctx (fst (ctx_callback_set N C b args))) k = fresh_ref (registry b).
Proof.
  unfold ctx_callback_set.
  destruct (callback_selector N (args !! 0%nat)) as [ty|]; [|auto].
  destruct (negb _); [auto|].
  assert (Href : fst (luaL_ref (registry b) (List.last args LNil)) = LUA_REFNIL
                 \/ fst (luaL_ref (registry b) (List.last args LNil))
                    = fresh_ref (registry b)).
  { unfold luaL_ref. destruct (List.last args LNil); auto. }
  destruct (luaL_ref (registry b) (List.last args LNil)) as [ref reg].
  cbn [fst] in Href.
  destruct (callback_of_value ty) as [k0|]; cbn [fst ctx]; [|auto].
  destruct (decide (k = k0)) as [->|Hne].
  - rewrite slot_set_slot. tauto.
  - rewrite slot_set_slot_other by exact Hne. auto.
Qed.

Lemma callback_sets_invariant (reg : lua_registry) calls : forall b,
  slots_anchored b ->
  (forall r v, reg !! r = Some v -> registry b !! r = Some v) ->
  (forall k, slot (ctx b) k <> LUA_REFNIL -> reg !! slot (ctx b) k = None) ->
  slots_anchored (callback_sets N C b calls)
  /\ (forall r v, reg !! r = Some v ->
        registry (callback_sets N C b calls) !! r = Some v)
  /\ (forall k, slot (ctx (callback_sets N C b calls)) k <> LUA_REFNIL ->
        reg !! slot (ctx (callback_sets N C b calls)) k = None).
Proof.
  induction calls as [|args calls IH]; intros b Hinv Hreg Hslots; [auto|].
  cbn [callback_sets]. apply IH.
  - apply ctx_callback_set_keeps_anchored. exact Hinv.
  - intros r v Hr. apply ctx_callback_set_keeps_registry. auto.
  - intros k Hk.
    destruct (ctx_callback_set_slot b args k) as [Heq | [Heq | Heq]];
      rewrite Heq in *.
    + apply Hslots. exact Hk.
    + congruence.
    + destruct (reg !! fresh_ref (registry b)) as [v|] eqn:Hv; [|reflexivity].
      apply Hreg in Hv. rewrite fresh_ref_unused in Hv. discriminate.
Qed.

Lemma mosq_new_invariant reg calls :
  slots_anchored (callback_sets N C (mosq_new reg) calls)
  /\ (forall r v, reg !! r = Some v ->
        registry (callback_sets N C (mosq_new reg) calls) !! r = Some v)
  /\ (forall k, slot (ctx (callback_sets N C (mosq_new reg) calls)) k
                <> LUA_REFNIL ->
        reg !! slot (ctx (callback_sets N C (mosq_new reg) calls)) k = None).
Proof.
  apply callback_sets_invariant.
  - intros k Hk. exfalso. apply Hk. destruct k; reflexivity.
  - auto.
  - intros k Hk. exfalso. apply Hk. destruct k; reflexivity.
Qed.

(** X4.  On a client created by [mosq_new], after any run of
    [callback_set] calls (failing ones included), every slot that holds a
    reference holds a non-negative one that the registry anchors, has its
    trampoline installed in the native client, and shares the reference
    with no other slot; and every reference the registry held when the
    client was created - those of other clients among them - is still
    anchored to the same value, and is in no slot of this client. *)
Theorem callback_sets_keep_slots_anchored reg calls :
  slots_anchored (callback_sets N C (mosq_new reg) calls)
  /\ (forall r v, reg !! r = Some v ->
        registry (callback_sets N C (mosq_new reg) calls) !! r = Some v)
  /\ (forall k, slot (ctx (callback_sets N C (mosq_new reg) calls)) k
                <> LUA_REFNIL ->
        reg !! slot (ctx (callback_sets N C (mosq_new reg) calls)) k = None).
Proof.
  apply callback_sets_invariant.
  - intros k Hk. exfalso. apply Hk. destruct k; reflexivity.
  - intros r v Hr. exact Hr.
  - intros k Hk. exfalso. apply Hk. destruct k; reflexivity.
Qed.

Lemma ctx_callback_set_registers b k f :
  ctx_callback_set N C b [LString (callback_name k); LFunction f] =
    ({| registry := <[fresh_ref (registry b) := LFunction f]> (registry b);
        ctx := set_slot (ctx b) k (fresh_ref (registry b));
        mosq_callbacks := fun k' =>
          if decide (k' = k) then true else mosq_callbacks b k' |},
     Return [LBoolean true]).
Proof.
  unfold ctx_callback_set.
  cbn [lookup list_lookup callback_selector lua_isstring lua_tolstring].
  rewrite callback_type_from_name.
  cbn [from_option lua_isfunction negb List.last luaL_ref].
  rewrite callback_of_value_value. reflexivity.
Qed.

End SelectFacts.

Lemma numeric_selector_is_rejected_witness :
  ctx_callback_set (libmosquitto text_sample) libc_sample (mosq_new ∅)
    [LNumber 0; LFunction 1%nat]
  = (mosq_new ∅, Error "not a proper callback type").
Proof.
  apply (numeric_selector_is_rejected (libmosquitto text_sample) libc_sample
           (mosq_new ∅) 0 1%nat).
  reflexivity.
Defined.

Lemma failed_callback_set_changes_nothing_witness :
  fst (ctx_callback_set (libmosquitto text_sample) libc_sample
         (callback_sets (libmosquitto text_sample) libc_sample (mosq_new ∅)
            [[LString "ON_CONNECT"; LFunction 1%nat]])
         [LString "LOG_INFO"; LFunction 2%nat])
  = callback_sets (libmosquitto text_sample) libc_sample (mosq_new ∅)
      [[LString "ON_CONNECT"; LFunction 1%nat]].
Proof.
  apply (failed_callback_set_changes_nothing (libmosquitto text_sample)
           libc_sample _ _ "not a proper callback type").
  reflexivity.
Defined.

(** ** What a handler receives *)

Section DecodeFrame.
Context (N : native).




End DecodeFrame.

(** A list with a user property whose copy cannot be allocated: the decoder
    returns with the new table of user properties above the root table,
    and the trampoline, which ignores the result code, then calls the
    message id instead of the handler. *)
Lemma decoder_nomem_leaves_two_tables :
  let N := with_allocation (libmosquitto text_sample) (fun _ => false) in
  let props := [{| identifier := MQTT_PROP_USER_PROPERTY;
                   value := V_pair "a" "1" |}] in
  let b := fst (ctx_callback_set N libc_sample (mosq_new ∅)
                  [LString "ON_UNSUBSCRIBE_V5"; LFunction 1%nat]) in
  create_lua_stack_from_property_list N [] props
    = Some (MOSQ_ERR_NOMEM, [LTable []; LTable []])
  /\ mosquitto_deliver N b (UnsubscribeV5 7 props)
     = Some (CallError "attempt to call a number value").
Proof. vm_compute. split; reflexivity. Qed.

Section HandlerFacts.
Context (N : native) (C : libc).

Lemma callback_sets_keep_handler calls : forall b k v,
  (forall args, args ∈ calls -> leaves_kind N k args) ->
  registry b !! slot (ctx b) k = Some v ->
  mosq_callbacks b k = true ->
  lua_rawgeti (registry (callback_sets N C b calls))
    (slot (ctx (callback_sets N C b calls)) k) = v
  /\ mosq_callbacks (callback_sets N C b calls) k = true.
Proof.
  induction calls as [|args calls IH]; intros b k v Hleft Hreg Hcb.
  - cbn [callback_sets]. unfold lua_rawgeti. rewrite Hreg. auto.
  - cbn [callback_sets].
    destruct (ctx_callback_set_leaves_kind N C b args k) as [Hslot Hcb'].
    { apply Hleft. left. }
    apply IH.
    + intros args' Hin. apply Hleft. right. exact Hin.
    + rewrite Hslot. apply ctx_callback_set_keeps_registry. exact Hreg.
    + rewrite Hcb'. exact Hcb.
Qed.

(** X6.  Every trampoline calls the value its slot's reference fetches
    from the registry - a function directly, another value through its
    [__call] metamethod with the value itself before the arguments, and
    without one the call raises - with the event's values as positional
    arguments in the order pushed: for a subscribe acknowledgement the
    message id, then (for v5) the properties, then one argument per
    granted QoS.  The count given to [lua_call] is that of the values
    pushed when the decoder left one table.  The decoder's result code is
    ignored: after [MOSQ_ERR_NOMEM] the handler gets the partial table,
    and when the decoder left two tables the count is one short, so that
    the call is made on the first argument instead of the handler. *)
Theorem trampoline_passes_event_arguments b e :
  dispatch N b e =
    (let callee := lua_rawgeti (registry b) (slot (ctx b) (event_kind e)) in
     match event_properties e with
     | None => call (lua_call_metamethod N) callee (event_arguments N e [])
     | Some props =>
         match create_lua_stack_from_property_list N [] props with
         | Some (_, [t]) =>
             call (lua_call_metamethod N) callee (event_arguments N e [t])
         | Some (_, [nested; root]) =>
             match event_arguments N e [root; nested] with
             | first :: rest => call (lua_call_metamethod N) first rest
             | [] => NoDefinedBehaviour
             end
         | _ => NoDefinedBehaviour
         end
     end)
  /\ (forall t,
        length (event_arguments N e
                  (match event_properties e with
                   | None => []
                   | Some _ => [t]
                   end)) = arity e).
Proof.
  split.
  - rewrite dispatch_call. unfold handler_call. cbn zeta.
    destruct (event_properties e) as [props|]; [|reflexivity].
    destruct (create_lua_stack_from_property_list N [] props)
      as [[rc tables]|] eqn:Hdec; [|reflexivity].
    apply create_lua_stack_one_or_two in Hdec
      as [[t ->] | (nested & root & ->)]; reflexivity.
  - intros t. destruct e; cbn [event_properties event_arguments arity length app];
      rewrite ?length_map; reflexivity.
Qed.

(** X7.  Once a function has been registered for an event kind, an event
    of that kind is delivered to the trampoline with that function as the
    callee, also after any number of later [callback_set] calls each of
    which selects another kind or raises (whatever kind it names): an
    event without properties, and a v5 event for which the decoder leaves
    one table - complete, or partial after [MOSQ_ERR_NOMEM] - calls the
    function with the event's arguments; when the decoder leaves two
    tables the call is made on the first argument, and when it has no
    defined behaviour so has the trampoline. *)
Theorem registered_handler_is_called b f e calls :
  (forall args, args ∈ calls -> leaves_kind N (event_kind e) args) ->
  mosquitto_deliver N
    (callback_sets N C
       (fst (ctx_callback_set N C b
               [LString (callback_name (event_kind e)); LFunction f]))
       calls) e =
    Some (match event_properties e with
          | None => Called f (event_arguments N e [])
          | Some props =>
              match create_lua_stack_from_property_list N [] props with
              | Some (_, [t]) => Called f (event_arguments N e [t])
              | Some (_, [nested; root]) =>
                  match event_arguments N e [root; nested] with
                  | first :: rest => call (lua_call_metamethod N) first rest
                  | [] => NoDefinedBehaviour
                  end
              | _ => NoDefinedBehaviour
              end
          end).
Proof.
  intros Hleft.
  rewrite (ctx_callback_set_registers N C b (event_kind e) f). cbn [fst].
  set (b1 := {| registry := <[fresh_ref (registry b) := LFunction f]> (registry b);
                ctx := set_slot (ctx b) (event_kind e) (fresh_ref (registry b));
                mosq_callbacks := fun k' =>
                  if decide (k' = event_kind e) then true
                  else mosq_callbacks b k' |}).
  assert (Hreg : registry b1 !! slot (ctx b1) (event_kind e)
                 = Some (LFunction f)).
  { cbn [b1 registry ctx]. rewrite slot_set_slot. apply lookup_insert_eq. }
  assert (Hcb : mosq_callbacks b1 (event_kind e) = true).
  { cbn [b1 mosq_callbacks].
    destruct (decide (event_kind e = event_kind e)); congruence. }
  destruct (callback_sets_keep_handler calls b1 (event_kind e) (LFunction f)
              Hleft Hreg Hcb) as [Hfetch Hinstalled].
  unfold mosquitto_deliver. rewrite Hinstalled, dispatch_call, Hfetch.
  unfold handler_call.
  destruct (event_properties e) as [props|]; [|reflexivity].
  destruct (create_lua_stack_from_property_list N [] props)
    as [[rc tables]|] eqn:Hdec; [|reflexivity].
  apply create_lua_stack_one_or_two in Hdec
    as [[t ->] | (nested & root & ->)]; reflexivity.
Qed.

(** X8.  The payload of a publish is taken with its length, and the
    message trampoline pushes a received payload with its length: a payload
    string with embedded NUL bytes is handed to the library whole, and a
    message that carries these bytes reaches the handler as the same
    string. *)
Theorem payload_is_binary_safe checkinteger args p s b f msg :
  parse_basic_parameter_for_publish N checkinteger args = Some p ->
  args !! 1%nat = Some (LString s) ->
  lua_rawgeti (registry b) (on_message (ctx b)) = LFunction f ->
  payload msg = s -> payloadlen msg = p_payloadlen p ->
  p_payload p = Some s
  /\ p_payloadlen p = Z.of_nat (String.length s)
  /\ ctx_on_message N b msg =
       Called f [lua_integer (mid msg); LString (c_str (topic msg)); LString s;
                 lua_integer (qos msg); LBoolean (retain msg)].
Proof.
  unfold parse_basic_parameter_for_publish. intros Hparse Harg Hf Hpay Hlen.
  rewrite Harg in Hparse. cbn [lua_tolstring] in Hparse.
  destruct (luaL_checkstring (args !! 0%nat) (lua_number2str N)) as [tp|];
    [|discriminate].
  cbn [mbind option_bind] in Hparse.
  destruct (match args !! 2%nat with
            | Some LNil | None => Some 0
            | Some v => checkinteger v
            end) as [q|]; [|discriminate].
  cbn [mbind option_bind] in Hparse. injection Hparse as <-.
  cbn [p_payload p_payloadlen] in *.
  split; [reflexivity|]. split; [reflexivity|].
  change (ctx_on_message N b msg) with (dispatch N b (Message msg)).
  rewrite dispatch_call. unfold handler_call.
  cbn [event_properties event_kind slot].
  rewrite Hf. cbn [call event_arguments].
  rewrite Hlen, Hpay, Nat2Z.id, take_bytes_all. reflexivity.
Qed.

End HandlerFacts.

Lemma registered_handler_is_called_witness :
  mosquitto_deliver (libmosquitto text_sample)
    (callback_sets (libmosquitto text_sample) libc_sample
       (fst (ctx_callback_set (libmosquitto text_sample) libc_sample
               (mosq_new ∅) [LString "ON_SUBSCRIBE_V5"; LFunction 1%nat]))
       [[LString "ON_LOG"; LFunction 2%nat];
        [LString "ON_SUBSCRIBE_V5"; LNumber 5];
        [LString "LOG_ALL"; LFunction 3%nat]])
    (SubscribeV5 4 [0; 2]
       [{| identifier := MQTT_PROP_REASON_STRING; value := V_s "ok" |}])
  = Some (Called 1%nat
            [LNumber 4; LTable [(LString "reason-string", LString "ok")];
             LNumber 0; LNumber 2]).
Proof.
  refine (registered_handler_is_called (libmosquitto text_sample) libc_sample
            (mosq_new ∅) 1%nat
            (SubscribeV5 4 [0; 2]
               [{| identifier := MQTT_PROP_REASON_STRING; value := V_s "ok" |}])
            [[LString "ON_LOG"; LFunction 2%nat];
             [LString "ON_SUBSCRIBE_V5"; LNumber 5];
             [LString "LOG_ALL"; LFunction 3%nat]] _).
  intros args Hin.
  apply elem_of_cons in Hin as [-> | Hin]; [left; discriminate|].
  apply elem_of_cons in Hin as [-> | Hin]; [right; reflexivity|].
  apply list_elem_of_singleton in Hin. subst args. left. discriminate.
Defined.

Lemma payload_is_binary_safe_witness :
  let msg := {| mid := 1; topic := "t"; payload := blob_a_nul_b;
                payloadlen := 3; qos := 0; retain := false |} in
  ctx_on_message (libmosquitto text_sample)
    (fst (ctx_callback_set (libmosquitto text_sample) libc_sample (mosq_new ∅)
            [LString "ON_MESSAGE"; LFunction 1%nat])) msg
  = Called 1%nat [LNumber 1; LString "t"; LString blob_a_nul_b; LNumber 0;
                  LBoolean false].
Proof.
  cbn zeta.
  refine (proj2 (proj2 (payload_is_binary_safe (libmosquitto text_sample)
                          (fun _ => None)
                          [LString "t"; LString blob_a_nul_b]
                          {| p_topic := "t"; p_payload := Some blob_a_nul_b;
                             p_payloadlen := 3; p_qos := 0; p_retain := false |}
                          blob_a_nul_b _ 1%nat _ _ _ _ _ _)));
    reflexivity.
Defined.

(** ** Releasing the handlers *)

Lemma luaL_unref_lookup_None reg ref r :
  reg !! r = None -> luaL_unref reg ref !! r = None.
Proof.
  unfold luaL_unref. intros H. destruct (0 <=? ref); [|exact H].
  destruct (decide (ref = r)) as [->|Hne].
  - apply lookup_delete_eq.
  - rewrite lookup_delete_ne by exact Hne. exact H.
Qed.

Lemma luaL_unref_lookup_eq reg ref :
  0 <= ref -> luaL_unref reg ref !! ref = None.
Proof.
  unfold luaL_unref. intros H. apply Z.leb_le in H. rewrite H.
  apply lookup_delete_eq.
Qed.

Lemma luaL_unref_lookup_ne reg ref r :
  (0 <= ref -> r <> ref) -> luaL_unref reg ref !! r = reg !! r.
Proof.
  unfold luaL_unref. intros H. destruct (0 <=? ref) eqn:Hpos; [|reflexivity].
  apply Z.leb_le in Hpos. apply lookup_delete_ne. intros ->. exact (H Hpos eq_refl).
Qed.

Lemma ctx__on_clear_released reg ctx k :
  0 <= slot ctx k -> ctx__on_clear reg ctx !! slot ctx k = None.
Proof.
  intros Hpos. unfold ctx__on_clear. cbn zeta.
  destruct k; cbn [slot] in *;
    repeat first [ apply luaL_unref_lookup_eq; exact Hpos
                 | apply luaL_unref_lookup_None ].
Qed.

Lemma ctx__on_clear_other reg ctx r :
  (forall k, 0 <= slot ctx k -> slot ctx k <> r) ->
  ctx__on_clear reg ctx !! r = reg !! r.
Proof.
  intros Hne. unfold ctx__on_clear. cbn zeta.
  pose proof (Hne CALLBACK_ON_CONNECT). pose proof (Hne CALLBACK_ON_CONNECT_V5).
  pose proof (Hne CALLBACK_ON_DISCONNECT).
  pose proof (Hne CALLBACK_ON_DISCONNECT_V5).
  pose proof (Hne CALLBACK_ON_PUBLISH). pose proof (Hne CALLBACK_ON_PUBLISH_V5).
  pose proof (Hne CALLBACK_ON_MESSAGE). pose proof (Hne CALLBACK_ON_MESSAGE_V5).
  pose proof (Hne CALLBACK_ON_SUBSCRIBE).
  pose proof (Hne CALLBACK_ON_SUBSCRIBE_V5).
  pose proof (Hne CALLBACK_ON_UNSUBSCRIBE).
  pose proof (Hne CALLBACK_ON_UNSUBSCRIBE_V5).
  pose proof (Hne CALLBACK_ON_LOG).
  cbn [slot] in *.
  rewrite !luaL_unref_lookup_ne by (intros ? ->; intuition). reflexivity.
Qed.

Section ReleaseFacts.
Context (N : native) (C : libc).

(** X9.  Destroying a client on which any run of [callback_set] calls was
    made releases the reference of every slot that holds one and leaves
    every reference that is in no slot of the client as it was - those the
    registry held before the client was created among them. *)
Theorem destroy_releases_the_slots reg calls :
  let b := callback_sets N C (mosq_new reg) calls in
  let b' := fst (ctx_destroy C b) in
  (forall k, slot (ctx b) k <> LUA_REFNIL ->
     registry b' !! slot (ctx b) k = None)
  /\ (forall r, (forall k, slot (ctx b) k <> r) ->
        registry b' !! r = registry b !! r)
  /\ (forall r v, reg !! r = Some v -> registry b' !! r = Some v).
Proof.
  cbn zeta. cbn [ctx_destroy fst registry].
  destruct (mosq_new_invariant N C reg calls) as (Hinv & Hreg & Hslots).
  split; [|split].
  - intros k Hk. apply ctx__on_clear_released. apply (Hinv k Hk).
  - intros r Hr. apply ctx__on_clear_other. intros k _. apply Hr.
  - intros r v Hr. rewrite ctx__on_clear_other; [apply Hreg; exact Hr|].
    intros k Hpos Heq.
    assert (Hk : slot (ctx (callback_sets N C (mosq_new reg) calls)) k
                 <> LUA_REFNIL) by (unfold LUA_REFNIL; lia).
    apply Hslots in Hk. rewrite Heq, Hr in Hk. discriminate.
Qed.

Lemma callback_sets_app calls1 : forall b calls2,
  callback_sets N C b (calls1 ++ calls2)
  = callback_sets N C (callback_sets N C b calls1) calls2.
Proof.
  induction calls1 as [|args calls1 IH]; intros b calls2; [reflexivity|].
  cbn [callback_sets app]. apply IH.
Qed.

(** X10.  A handler that was replaced by a second registration for the
    same kind outlives the client: after the second registration no slot
    holds its reference, so destroying the client releases the reference of
    the second handler and leaves the first one anchored in the registry. *)
Theorem replaced_handler_survives_destroy reg calls k f1 f2 :
  let b := callback_sets N C (mosq_new reg) calls in
  let b1 := fst (ctx_callback_set N C b
                   [LString (callback_name k); LFunction f1]) in
  let b2 := fst (ctx_callback_set N C b1
                   [LString (callback_name k); LFunction f2]) in
  let b3 := fst (ctx_destroy C b2) in
  registry b1 !! slot (ctx b1) k = Some (LFunction f1)
  /\ (forall k', slot (ctx b2) k' <> slot (ctx b1) k)
  /\ registry b3 !! slot (ctx b1) k = Some (LFunction f1)
  /\ registry b3 !! slot (ctx b2) k = None.
Proof.
  cbn zeta.
  destruct (mosq_new_invariant N C reg calls) as (Hinv & _ & _).
  set (b := callback_sets N C (mosq_new reg) calls) in *.
  rewrite (ctx_callback_set_registers N C b k f1). cbn [fst].
  set (r1 := fresh_ref (registry b)).
  set (b1 := {| registry := <[r1 := LFunction f1]> (registry b);
                ctx := set_slot (ctx b) k r1;
                mosq_callbacks := fun k' =>
                  if decide (k' = k) then true else mosq_callbacks b k' |}).
  rewrite (ctx_callback_set_registers N C b1 k f2). cbn [fst].
  set (r2 := fresh_ref (registry b1)).
  cbn [ctx_destroy fst registry ctx].
  assert (Hr1 : slot (ctx b1) k = r1) by apply slot_set_slot.
  assert (Hlook1 : registry b1 !! r1 = Some (LFunction f1))
    by apply lookup_insert_eq.
  assert (Hlt : r1 < r2) by exact (proj2 (fresh_ref_bound (registry b1)) _ _ Hlook1).
  assert (Hpos1 : 0 < r1) by exact (proj1 (fresh_ref_bound (registry b))).
  assert (Hnone : forall k', slot (set_slot (ctx b1) k r2) k' <> r1).
  { intros k'. destruct (decide (k' = k)) as [->|Hne].
    - rewrite slot_set_slot. lia.
    - rewrite slot_set_slot_other by exact Hne.
      cbn [ctx b1]. rewrite slot_set_slot_other by exact Hne.
      destruct (decide (slot (ctx b) k' = LUA_REFNIL)) as [Hnil|Hnn].
      + rewrite Hnil. unfold LUA_REFNIL. lia.
      + destruct (Hinv k' Hnn) as (_ & [v Hv] & _).
        intros Heq. rewrite Heq in Hv. unfold r1 in Hv.
        rewrite fresh_ref_unused in Hv. discriminate. }
  rewrite Hr1. split; [exact Hlook1|]. split; [exact Hnone|]. split.
  - rewrite ctx__on_clear_other by (intros k' _; apply Hnone).
    rewrite lookup_insert_ne by lia. exact Hlook1.
  - apply ctx__on_clear_released. rewrite slot_set_slot. lia.
Qed.

(** X11.  [reinitialise] never reaches [mosquitto_reinitialise]: the client
    id is read from stack index 1, where the client itself lies, so
    whatever the arguments the call raises an error and the client is left
    as it was. *)
Theorem reinitialise_always_raises is_ctx b stack rc :
  exists msg, ctx_reinitialise N C is_ctx b stack rc = (b, Error msg).
Proof.
  unfold ctx_reinitialise, ctx_check, luaL_optstring, luaL_checkstring.
  destruct (stack !! 0%nat) as [[| | | | | |u]|]; cbn [negb]; eauto.
  destruct (is_ctx u); cbn [negb]; eauto.
Qed.

End ReleaseFacts.

(** ** Library initialisation *)

(** X12.  [init] tests the flag [mosq_initialized] but never sets it, and
    [cleanup] clears it: while the flag is set an [init] call does nothing,
    and once the flag is clear it stays clear, so from then on every [init]
    call calls [mosquitto_lib_init] again, however many [cleanup] calls
    come in between. *)
Theorem init_after_cleanup_is_repeated C calls : forall m,
  (mosq_initialized m <> 0 -> fst (mosq_init C m) = m)
  /\ (mosq_initialized m = 0 ->
      mosq_initialized (fold_left (module_step C) calls m) = 0
      /\ lib_init_calls (fold_left (module_step C) calls m)
         = (lib_init_calls m + length (List.filter is_init calls))%nat).
Proof.
  induction calls as [|c calls IH]; intros m.
  - split.
    + intros Hm. unfold mosq_init. apply Z.eqb_neq in Hm. rewrite Hm. reflexivity.
    + intros Hm. cbn. split; [exact Hm | lia].
  - split; [apply (IH m)|].
    intros Hm. cbn [fold_left List.filter].
    destruct c; cbn [module_step is_init mosq_init mosq_cleanup fst].
    + rewrite (proj2 (Z.eqb_eq (mosq_initialized m) 0) Hm).
      destruct (proj2 (IH {| mosq_initialized := mosq_initialized m;
                             lib_init_calls := S (lib_init_calls m);
                             lib_cleanup_calls := lib_cleanup_calls m |}) Hm)
        as [H0 Hn].
      split; [exact H0|]. rewrite Hn. cbn [lib_init_calls length]. lia.
    + destruct (proj2 (IH {| mosq_initialized := 0;
                             lib_init_calls := lib_init_calls m;
                             lib_cleanup_calls := S (lib_cleanup_calls m) |})
                  eq_refl) as [H0 Hn].
      split; [exact H0|]. rewrite Hn. reflexivity.
Qed.

Lemma init_after_cleanup_is_repeated_witness :
  let loaded := luaopen_mosquitto {| mosq_initialized := 0; lib_init_calls := 0;
                                     lib_cleanup_calls := 0 |} in
  fst (mosq_init libc_sample loaded) = loaded
  /\ lib_init_calls
       (fold_left (module_step libc_sample) [CallInit; CallInit]
          (fst (mosq_cleanup libc_sample loaded))) = 3%nat.
Proof.
  cbn zeta. split.
  - apply (proj1 (init_after_cleanup_is_repeated libc_sample [] _)).
    discriminate.
  - exact (proj2 (proj2 (init_after_cleanup_is_repeated libc_sample
                           [CallInit; CallInit]
                           {| mosq_initialized := 0; lib_init_calls := 1;
                              lib_cleanup_calls := 1 |}) eq_refl)).
Defined.

(** ** Encoding, then decoding *)

Lemma c_str_idempotent s : c_str (c_str s) = c_str s.
Proof.
  induction s as [|c s IH]; cbn [c_str]; [reflexivity|].
  destruct (Ascii.eqb c NUL) eqn:Hc; [reflexivity|].
  cbn [c_str]. rewrite Hc, IH. reflexivity.
Qed.

Lemma double_to_int_range q z :
  double_to_int q = Some z -> INT_MIN <= z <= INT_MAX.
Proof.
  unfold double_to_int. cbn zeta.
  set (t := Z.quot (Qnum q) (Z.pos (Qden q))).
  destruct (INT_MIN <=? t) eqn:H1; cbn [andb]; [|discriminate].
  destruct (t <=? INT_MAX) eqn:H2; [|discriminate].
  intros [= <-]. lia.
Qed.

Lemma member_false x l : member x l = false -> ~ In x l.
Proof.
  intros Hm Hin. unfold member in Hm.
  assert (existsb (Z.eqb x) l = true); [|congruence].
  apply existsb_exists. exists x. split; [exact Hin | apply Z.eqb_refl].
Qed.

Lemma registry_name_identifier s id ty :
  registry_by_name s property_registry = Some (id, ty) ->
  registry_by_identifier id property_registry = Some (lowercase s).
Proof.
  unfold property_registry. cbn [registry_by_name].
  repeat match goal with
         | |- context [String.eqb (lowercase s) ?n] =>
             let E := fresh "E" in
             destruct (String.eqb (lowercase s) n) eqn:E;
             [apply String.eqb_eq in E; rewrite E; intros [= <- <-];
              reflexivity|]
         end.
  discriminate.
Qed.

Lemma registry_identifier_name id n :
  registry_by_identifier id property_registry = Some n ->
  exists ty, registry_by_name n property_registry = Some (id, ty).
Proof.
  unfold property_registry. cbn [registry_by_identifier].
  repeat match goal with
         | |- context [id =? ?i] =>
             let E := fresh "E" in
             destruct (id =? i) eqn:E;
             [apply Z.eqb_eq in E; subst id; intros [= <-]; eexists;
              reflexivity|]
         end.
  discriminate.
Qed.

Lemma registry_identifier_injective id1 id2 n :
  registry_by_identifier id1 property_registry = Some n ->
  registry_by_identifier id2 property_registry = Some n ->
  id1 = id2.
Proof.
  intros H1 H2.
  apply registry_identifier_name in H1 as [ty1 H1].
  apply registry_identifier_name in H2 as [ty2 H2].
  congruence.
Qed.

Ltac each_identifier Hm :=
  apply member_In in Hm; cbn in Hm;
  repeat (destruct Hm as [<- | Hm]; [split; reflexivity|]);
  destruct Hm.

Lemma pushed_value_byte id z :
  member id byte_identifiers = true ->
  fits {| identifier := id; value := V_i8 z |} = true
  /\ pushed_value {| identifier := id; value := V_i8 z |} = Some (lua_integer z).
Proof. intros Hm. each_identifier Hm. Qed.

Lemma pushed_value_int16 id z :
  member id int16_identifiers = true ->
  fits {| identifier := id; value := V_i16 z |} = true
  /\ pushed_value {| identifier := id; value := V_i16 z |} = Some (lua_integer z).
Proof. intros Hm. each_identifier Hm. Qed.

Lemma pushed_value_int32 id z :
  member id int32_identifiers = true ->
  fits {| identifier := id; value := V_i32 z |} = true
  /\ pushed_value {| identifier := id; value := V_i32 z |} = Some (lua_integer z).
Proof. intros Hm. each_identifier Hm. Qed.

Lemma pushed_value_varint id z :
  member id varint_identifiers = true ->
  fits {| identifier := id; value := V_varint z |} = true
  /\ pushed_value {| identifier := id; value := V_varint z |}
     = Some (lua_integer z).
Proof. intros Hm. each_identifier Hm. Qed.

Lemma pushed_value_string id s :
  member id string_identifiers = true ->
  fits {| identifier := id; value := V_s s |} = true
  /\ pushed_value {| identifier := id; value := V_s s |}
     = Some (LString (c_str s)).
Proof. intros Hm. each_identifier Hm. Qed.

Lemma pushed_value_binary id b :
  member id binary_identifiers = true ->
  fits {| identifier := id; value := V_bin b |} = true
  /\ pushed_value {| identifier := id; value := V_bin b |} = Some (LString b).
Proof.
  intros Hm.
  assert (Hlen : take_bytes (Z.to_nat (Z.of_nat (String.length b))) b = b)
    by (rewrite Nat2Z.id; apply take_bytes_all).
  apply member_In in Hm; cbn in Hm.
  repeat (destruct Hm as [<- | Hm];
          [split; [reflexivity|];
           unfold pushed_value, decode_switch, mosquitto_property_read_binary,
             lua_pushlstring;
           cbn [member existsb identifier value mbind option_bind orb];
           cbn; rewrite Hlen; reflexivity|]).
  destruct Hm.
Qed.

Lemma scan_returned N t : forall rc0 pl rc pl',
  scan N t rc0 pl = Returned rc pl' -> rc = MOSQ_ERR_INVAL.
Proof.
  induction t as [|[k v] t IH]; intros rc0 pl rc pl'; cbn [scan];
    [discriminate|].
  destruct (add_entry N pl k v) as [rc1 pl1|rc1 pl1|pl1|] eqn:Hentry;
    try discriminate.
  - destruct (negb (rc1 =? MOSQ_ERR_SUCCESS)); [discriminate|].
    destruct (key_survives k); [apply IH | discriminate].
  - intros [= <- <-]. revert Hentry. unfold add_entry.
    destruct (mosquitto_string_to_property_info N (lua_tolstring N k))
      as [rc2 [id ty]].
    destruct (negb (rc2 =? MOSQ_ERR_SUCCESS)); [discriminate|].
    intros H. apply add_value_returned in H. tauto.
Qed.

Lemma check_all_NoDup command pl :
  check_all command pl = MOSQ_ERR_SUCCESS ->
  Forall (fun p => identifier p <> MQTT_PROP_USER_PROPERTY) pl ->
  NoDup (map identifier pl).
Proof.
  induction pl as [|p pl IH]; cbn [check_all map]; intros Hcheck Hids.
  - constructor.
  - apply Forall_cons in Hids as [Hp Hids].
    destruct (negb (property_value_ok p)); [discriminate|].
    destruct (mosquitto_property_check_command command (identifier p)
              =? MOSQ_ERR_SUCCESS) eqn:Hcmd; cbn [negb] in Hcheck.
    2:{ apply Z.eqb_neq in Hcmd. congruence. }
    apply Z.eqb_neq in Hp. rewrite Hp in Hcheck. cbn [negb andb] in Hcheck.
    destruct (member (identifier p) (map identifier pl)) eqn:Hm;
      [discriminate|].
    apply NoDup_cons. split; [|apply IH; assumption].
    rewrite list_elem_of_In. apply member_false. exact Hm.
Qed.

Lemma user_pairs_single_valued l :
  Forall (fun p => identifier p <> MQTT_PROP_USER_PROPERTY) l ->
  user_pairs l = [].
Proof.
  induction l as [|p l IH]; intros H; [reflexivity|].
  apply Forall_cons in H as [Hp H]. cbn [user_pairs].
  apply Z.eqb_neq in Hp. rewrite Hp. apply IH. exact H.
Qed.

Section RoundTrip.
Context (T : library_text).

Lemma create_lua_stack_fits L l :
  Forall (fun p => fits p = true) l ->
  create_lua_stack_from_property_list (libmosquitto T) L l =
    Some (MOSQ_ERR_SUCCESS,
          LTable (direct_fields (libmosquitto T) l ++ user_field l) :: L).
Proof.
  intros Hfits. unfold create_lua_stack_from_property_list.
  change (lua_newtable L) with (scan_stack [] None L).
  change 0 with (created_flag None) at 1.
  rewrite (decode_loop_spec (libmosquitto T) l [] None L
             (fun _ => eq_refl) Hfits (libmosquitto_names T l)).
  cbn [mbind option_bind].
  rewrite fold_user_step. unfold user_field, nested_table.
  fold (direct_fields (libmosquitto T) l).
  destruct (user_pairs l) as [|kv pairs].
  - rewrite app_nil_r. reflexivity.
  - rewrite <- (table_set_absent (direct_fields (libmosquitto T) l)
                  "user-property");
      [reflexivity|].
    unfold direct_fields. rewrite direct_fields_no_user_property.
    reflexivity.
Qed.

Lemma add_entry_scalar pl k v pl1 :
  is_scalar v = true ->
  key_survives k = true ->
  add_entry (libmosquitto T) pl k v = Fallthrough MOSQ_ERR_SUCCESS pl1 ->
  exists p name v',
    pl1 = pl ++ [p]
    /\ decoded_entry (k, v) = Some (LString name, v')
    /\ fits p = true
    /\ pushed_value p = Some v'
    /\ registry_by_identifier (identifier p) property_registry = Some name.
Proof.
  intros Hscalar Hkey. unfold add_entry.
  cbn [libmosquitto mosquitto_string_to_property_info].
  destruct k as [| | |name| | |]; cbn [lua_tolstring key_survives] in *;
    try discriminate Hkey.
  all: try (cbn iota; change (negb (MOSQ_ERR_INVAL =? MOSQ_ERR_SUCCESS)) with true;
            cbn iota; discriminate).
  destruct (registry_by_name (c_str name) property_registry) as [[id ty]|] eqn:Hreg;
    [|cbn iota; change (negb (MOSQ_ERR_INVAL =? MOSQ_ERR_SUCCESS)) with true;
      cbn iota; discriminate].
  apply registry_name_identifier in Hreg.
  change (negb (MOSQ_ERR_SUCCESS =? MOSQ_ERR_SUCCESS)) with false. cbn iota.
  unfold decoded_entry, decoded_scalar. cbn [fst snd].
  destruct v as [| |q|s| | |]; try discriminate Hscalar; cbn [add_value].
  - destruct (double_to_int q) as [z|] eqn:Hz; [|discriminate].
    pose proof (double_to_int_range q z Hz) as Hrange.
    unfold INT_MIN, INT_MAX in Hrange.
    cbn [fmap option_fmap option_map]. unfold add_number.
    cbn [libmosquitto mosquitto_property_add_byte mosquitto_property_add_int16
         mosquitto_property_add_int32 mosquitto_property_add_varint].
    unfold property_add, int_to_unsigned, UINT8_MAX, UINT16_MAX, UINT32_MAX.
    destruct (ty =? MQTT_PROP_TYPE_BYTE);
      [|destruct (ty =? MQTT_PROP_TYPE_INT16);
        [|destruct (ty =? MQTT_PROP_TYPE_INT32);
          [|destruct (ty =? MQTT_PROP_TYPE_VARINT); [|discriminate]]]].
    + destruct (z <? 0) eqn:H0; cbn [orb]; [discriminate|].
      destruct (z >? 255) eqn:H1; [discriminate|].
      rewrite Z.mod_small by lia.
      destruct (member id byte_identifiers) eqn:Hm;
        [|discriminate].
      intros [= <-]. destruct (pushed_value_byte id z Hm) as [Hfits Hpush].
      eexists _, _, _. repeat split; eauto.
    + destruct (z <? 0) eqn:H0; cbn [orb]; [discriminate|].
      destruct (z >? 65535) eqn:H1; [discriminate|].
      rewrite Z.mod_small by lia.
      destruct (member id int16_identifiers) eqn:Hm;
        [|discriminate].
      intros [= <-]. destruct (pushed_value_int16 id z Hm) as [Hfits Hpush].
      eexists _, _, _. repeat split; eauto.
    + destruct (z <? 0) eqn:H0; cbn [orb]; [discriminate|].
      destruct (z mod 2 ^ 32 >? 4294967295) eqn:H1;
        [discriminate|].
      rewrite Z.mod_small by lia.
      destruct (member id int32_identifiers) eqn:Hm;
        [|discriminate].
      intros [= <-]. destruct (pushed_value_int32 id z Hm) as [Hfits Hpush].
      eexists _, _, _. repeat split; eauto.
    + destruct (z <? 0) eqn:H0; cbn [orb]; [discriminate|].
      destruct (z mod 2 ^ 32 >? 4294967295) eqn:H1;
        [discriminate|].
      rewrite Z.mod_small by lia.
      destruct (z >? 268435455); [discriminate|].
      destruct (member id varint_identifiers) eqn:Hm;
        [|discriminate].
      intros [= <-]. destruct (pushed_value_varint id z Hm) as [Hfits Hpush].
      eexists _, _, _. repeat split; eauto.
  - unfold add_string.
    cbn [libmosquitto mosquitto_property_add_binary
         mosquitto_property_add_string].
    unfold property_add, UINT16_MAX.
    destruct (ty =? MQTT_PROP_TYPE_BINARY);
      [|destruct (ty =? MQTT_PROP_TYPE_STRING); [|discriminate]].
    + destruct (strlen s >? 65535) eqn:H1; [discriminate|].
      pose proof (strlen_nonneg s).
      rewrite Z.mod_small by lia. rewrite take_bytes_strlen.
      destruct (member id binary_identifiers) eqn:Hm;
        [|discriminate].
      intros [= <-].
      destruct (pushed_value_binary id (c_str s) Hm) as [Hfits Hpush].
      eexists _, _, _. repeat split; eauto.
    + destruct (negb (utf8_ok T (Some s)));
        [discriminate|].
      destruct (member id string_identifiers) eqn:Hm;
        [|discriminate].
      intros [= <-].
      destruct (pushed_value_string id (c_str s) Hm) as [Hfits Hpush].
      rewrite c_str_idempotent in Hpush.
      eexists _, _, _. repeat split; eauto.
Qed.

Lemma direct_step_append acc p name v :
  pushed_value p = Some v ->
  registry_by_identifier (identifier p) property_registry = Some name ->
  table_get acc name = None ->
  direct_step (libmosquitto T) acc p = acc ++ [(LString name, v)].
Proof.
  intros Hv Hname Hnone. unfold direct_step. rewrite Hv.
  change (mosquitto_property_identifier_to_string (libmosquitto T) (identifier p))
    with (registry_by_identifier (identifier p) property_registry).
  rewrite Hname.
  destruct (single_valued_name _ (pushed_value_identifier _ _ Hv))
    as (name' & Hname' & Hc & _).
  assert (name' = name) by congruence. subst name'.
  rewrite Hc. apply table_set_absent. exact Hnone.
Qed.

Lemma table_get_app_other acc name v name' :
  name <> name' ->
  table_get (acc ++ [(LString name, v)]) name' = table_get acc name'.
Proof.
  intros Hne. induction acc as [|[k0 v0] acc IH]; cbn [app table_get key_is].
  - destruct (String.eqb name name') eqn:E; [|reflexivity].
    apply String.eqb_eq in E. congruence.
  - destruct (key_is k0 name'); [reflexivity | exact IH].
Qed.

Lemma pushed_value_not_user p v :
  pushed_value p = Some v -> identifier p <> MQTT_PROP_USER_PROPERTY.
Proof.
  intros Hv Hid.
  destruct (single_valued_name _ (pushed_value_identifier _ _ Hv))
    as (name & Hname & _ & Hne).
  rewrite Hid in Hname. cbv in Hname. congruence.
Qed.

Lemma entries_roundtrip t pl0 pl :
  Forall (fun kv => is_scalar (snd kv) = true) t ->
  all_entries_pass (libmosquitto T) t pl0 pl ->
  exists nodes,
    pl = pl0 ++ nodes
    /\ length (omap decoded_entry t) = length t
    /\ Forall (fun p => fits p = true) nodes
    /\ Forall (fun p => identifier p <> MQTT_PROP_USER_PROPERTY) nodes
    /\ forall acc,
         NoDup (map identifier nodes) ->
         (forall p name, p ∈ nodes ->
            registry_by_identifier (identifier p) property_registry = Some name ->
            table_get acc name = None) ->
         fold_left (direct_step (libmosquitto T)) nodes acc
         = acc ++ omap decoded_entry t.
Proof.
  intros Hscalar Hpass.
  induction Hpass as [pl | k v t pl pl1 pl2 Hentry Hkey Hrest IH].
  - exists []. rewrite app_nil_r.
    repeat split; try constructor.
    intros acc _ _. cbn. rewrite app_nil_r. reflexivity.
  - apply Forall_cons in Hscalar as [Hv Hscalar]. cbn [snd] in Hv.
    destruct (add_entry_scalar pl k v pl1 Hv Hkey Hentry)
      as (p & name & v' & -> & Hdec & Hfits & Hpush & Hname).
    destruct (IH Hscalar) as (nodes & -> & Hlen & Hfit & Hids & Hfold).
    exists (p :: nodes). rewrite <- app_assoc. cbn [app omap list_omap].
    unfold omap in *. cbn [list_omap]. rewrite Hdec. cbn [length].
    split; [reflexivity|]. split; [congruence|].
    split; [constructor; assumption|].
    split; [constructor; [exact (pushed_value_not_user p v' Hpush) | assumption]|].
    intros acc Hnd Hacc. cbn [map] in Hnd. apply NoDup_cons in Hnd as [Hp Hnd].
    cbn [fold_left].
    rewrite (direct_step_append acc p name v' Hpush Hname).
    2:{ apply (Hacc p name); [left | exact Hname]. }
    rewrite Hfold; [rewrite <- app_assoc; reflexivity | exact Hnd |].
    intros p' name' Hin Hname'.
    rewrite table_get_app_other.
    + apply (Hacc p' name'); [right; exact Hin | exact Hname'].
    + intros <-. apply Hp.
      rewrite (registry_identifier_injective _ _ _ Hname Hname').
      apply list_elem_of_In, in_map, list_elem_of_In. exact Hin.
Qed.

(** X13.  Encoding a map whose values are numbers and strings and decoding
    the resulting list gives the original map back, entry by entry and in
    the same order, up to what the encoder drops: each key comes back in
    the registry's lower-case spelling, each number without its fraction,
    each string cut at its first NUL.  So whenever the encoder succeeds on
    a map whose keys are spelt as in the registry, whose numbers are
    integers and whose strings hold no NUL, decoding is the inverse of
    encoding. *)
Theorem scalar_properties_roundtrip rc0 t command pl L :
  Forall (fun kv => is_scalar (snd kv) = true) t ->
  create_property_list_from_lua_stack (libmosquitto T) rc0 t [] command
    = Returned MOSQ_ERR_SUCCESS pl ->
  create_lua_stack_from_property_list (libmosquitto T) L pl =
    Some (MOSQ_ERR_SUCCESS, LTable (omap decoded_entry t) :: L)
  /\ length (omap decoded_entry t) = length t
  /\ ((forall kv, kv ∈ t -> decoded_entry kv = Some kv) ->
      create_lua_stack_from_property_list (libmosquitto T) L pl =
        Some (MOSQ_ERR_SUCCESS, LTable t :: L)).
Proof.
  intros Hscalar Henc.
  assert (Hpass : all_entries_pass (libmosquitto T) t [] pl
                  /\ check_all command pl = MOSQ_ERR_SUCCESS).
  { revert Henc. unfold create_property_list_from_lua_stack.
    destruct (scan (libmosquitto T) t rc0 []) as [rc pl'|rc pl'|pl'|] eqn:Hscan;
      try discriminate.
    - destruct (rc =? MOSQ_ERR_SUCCESS) eqn:Hrc; cbn [negb].
      2:{ intros [= -> _]. discriminate. }
      apply Z.eqb_eq in Hrc. subst rc.
      cbn [libmosquitto mosquitto_property_check_all].
      destruct (check_all command pl' =? MOSQ_ERR_SUCCESS) eqn:Hcheck;
        cbn [negb]; [|discriminate].
      intros [= <-]. split; [|apply Z.eqb_eq; exact Hcheck].
      apply (scan_success_all_pass _ t rc0). exact Hscan.
    - intros [= -> _]. apply scan_returned in Hscan. discriminate. }
  destruct Hpass as [Hpass Hcheck].
  destruct (entries_roundtrip t [] pl Hscalar Hpass)
    as (nodes & -> & Hlen & Hfits & Hids & Hfold).
  cbn [app] in *.
  assert (Hdecode : create_lua_stack_from_property_list (libmosquitto T) L nodes =
                    Some (MOSQ_ERR_SUCCESS, LTable (omap decoded_entry t) :: L)).
  { rewrite (create_lua_stack_fits L nodes Hfits).
    unfold user_field. rewrite (user_pairs_single_valued nodes Hids).
    rewrite app_nil_r. unfold direct_fields.
    rewrite (Hfold []); [reflexivity | |].
    - apply (check_all_NoDup command); assumption.
    - reflexivity. }
  split; [exact Hdecode|]. split; [exact Hlen|].
  intros Hid. rewrite Hdecode.
  assert (Hsame : omap decoded_entry t = t).
  { clear -Hid. induction t as [|kv t IH]; [reflexivity|].
    unfold omap in *. cbn [list_omap]. rewrite (Hid kv) by left.
    rewrite IH; [reflexivity|]. intros kv' Hin. apply Hid. right. exact Hin. }
  rewrite Hsame. reflexivity.
Qed.

End RoundTrip.

Lemma scalar_properties_roundtrip_witness :
  create_lua_stack_from_property_list (libmosquitto text_sample) []
    [{| identifier := MQTT_PROP_CONTENT_TYPE; value := V_s "text/json" |};
     {| identifier := MQTT_PROP_MESSAGE_EXPIRY_INTERVAL; value := V_i32 255 |}]
  = Some (MOSQ_ERR_SUCCESS,
          [LTable [(LString "content-type", LString "text/json");
                   (LString "message-expiry-interval", LNumber 255)]]).
Proof.
  refine (proj1 (scalar_properties_roundtrip text_sample 0
                   [(LString "Content-Type", LString "text/json");
                    (LString "message-expiry-interval", LNumber (511 # 2))]
                   CMD_PUBLISH _ [] _ _)).
  - repeat constructor.
  - reflexivity.
Defined.

(** ** User properties and the list handed to the library *)

Section EncoderFacts.
Context (N : native) (C : libc).

Lemma add_table_last t : forall k v identifier rc pl rc1 pl1,
  add_table N t identifier rc pl = Fallthrough rc1 pl1 ->
  add_table N (t ++ [(LString k, v)]) identifier rc pl =
    (let '(rc2, pl2) :=
       mosquitto_property_add_string_pair N pl1 identifier (Some k)
         (lua_tolstring N v) in
     Fallthrough rc2 pl2).
Proof.
  induction t as [|[k0 v0] t IH]; intros k v identifier rc pl rc1 pl1;
    cbn [add_table app].
  - intros [= <- <-].
    destruct (mosquitto_property_add_string_pair N pl identifier (Some k)
                (lua_tolstring N v)); reflexivity.
  - destruct k0; try discriminate.
    destruct (mosquitto_property_add_string_pair N pl identifier (Some s)
                (lua_tolstring N v0)) as [rc' pl'].
    apply IH.
Qed.

(** X14.  In a table of user properties the result code of each pair
    overwrites that of the pair before it, and the inner loop never stops
    on a failure: whatever code the earlier pairs ended with, when the last
    pair is accepted and the list passes the final check the encoder
    reports success, and the list holds only what the library accepted. *)
Theorem user_property_failure_is_masked rc0 t k v command id ty rc1 pl1 pl2 :
  mosquitto_string_to_property_info N (Some "user-property")
    = (MOSQ_ERR_SUCCESS, (id, ty)) ->
  add_table N t id MOSQ_ERR_SUCCESS [] = Fallthrough rc1 pl1 ->
  mosquitto_property_add_string_pair N pl1 id (Some k) (lua_tolstring N v)
    = (MOSQ_ERR_SUCCESS, pl2) ->
  mosquitto_property_check_all N command pl2 = MOSQ_ERR_SUCCESS ->
  create_property_list_from_lua_stack N rc0
    [(LString "user-property", LTable (t ++ [(LString k, v)]))] [] command
  = Returned MOSQ_ERR_SUCCESS pl2.
Proof.
  intros Hinfo Htable Hlast Hcheck.
  unfold create_property_list_from_lua_stack. cbn [scan].
  unfold add_entry. cbn [lua_tolstring]. rewrite Hinfo.
  change (negb (MOSQ_ERR_SUCCESS =? MOSQ_ERR_SUCCESS)) with false. cbn iota.
  cbn [add_value]. rewrite (add_table_last t k v id _ _ _ _ Htable), Hlast.
  change (negb (MOSQ_ERR_SUCCESS =? MOSQ_ERR_SUCCESS)) with false.
  cbn [key_survives]. cbn iota. rewrite Hcheck. reflexivity.
Qed.

End EncoderFacts.

Lemma user_property_failure_is_masked_witness :
  create_property_list_from_lua_stack (libmosquitto text_sample) 0
    [(LString "user-property",
      LTable [(LString "lost", LString (String (Ascii.ascii_of_nat 7) EmptyString));
              (LString "kept", LString "1")])] [] CMD_PUBLISH
  = Returned MOSQ_ERR_SUCCESS
      [{| identifier := MQTT_PROP_USER_PROPERTY; value := V_pair "kept" "1" |}].
Proof.
  apply (user_property_failure_is_masked (libmosquitto text_sample) 0
           [(LString "lost", LString (String (Ascii.ascii_of_nat 7) EmptyString))]
           "kept" (LString "1") CMD_PUBLISH MQTT_PROP_USER_PROPERTY
           MQTT_PROP_TYPE_STRING_PAIR MOSQ_ERR_MALFORMED_UTF8 []);
    reflexivity.
Defined.

(** ** Validation, then legality *)

Lemma registry_type_group s id ty :
  registry_by_name s property_registry = Some (id, ty) ->
  (ty = MQTT_PROP_TYPE_BYTE /\ member id byte_identifiers = true)
  \/ (ty = MQTT_PROP_TYPE_INT16 /\ member id int16_identifiers = true)
  \/ (ty = MQTT_PROP_TYPE_INT32 /\ member id int32_identifiers = true)
  \/ (ty = MQTT_PROP_TYPE_VARINT /\ member id varint_identifiers = true)
  \/ (ty = MQTT_PROP_TYPE_BINARY /\ member id binary_identifiers = true)
  \/ (ty = MQTT_PROP_TYPE_STRING /\ member id string_identifiers = true)
  \/ ty = MQTT_PROP_TYPE_STRING_PAIR.
Proof.
  unfold property_registry. cbn [registry_by_name].
  repeat match goal with
         | |- context [String.eqb (lowercase s) ?n] =>
             destruct (String.eqb (lowercase s) n);
             [intros [= <- <-]; tauto|]
         end.
  discriminate.
Qed.

Section Validation.
Context (T : library_text).

Lemma add_entry_valid pl k v :
  entry_valid T (k, v) = true ->
  exists p,
    encoded_entry (k, v) = Some p
    /\ add_entry (libmosquitto T) pl k v
       = Fallthrough MOSQ_ERR_SUCCESS (pl ++ [p])
    /\ key_survives k = true.
Proof.
  unfold entry_valid, encoded_entry, add_entry. cbn [fst snd].
  cbn [libmosquitto mosquitto_string_to_property_info].
  destruct k as [| | |name| | |]; try discriminate. cbn [lua_tolstring].
  destruct (registry_by_name (c_str name) property_registry) as [[id ty]|] eqn:Hreg;
    [|discriminate].
  change (negb (MOSQ_ERR_SUCCESS =? MOSQ_ERR_SUCCESS)) with false. cbn iota.
  unfold value_valid, encoded_value, UINT8_MAX, UINT16_MAX.
  destruct v as [| |q|s| | |]; try discriminate; cbn [add_value].
  - destruct (double_to_int q) as [z|] eqn:Hz; [|discriminate].
    pose proof (double_to_int_range q z Hz) as Hrange.
    unfold INT_MIN, INT_MAX in Hrange.
    cbn [mbind option_bind]. unfold add_number.
    cbn [libmosquitto mosquitto_property_add_byte mosquitto_property_add_int16
         mosquitto_property_add_int32 mosquitto_property_add_varint].
    unfold property_add, int_to_unsigned, UINT8_MAX, UINT16_MAX, UINT32_MAX.
    destruct (registry_type_group _ _ _ Hreg)
      as [[-> Hm] | [[-> Hm] | [[-> Hm] | [[-> Hm] | [[-> Hm] | [[-> Hm] | ->]]]]]];
      cbn [Z.eqb MQTT_PROP_TYPE_BYTE MQTT_PROP_TYPE_INT16 MQTT_PROP_TYPE_INT32
           MQTT_PROP_TYPE_VARINT MQTT_PROP_TYPE_BINARY MQTT_PROP_TYPE_STRING
           MQTT_PROP_TYPE_STRING_PAIR Pos.eqb];
      rewrite ?andb_false_r; try discriminate;
      rewrite ?Hm; intros Hv; apply andb_true_iff in Hv as [H0 H1];
      apply Z.leb_le in H0; try apply Z.leb_le in H1.
    + replace (z <? 0) with false by lia. replace (z >? 255) with false by lia.
      cbn [orb]. rewrite Z.mod_small by lia. eexists. repeat split; reflexivity.
    + replace (z <? 0) with false by lia. replace (z >? 65535) with false by lia.
      cbn [orb]. rewrite Z.mod_small by lia. eexists. repeat split; reflexivity.
    + replace (z <? 0) with false by lia. rewrite Z.mod_small by lia.
      replace (z >? 4294967295) with false by lia.
      cbn [orb]. eexists. repeat split; reflexivity.
    + replace (z <? 0) with false by lia. rewrite Z.mod_small by lia.
      replace (z >? 4294967295) with false by lia.
      replace (z >? 268435455) with false by lia.
      cbn [orb]. eexists. repeat split; reflexivity.
  - unfold add_string.
    cbn [libmosquitto mosquitto_property_add_binary
         mosquitto_property_add_string].
    unfold property_add, UINT16_MAX.
    pose proof (strlen_nonneg s).
    destruct (registry_type_group _ _ _ Hreg)
      as [[-> Hm] | [[-> Hm] | [[-> Hm] | [[-> Hm] | [[-> Hm] | [[-> Hm] | ->]]]]]];
      cbn [Z.eqb MQTT_PROP_TYPE_BYTE MQTT_PROP_TYPE_INT16 MQTT_PROP_TYPE_INT32
           MQTT_PROP_TYPE_VARINT MQTT_PROP_TYPE_BINARY MQTT_PROP_TYPE_STRING
           MQTT_PROP_TYPE_STRING_PAIR Pos.eqb];
      try discriminate; rewrite ?Hm; intros Hv.
    + apply Z.leb_le in Hv. replace (strlen s >? 65535) with false by lia.
      rewrite Z.mod_small by lia. rewrite take_bytes_strlen.
      eexists. repeat split; reflexivity.
    + rewrite Hv. cbn [negb]. eexists. repeat split; reflexivity.
Qed.

Lemma add_entry_passes_valid pl k v pl1 :
  lua_istable v = false ->
  key_survives k = true ->
  add_entry (libmosquitto T) pl k v = Fallthrough MOSQ_ERR_SUCCESS pl1 ->
  entry_valid T (k, v) = true.
Proof.
  intros Htable Hkey. unfold entry_valid, add_entry. cbn [fst snd].
  cbn [libmosquitto mosquitto_string_to_property_info].
  destruct k as [| | |name| | |]; cbn [lua_tolstring key_survives] in *;
    try discriminate Hkey.
  all: try (cbn iota; change (negb (MOSQ_ERR_INVAL =? MOSQ_ERR_SUCCESS)) with true;
            cbn iota; discriminate).
  destruct (registry_by_name (c_str name) property_registry) as [[id ty]|] eqn:Hreg;
    [|cbn iota; change (negb (MOSQ_ERR_INVAL =? MOSQ_ERR_SUCCESS)) with true;
      cbn iota; discriminate].
  change (negb (MOSQ_ERR_SUCCESS =? MOSQ_ERR_SUCCESS)) with false. cbn iota.
  unfold value_valid, UINT8_MAX, UINT16_MAX.
  destruct v as [| |q|s|t| |]; try discriminate Htable; cbn [add_value];
    try discriminate.
  - destruct (double_to_int q) as [z|] eqn:Hz; [|discriminate].
    pose proof (double_to_int_range q z Hz) as Hrange.
    unfold INT_MIN, INT_MAX in Hrange.
    unfold add_number.
    cbn [libmosquitto mosquitto_property_add_byte mosquitto_property_add_int16
         mosquitto_property_add_int32 mosquitto_property_add_varint].
    unfold property_add, int_to_unsigned, UINT8_MAX, UINT16_MAX, UINT32_MAX.
    destruct (ty =? MQTT_PROP_TYPE_BYTE);
      [|destruct (ty =? MQTT_PROP_TYPE_INT16);
        [|destruct (ty =? MQTT_PROP_TYPE_INT32);
          [|destruct (ty =? MQTT_PROP_TYPE_VARINT); [|discriminate]]]].
    + destruct (z <? 0) eqn:H0; cbn [orb]; [discriminate|].
      destruct (z >? 255) eqn:H1; [discriminate|].
      intros _. apply andb_true_iff. split; apply Z.leb_le; lia.
    + destruct (z <? 0) eqn:H0; cbn [orb]; [discriminate|].
      destruct (z >? 65535) eqn:H1; [discriminate|].
      intros _. apply andb_true_iff. split; apply Z.leb_le; lia.
    + destruct (z <? 0) eqn:H0; cbn [orb]; [discriminate|].
      intros _. apply andb_true_iff. split; [apply Z.leb_le; lia | reflexivity].
    + destruct (z <? 0) eqn:H0; cbn [orb]; [discriminate|].
      destruct (z mod 2 ^ 32 >? 4294967295) eqn:H1; [discriminate|].
      rewrite Z.mod_small by lia.
      destruct (z >? 268435455) eqn:H2; [discriminate|].
      intros _. apply andb_true_iff. split; apply Z.leb_le; lia.
  - unfold add_string.
    cbn [libmosquitto mosquitto_property_add_binary
         mosquitto_property_add_string].
    unfold property_add, UINT16_MAX.
    destruct (ty =? MQTT_PROP_TYPE_BINARY);
      [|destruct (ty =? MQTT_PROP_TYPE_STRING); [|discriminate]].
    + destruct (strlen s >? 65535) eqn:H1; [discriminate|].
      intros _. apply Z.leb_le. lia.
    + destruct (utf8_ok T (Some s)); [reflexivity|]. cbn [negb]. discriminate.
Qed.

Lemma valid_entries_pass t : forall pl,
  Forall (fun kv => entry_valid T kv = true) t ->
  all_entries_pass (libmosquitto T) t pl (pl ++ omap encoded_entry t)
  /\ length (omap encoded_entry t) = length t.
Proof.
  induction t as [|[k v] t IH]; intros pl Hvalid.
  - cbn. rewrite app_nil_r. split; [constructor | reflexivity].
  - apply Forall_cons in Hvalid as [Hkv Hvalid].
    destruct (add_entry_valid pl k v Hkv) as (p & Henc & Hadd & Hkey).
    destruct (IH (pl ++ [p]) Hvalid) as [Hpass Hlen].
    unfold omap in *. cbn [list_omap]. rewrite Henc. cbn [length].
    split; [|congruence].
    apply pass_cons with (pl ++ [p]); [exact Hadd | exact Hkey |].
    rewrite <- app_assoc in Hpass. exact Hpass.
Qed.

Lemma passed_entries_valid t pl pl' :
  Forall (fun kv => lua_istable (snd kv) = false) t ->
  all_entries_pass (libmosquitto T) t pl pl' ->
  Forall (fun kv => entry_valid T kv = true) t
  /\ pl' = pl ++ omap encoded_entry t.
Proof.
  intros Htables Hpass.
  induction Hpass as [pl | k v t pl pl1 pl2 Hentry Hkey Hrest IH].
  - split; [constructor | cbn; rewrite app_nil_r; reflexivity].
  - apply Forall_cons in Htables as [Hv Htables]. cbn [snd] in Hv.
    pose proof (add_entry_passes_valid pl k v pl1 Hv Hkey Hentry) as Hvalid.
    destruct (add_entry_valid pl k v Hvalid) as (p & Henc & Hadd & _).
    assert (pl1 = pl ++ [p]) as -> by congruence.
    destruct (IH Htables) as [Hall ->].
    split; [constructor; assumption|].
    unfold omap. cbn [list_omap]. rewrite Henc, <- app_assoc. reflexivity.
Qed.


(** X15.  The native operation of a v5 binding given a map of numbers and
    strings is only ever called when every entry of the map has passed
    name resolution and value validation, with the list that holds one
    property per entry, in order, and that the check has accepted for the
    binding's command; the list is released before the binding returns. *)
Theorem native_operation_gets_checked_list C rc0 t command op finish pl :
  Forall (fun kv => lua_istable (snd kv) = false) t ->
  handed_to_native
    (v5_binding (libmosquitto T) C rc0 (Some (LTable t)) command op finish)
    = Some pl ->
  Forall (fun kv => entry_valid T kv = true) t
  /\ pl = omap encoded_entry t
  /\ length pl = length t
  /\ check_all command pl = MOSQ_ERR_SUCCESS
  /\ left_allocated
       (v5_binding (libmosquitto T) C rc0 (Some (LTable t)) command op finish)
     = []
  /\ returned
       (v5_binding (libmosquitto T) C rc0 (Some (LTable t)) command op finish)
     = Some (finish (op pl)).
Proof.
  intros Htables. unfold v5_binding, create_property_list_from_lua_stack.
  destruct (scan (libmosquitto T) t rc0 []) as [rc pl'|rc pl'|pl'|] eqn:Hscan;
    try discriminate.
  - destruct (rc =? MOSQ_ERR_SUCCESS) eqn:Hrc; cbn [negb].
    2:{ rewrite Hrc. discriminate. }
    apply Z.eqb_eq in Hrc. subst rc.
    cbn [libmosquitto mosquitto_property_check_all].
    destruct (check_all command pl' =? MOSQ_ERR_SUCCESS) eqn:Hcheck;
      cbn [negb]; [|discriminate].
    change (negb (MOSQ_ERR_SUCCESS =? MOSQ_ERR_SUCCESS)) with false. cbn iota.
    cbn [handed_to_native left_allocated returned].
    intros [= <-].
    apply scan_success_all_pass in Hscan.
    destruct (passed_entries_valid t [] pl' Htables Hscan) as [Hvalid Hpl].
    cbn [app] in Hpl.
    destruct (valid_entries_pass t [] Hvalid) as [_ Hlen].
    repeat split; try assumption.
    + rewrite Hpl. exact Hlen.
    + apply Z.eqb_eq. exact Hcheck.
  - apply scan_returned in Hscan. subst rc. discriminate.
Qed.

End Validation.



Lemma native_operation_gets_checked_list_witness :
  [{| identifier := MQTT_PROP_CONTENT_TYPE; value := V_s "text/json" |}]
  = omap encoded_entry [(LString "Content-Type", LString "text/json")]
  /\ check_all CMD_PUBLISH
       [{| identifier := MQTT_PROP_CONTENT_TYPE; value := V_s "text/json" |}]
     = MOSQ_ERR_SUCCESS.
Proof.
  destruct (native_operation_gets_checked_list text_sample libc_sample 0
              [(LString "Content-Type", LString "text/json")]
              CMD_PUBLISH (fun _ => MOSQ_ERR_SUCCESS)
              (mid_result libc_sample 1)
              [{| identifier := MQTT_PROP_CONTENT_TYPE;
                  value := V_s "text/json" |}])
    as (_ & Hpl & _ & Hcheck & _).
  - repeat constructor.
  - reflexivity.
  - split; assumption.
Defined.
